(** * BudgetBuddy: the recurring-transaction engine

    A shallow embedding of
    [budgetbuddy-backend/src/controllers/recurringController.js]:
    the calendar arithmetic of [calculateNextDate], the template
    handlers (create, update, delete) and the batch sweep
    [processRecurringTransactions], over a model of the Prisma store
    in which every store call may reject.  A handler runs from its
    first store call to its response without another handler running
    in between. *)

From Stdlib Require Import ZArith List String Bool Lia QArith.
From Stdlib Require Import Permutation Sorted.
Import ListNotations.
Local Open Scope string_scope.
Local Open Scope Z_scope.

(** ** The JavaScript [Date] object

    A [Date] is held by its calendar fields in the server's time zone,
    taken to have a fixed offset: [year], [month] (0 = January, as
    [getMonth] counts), [day] of the month (from 1, as [getDate]
    counts) and [time], the milliseconds elapsed within the day.  The
    setters rebuild the date as ECMAScript's [MakeDay] does: a day
    number outside the month rolls over into the neighbouring
    months. *)
Module JsDate.

Record Date : Type := mkDate
  { year : Z; month : Z; day : Z; time : Z }.

Definition msPerDay : Z := 86400000.

(** ECMAScript's [DaysInYear] test. *)
Definition isLeapYear (y : Z) : bool :=
  ((y mod 4 =? 0) && negb (y mod 100 =? 0)) || (y mod 400 =? 0).

Definition daysInMonth (y m : Z) : Z :=
  if m =? 1 then (if isLeapYear y then 29 else 28)
  else if (m =? 3) || (m =? 5) || (m =? 8) || (m =? 10) then 30
  else 31.

Definition nextMonth (y m : Z) : Z * Z :=
  if m =? 11 then (y + 1, 0) else (y, m + 1).

Definition prevMonth (y m : Z) : Z * Z :=
  if m =? 0 then (y - 1, 11) else (y, m - 1).

(** [rollDay fuel y m d] is the calendar date of day number [d]
    counted from the first of month [m] of year [y] (the first is
    day 1), for a month [m] in 0..11: a day past the end of the month
    is carried into the next month, a day before the first is borrowed
    from the previous one. *)
Fixpoint rollDay (fuel : nat) (y m d : Z) : Z * Z * Z :=
  match fuel with
  | O => (y, m, d)
  | S fuel' =>
      if d <? 1 then
        let (y', m') := prevMonth y m in
        rollDay fuel' y' m' (d + daysInMonth y' m')
      else if daysInMonth y m <? d then
        let (y', m') := nextMonth y m in
        rollDay fuel' y' m' (d - daysInMonth y m)
      else (y, m, d)
  end.

(** [MakeDay(year, month, date)]: the month is first brought into
    0..11 by carrying whole years, then the day is rolled.  Every roll
    moves the day number by at least 28 towards the month, so
    [|date| + 1] steps are enough. *)
Definition MakeDay (y m d : Z) : Z * Z * Z :=
  rollDay (S (Z.abs_nat d)) (y + m / 12) (m mod 12) d.

Definition ofFields (f : Z * Z * Z) (t : Z) : Date :=
  let '(y, m, d) := f in mkDate y m d t.

Definition getFullYear (d : Date) : Z := year d.
Definition getMonth (d : Date) : Z := month d.
Definition getDate (d : Date) : Z := day d.

Definition setDate (d : Date) (n : Z) : Date :=
  ofFields (MakeDay (year d) (month d) n) (time d).

Definition setMonth (d : Date) (m : Z) : Date :=
  ofFields (MakeDay (year d) m (day d)) (time d).

Definition setFullYear (d : Date) (y : Z) : Date :=
  ofFields (MakeDay y (month d) (day d)) (time d).

(** [setHours(0, 0, 0, 0)]: midnight of the same day. *)
Definition setHoursZero (d : Date) : Date :=
  mkDate (year d) (month d) (day d) 0.

(** The relational operators compare time values; on calendar fields
    of one time zone that is the lexicographic order. *)
Definition compare (a b : Date) : comparison :=
  match year a ?= year b with
  | Eq => match month a ?= month b with
          | Eq => match day a ?= day b with
                  | Eq => time a ?= time b
                  | c => c
                  end
          | c => c
          end
  | c => c
  end.

Definition ltb (a b : Date) : bool :=
  match compare a b with Lt => true | _ => false end.

Definition leb (a b : Date) : bool :=
  match compare a b with Gt => false | _ => true end.

Definition lt (a b : Date) : Prop := ltb a b = true.
Definition le (a b : Date) : Prop := leb a b = true.

(** A date a [Date] object can hold. *)
Definition valid (d : Date) : Prop :=
  0 <= month d <= 11 /\
  1 <= day d <= daysInMonth (year d) (month d) /\
  0 <= time d < msPerDay.

Definition lastDayOfMonth (d : Date) : Prop :=
  day d = daysInMonth (year d) (month d).

End JsDate.
Import JsDate.

(** ** Failure *)

Inductive Error : Type :=
| InvalidFrequency (frequency : string)
| RecordNotFound
| StoreFailure.

(** ** [calculateNextDate] *)

(** The leap-year test written out in [calculateNextDate]; [%] is
    JavaScript's remainder. *)
Definition isLeap (year : Z) : bool :=
  ((Z.rem year 4 =? 0) && negb (Z.rem year 100 =? 0))
  || (Z.rem year 400 =? 0).

Definition calculateNextDate (currentDate : Date) (frequency : string)
  : Error + Date :=
  let next := currentDate in
  if String.eqb frequency "daily" then
    inr (setDate next (getDate next + 1))
  else if String.eqb frequency "weekly" then
    inr (setDate next (getDate next + 7))
  else if String.eqb frequency "monthly" then
    let originalDay := getDate next in
    let next := setMonth next (getMonth next + 1) in
    inr (if negb (getDate next =? originalDay) then setDate next 0
         else next)
  else if String.eqb frequency "yearly" then
    let next := setFullYear next (getFullYear next + 1) in
    inr (if (getMonth next =? 2) && (getDate next =? 29) then
           let year := getFullYear next in
           if negb (isLeap year) then setDate next 28 else next
         else next)
  else inl (InvalidFrequency frequency).

(** ** The Prisma models

    The columns are those of the schema that the recurring engine
    reads or writes ([createdAt] and [updatedAt] are left out).
    Amounts are rationals. *)

Module RecurringExpense.
Record t : Type := mk
  { id : string; userId : string; amount : Q; description : string;
    category : string; frequency : string; startDate : Date;
    nextDate : Date; endDate : option Date; isActive : bool }.
End RecurringExpense.

Module Expense.
Record t : Type := mk
  { userId : string; amount : Q; description : string; category : string;
    date : Date; isRecurring : bool; recurringId : option string }.
End Expense.

Module RecurringIncome.
Record t : Type := mk
  { id : string; userId : string; amount : Q; source : string;
    frequency : string; startDate : Date; nextDate : Date;
    endDate : option Date; isActive : bool }.
End RecurringIncome.

Module Income.
Record t : Type := mk
  { userId : string; amount : Q; source : string; date : Date;
    isRecurring : bool; recurringId : option string }.
End Income.

(** The four tables.  Rows stand in the order the store returns them;
    [id] is the primary key of a template table. *)
Record Store : Type := mkStore
  { recurringExpense : list RecurringExpense.t;
    expense : list Expense.t;
    recurringIncome : list RecurringIncome.t;
    income : list Income.t }.

(** The store together with the fate of its coming calls: the n-th
    flag of [faults] is [true] when the n-th call from now rejects
    (a write error, a lost connection); past the end of the list every
    call goes through. *)
Record World : Type := mkWorld
  { store : Store; faults : list bool }.

(** ** Awaited computations

    An [Async A] runs against the world and either returns a value or
    throws; the writes made before a throw stay in the store. *)

Inductive Outcome (A : Type) : Type :=
| Returned (a : A) (w : World)
| Thrown (e : Error) (w : World).
Arguments Returned {A} a w.
Arguments Thrown {A} e w.

Definition Async (A : Type) : Type := World -> Outcome A.

Definition ret {A} (a : A) : Async A := fun w => Returned a w.

Definition throw {A} (e : Error) : Async A := fun w => Thrown e w.

Definition bind {A B} (m : Async A) (k : A -> Async B) : Async B :=
  fun w => match m w with
           | Returned a w' => k a w'
           | Thrown e w' => Thrown e w'
           end.

Notation "x <- m ;; k" := (bind m (fun x => k))
  (at level 61, m at next level, right associativity).
Notation "m ;;; k" := (bind m (fun _ => k))
  (at level 61, right associativity).

(** One call to the store: it consumes the next fault flag, rejects
    when the flag says so, and otherwise performs [op]. *)
Definition prismaCall {A} (op : Store -> Error + A * Store) : Async A :=
  fun w =>
    match faults w with
    | true :: rest => Thrown StoreFailure (mkWorld (store w) rest)
    | _ =>
        let rest := tl (faults w) in
        match op (store w) with
        | inl e => Thrown e (mkWorld (store w) rest)
        | inr (a, s) => Returned a (mkWorld s rest)
        end
    end.

(** [for (const x of xs) { body }] with the loop-carried locals [s]. *)
Fixpoint forOf {T S} (body : T -> S -> Async S) (xs : list T) (s : S)
  : Async S :=
  match xs with
  | [] => ret s
  | x :: rest => s' <- body x s ;; forOf body rest s'
  end.

(** ** Store operations *)

(** [update({ where: { id }, data })] on a table keyed by [key]: the
    row is rewritten by [f]; no such row is Prisma's "record to update
    not found". *)
Definition rewriteRows {T} (key : T -> string) (k : string) (f : T -> T)
  (rows : list T) : list T :=
  map (fun r => if String.eqb (key r) k then f r else r) rows.

Definition updateWhere {T} (key : T -> string) (k : string) (f : T -> T)
  (rows : list T) : option (T * list T) :=
  match find (fun r => String.eqb (key r) k) rows with
  | None => None
  | Some r => Some (f r, rewriteRows key k f rows)
  end.

Definition deleteWhere {T} (key : T -> string) (k : string)
  (rows : list T) : option (list T) :=
  match find (fun r => String.eqb (key r) k) rows with
  | None => None
  | Some _ => Some (filter (fun r => negb (String.eqb (key r) k)) rows)
  end.

Definition setRecurringExpense (rows : list RecurringExpense.t) (s : Store)
  : Store :=
  mkStore rows (expense s) (recurringIncome s) (income s).

Definition setExpense (rows : list Expense.t) (s : Store) : Store :=
  mkStore (recurringExpense s) rows (recurringIncome s) (income s).

Definition setRecurringIncome (rows : list RecurringIncome.t) (s : Store)
  : Store :=
  mkStore (recurringExpense s) (expense s) rows (income s).

Definition setIncome (rows : list Income.t) (s : Store) : Store :=
  mkStore (recurringExpense s) (expense s) (recurringIncome s) rows.

Definition sameId (a : option string) (k : string) : bool :=
  match a with Some a => String.eqb a k | None => false end.

Module prisma.

Module recurringExpense.

Definition findUnique (k : string) : Async (option RecurringExpense.t) :=
  prismaCall (fun s =>
    inr (find (fun r => String.eqb (RecurringExpense.id r) k)
           (recurringExpense s), s)).

Definition findMany (cond : RecurringExpense.t -> bool)
  : Async (list RecurringExpense.t) :=
  prismaCall (fun s => inr (filter cond (recurringExpense s), s)).

Definition create (data : RecurringExpense.t) : Async RecurringExpense.t :=
  prismaCall (fun s =>
    inr (data, setRecurringExpense (recurringExpense s ++ [data]) s)).

Definition update (k : string) (data : RecurringExpense.t -> RecurringExpense.t)
  : Async RecurringExpense.t :=
  prismaCall (fun s =>
    match updateWhere RecurringExpense.id k data (recurringExpense s) with
    | None => inl RecordNotFound
    | Some (r, rows) => inr (r, setRecurringExpense rows s)
    end).

(** The foreign key of [Expense.recurringId] is [ON DELETE SET NULL]. *)
Definition delete (k : string) : Async unit :=
  prismaCall (fun s =>
    match deleteWhere RecurringExpense.id k (recurringExpense s) with
    | None => inl RecordNotFound
    | Some rows =>
        inr (tt,
             setExpense
               (map (fun e =>
                       if sameId (Expense.recurringId e) k then
                         Expense.mk (Expense.userId e) (Expense.amount e)
                           (Expense.description e) (Expense.category e)
                           (Expense.date e) (Expense.isRecurring e) None
                       else e) (expense s))
               (setRecurringExpense rows s))
    end).

End recurringExpense.

Module expense.
Definition create (data : Expense.t) : Async Expense.t :=
  prismaCall (fun s => inr (data, setExpense (expense s ++ [data]) s)).
End expense.

Module recurringIncome.

Definition findUnique (k : string) : Async (option RecurringIncome.t) :=
  prismaCall (fun s =>
    inr (find (fun r => String.eqb (RecurringIncome.id r) k)
           (recurringIncome s), s)).

Definition findMany (cond : RecurringIncome.t -> bool)
  : Async (list RecurringIncome.t) :=
  prismaCall (fun s => inr (filter cond (recurringIncome s), s)).

Definition create (data : RecurringIncome.t) : Async RecurringIncome.t :=
  prismaCall (fun s =>
    inr (data, setRecurringIncome (recurringIncome s ++ [data]) s)).

Definition update (k : string) (data : RecurringIncome.t -> RecurringIncome.t)
  : Async RecurringIncome.t :=
  prismaCall (fun s =>
    match updateWhere RecurringIncome.id k data (recurringIncome s) with
    | None => inl RecordNotFound
    | Some (r, rows) => inr (r, setRecurringIncome rows s)
    end).

Definition delete (k : string) : Async unit :=
  prismaCall (fun s =>
    match deleteWhere RecurringIncome.id k (recurringIncome s) with
    | None => inl RecordNotFound
    | Some rows =>
        inr (tt,
             setIncome
               (map (fun e =>
                       if sameId (Income.recurringId e) k then
                         Income.mk (Income.userId e) (Income.amount e)
                           (Income.source e) (Income.date e)
                           (Income.isRecurring e) None
                       else e) (income s))
               (setRecurringIncome rows s))
    end).

End recurringIncome.

Module income.
Definition create (data : Income.t) : Async Income.t :=
  prismaCall (fun s => inr (data, setIncome (income s ++ [data]) s)).
End income.

End prisma.

(** ** Requests and responses *)

Inductive Data : Type :=
| NoData
| ExpenseTemplate (r : RecurringExpense.t)
| IncomeTemplate (r : RecurringIncome.t)
| Processed (expensesCreated incomesCreated totalProcessed : nat)
| ErrorMessage (e : Error).

Module Response.
Record t : Type := mk
  { status : Z; success : bool; message : string; data : Data }.
End Response.

(** [try { ... } catch (error) { res.status(500)... }] *)
Definition tryCatch (handler : Error -> Response.t) (m : Async Response.t)
  (w : World) : Response.t * World :=
  match m w with
  | Returned r w' => (r, w')
  | Thrown e w' => (handler e, w')
  end.

Definition lift {A} (r : Error + A) : Async A :=
  match r with inl e => throw e | inr a => ret a end.

(** The body of a create request; a field that is absent is [None],
    dates arrive already parsed and the amount is a JSON number (which
    [parseFloat] gives back as it is; an amount sent as a string is
    not covered). *)
Module ExpenseBody.
Record t : Type := mk
  { amount : option Q; description : option string;
    category : option string; frequency : option string;
    startDate : option Date; endDate : option Date }.
End ExpenseBody.

Module IncomeBody.
Record t : Type := mk
  { amount : option Q; source : option string; frequency : option string;
    startDate : option Date; endDate : option Date }.
End IncomeBody.

(** The body of an update request, by column; [endDate] may be sent
    as [null].  A body field that is no column of the model is not
    represented, and the bodies covered are those without the keys
    [id] and [user]. *)
Module ExpenseUpdates.
Record t : Type := mk
  { userId : option string; amount : option Q; description : option string;
    category : option string; frequency : option string;
    startDate : option Date; nextDate : option Date;
    endDate : option (option Date); isActive : option bool;
    createdAt : option Date }.
End ExpenseUpdates.

Module IncomeUpdates.
Record t : Type := mk
  { userId : option string; amount : option Q; source : option string;
    frequency : option string; startDate : option Date;
    nextDate : option Date; endDate : option (option Date);
    isActive : option bool; createdAt : option Date }.
End IncomeUpdates.

Definition validFrequencies : list string :=
  ["daily"; "weekly"; "monthly"; "yearly"].

Definition includes (xs : list string) (x : string) : bool :=
  existsb (String.eqb x) xs.

Definition isEmpty (s : string) : bool := String.eqb s "".

Definition orElse {A} (o : option A) (a : A) : A :=
  match o with Some x => x | None => a end.

(** ** Template handlers: recurring expenses *)

Definition createRecurringExpense (newId userId : string)
  (body : ExpenseBody.t) : World -> Response.t * World :=
  tryCatch
    (fun _ => Response.mk 500 false "Failed to create recurring expense" NoData)
    (match ExpenseBody.amount body, ExpenseBody.description body,
           ExpenseBody.category body, ExpenseBody.frequency body,
           ExpenseBody.startDate body with
     | Some amount, Some description, Some category, Some frequency,
       Some startDate =>
         if Qeq_bool amount 0 || isEmpty description || isEmpty category
            || isEmpty frequency then
           ret (Response.mk 400 false
                  "Missing required fields: amount, description, category, frequency, startDate"
                  NoData)
         else if negb (includes validFrequencies frequency) then
           ret (Response.mk 400 false
                  "Invalid frequency. Must be one of: daily, weekly, monthly, yearly"
                  NoData)
         else if Qle_bool amount 0 then
           ret (Response.mk 400 false "Amount must be greater than 0" NoData)
         else
           let start := startDate in
           let end_ := ExpenseBody.endDate body in
           if match end_ with Some e => JsDate.leb e start | None => false end
           then
             ret (Response.mk 400 false "End date must be after start date"
                    NoData)
           else
             recurring <- prisma.recurringExpense.create
                            (RecurringExpense.mk newId userId amount
                               description category frequency start start
                               end_ true) ;;
             ret (Response.mk 201 true
                    "Recurring expense created successfully"
                    (ExpenseTemplate recurring))
     | _, _, _, _, _ =>
         ret (Response.mk 400 false
                "Missing required fields: amount, description, category, frequency, startDate"
                NoData)
     end).

(** [delete updates.userId; delete updates.startDate;
    delete updates.createdAt] *)
Definition stripExpenseUpdates (u : ExpenseUpdates.t) : ExpenseUpdates.t :=
  ExpenseUpdates.mk None (ExpenseUpdates.amount u)
    (ExpenseUpdates.description u) (ExpenseUpdates.category u)
    (ExpenseUpdates.frequency u) None (ExpenseUpdates.nextDate u)
    (ExpenseUpdates.endDate u) (ExpenseUpdates.isActive u) None.

(** [data: updates]: every column present in the body is written.
    ([updates.endDate = new Date(updates.endDate)] changes nothing
    here, dates being held parsed.) *)
Definition applyExpenseUpdates (u : ExpenseUpdates.t) (r : RecurringExpense.t)
  : RecurringExpense.t :=
  RecurringExpense.mk (RecurringExpense.id r)
    (orElse (ExpenseUpdates.userId u) (RecurringExpense.userId r))
    (orElse (ExpenseUpdates.amount u) (RecurringExpense.amount r))
    (orElse (ExpenseUpdates.description u) (RecurringExpense.description r))
    (orElse (ExpenseUpdates.category u) (RecurringExpense.category r))
    (orElse (ExpenseUpdates.frequency u) (RecurringExpense.frequency r))
    (orElse (ExpenseUpdates.startDate u) (RecurringExpense.startDate r))
    (orElse (ExpenseUpdates.nextDate u) (RecurringExpense.nextDate r))
    (orElse (ExpenseUpdates.endDate u) (RecurringExpense.endDate r))
    (orElse (ExpenseUpdates.isActive u) (RecurringExpense.isActive r)).

Definition updateRecurringExpense (userId id : string)
  (updates : ExpenseUpdates.t) : World -> Response.t * World :=
  tryCatch
    (fun _ => Response.mk 500 false "Failed to update recurring expense" NoData)
    (existing <- prisma.recurringExpense.findUnique id ;;
     match existing with
     | None =>
         ret (Response.mk 404 false "Recurring expense not found" NoData)
     | Some existing =>
         if negb (String.eqb (RecurringExpense.userId existing) userId) then
           ret (Response.mk 403 false
                  "Not authorized to update this recurring expense" NoData)
         else if match ExpenseUpdates.frequency updates with
                 | Some f => negb (isEmpty f)
                             && negb (includes validFrequencies f)
                 | None => false
                 end then
           ret (Response.mk 400 false
                  "Invalid frequency. Must be one of: daily, weekly, monthly, yearly"
                  NoData)
         else if match ExpenseUpdates.amount updates with
                 | Some a => Qle_bool a 0
                 | None => false
                 end then
           ret (Response.mk 400 false "Amount must be greater than 0" NoData)
         else
           let updates := stripExpenseUpdates updates in
           updated <- prisma.recurringExpense.update id
                        (applyExpenseUpdates updates) ;;
           ret (Response.mk 200 true
                  "Recurring expense updated successfully"
                  (ExpenseTemplate updated))
     end).

Definition deleteRecurringExpense (userId id : string)
  : World -> Response.t * World :=
  tryCatch
    (fun _ => Response.mk 500 false "Failed to delete recurring expense" NoData)
    (existing <- prisma.recurringExpense.findUnique id ;;
     match existing with
     | None =>
         ret (Response.mk 404 false "Recurring expense not found" NoData)
     | Some existing =>
         if negb (String.eqb (RecurringExpense.userId existing) userId) then
           ret (Response.mk 403 false
                  "Not authorized to delete this recurring expense" NoData)
         else
           prisma.recurringExpense.delete id ;;;
           ret (Response.mk 200 true
                  "Recurring expense deleted successfully" NoData)
     end).

(** ** Template handlers: recurring incomes *)

Definition createRecurringIncome (newId userId : string)
  (body : IncomeBody.t) : World -> Response.t * World :=
  tryCatch
    (fun _ => Response.mk 500 false "Failed to create recurring income" NoData)
    (match IncomeBody.amount body, IncomeBody.source body,
           IncomeBody.frequency body, IncomeBody.startDate body with
     | Some amount, Some source, Some frequency, Some startDate =>
         if Qeq_bool amount 0 || isEmpty source || isEmpty frequency then
           ret (Response.mk 400 false
                  "Missing required fields: amount, source, frequency, startDate"
                  NoData)
         else if negb (includes validFrequencies frequency) then
           ret (Response.mk 400 false
                  "Invalid frequency. Must be one of: daily, weekly, monthly, yearly"
                  NoData)
         else if Qle_bool amount 0 then
           ret (Response.mk 400 false "Amount must be greater than 0" NoData)
         else
           let start := startDate in
           let end_ := IncomeBody.endDate body in
           if match end_ with Some e => JsDate.leb e start | None => false end
           then
             ret (Response.mk 400 false "End date must be after start date"
                    NoData)
           else
             recurring <- prisma.recurringIncome.create
                            (RecurringIncome.mk newId userId amount source
                               frequency start start end_ true) ;;
             ret (Response.mk 201 true
                    "Recurring income created successfully"
                    (IncomeTemplate recurring))
     | _, _, _, _ =>
         ret (Response.mk 400 false
                "Missing required fields: amount, source, frequency, startDate"
                NoData)
     end).

Definition stripIncomeUpdates (u : IncomeUpdates.t) : IncomeUpdates.t :=
  IncomeUpdates.mk None (IncomeUpdates.amount u) (IncomeUpdates.source u)
    (IncomeUpdates.frequency u) None (IncomeUpdates.nextDate u)
    (IncomeUpdates.endDate u) (IncomeUpdates.isActive u) None.

Definition applyIncomeUpdates (u : IncomeUpdates.t) (r : RecurringIncome.t)
  : RecurringIncome.t :=
  RecurringIncome.mk (RecurringIncome.id r)
    (orElse (IncomeUpdates.userId u) (RecurringIncome.userId r))
    (orElse (IncomeUpdates.amount u) (RecurringIncome.amount r))
    (orElse (IncomeUpdates.source u) (RecurringIncome.source r))
    (orElse (IncomeUpdates.frequency u) (RecurringIncome.frequency r))
    (orElse (IncomeUpdates.startDate u) (RecurringIncome.startDate r))
    (orElse (IncomeUpdates.nextDate u) (RecurringIncome.nextDate r))
    (orElse (IncomeUpdates.endDate u) (RecurringIncome.endDate r))
    (orElse (IncomeUpdates.isActive u) (RecurringIncome.isActive r)).

Definition updateRecurringIncome (userId id : string)
  (updates : IncomeUpdates.t) : World -> Response.t * World :=
  tryCatch
    (fun _ => Response.mk 500 false "Failed to update recurring income" NoData)
    (existing <- prisma.recurringIncome.findUnique id ;;
     match existing with
     | None =>
         ret (Response.mk 404 false "Recurring income not found" NoData)
     | Some existing =>
         if negb (String.eqb (RecurringIncome.userId existing) userId) then
           ret (Response.mk 403 false
                  "Not authorized to update this recurring income" NoData)
         else if match IncomeUpdates.frequency updates with
                 | Some f => negb (isEmpty f)
                             && negb (includes validFrequencies f)
                 | None => false
                 end then
           ret (Response.mk 400 false
                  "Invalid frequency. Must be one of: daily, weekly, monthly, yearly"
                  NoData)
         else if match IncomeUpdates.amount updates with
                 | Some a => Qle_bool a 0
                 | None => false
                 end then
           ret (Response.mk 400 false "Amount must be greater than 0" NoData)
         else
           let updates := stripIncomeUpdates updates in
           updated <- prisma.recurringIncome.update id
                        (applyIncomeUpdates updates) ;;
           ret (Response.mk 200 true
                  "Recurring income updated successfully"
                  (IncomeTemplate updated))
     end).

Definition deleteRecurringIncome (userId id : string)
  : World -> Response.t * World :=
  tryCatch
    (fun _ => Response.mk 500 false "Failed to delete recurring income" NoData)
    (existing <- prisma.recurringIncome.findUnique id ;;
     match existing with
     | None =>
         ret (Response.mk 404 false "Recurring income not found" NoData)
     | Some existing =>
         if negb (String.eqb (RecurringIncome.userId existing) userId) then
           ret (Response.mk 403 false
                  "Not authorized to delete this recurring income" NoData)
         else
           prisma.recurringIncome.delete id ;;;
           ret (Response.mk 200 true
                  "Recurring income deleted successfully" NoData)
     end).

(** ** The batch sweep *)

(** [recurring.endDate && recurring.endDate < d] *)
Definition endsBefore (endDate : option Date) (d : Date) : bool :=
  match endDate with Some e => JsDate.ltb e d | None => false end.

Definition deactivateExpense (r : RecurringExpense.t) : RecurringExpense.t :=
  RecurringExpense.mk (RecurringExpense.id r) (RecurringExpense.userId r)
    (RecurringExpense.amount r) (RecurringExpense.description r)
    (RecurringExpense.category r) (RecurringExpense.frequency r)
    (RecurringExpense.startDate r) (RecurringExpense.nextDate r)
    (RecurringExpense.endDate r) false.

Definition advanceExpense (nextDate : Date) (isActive : bool)
  (r : RecurringExpense.t) : RecurringExpense.t :=
  RecurringExpense.mk (RecurringExpense.id r) (RecurringExpense.userId r)
    (RecurringExpense.amount r) (RecurringExpense.description r)
    (RecurringExpense.category r) (RecurringExpense.frequency r)
    (RecurringExpense.startDate r) nextDate
    (RecurringExpense.endDate r) isActive.

Definition deactivateIncome (r : RecurringIncome.t) : RecurringIncome.t :=
  RecurringIncome.mk (RecurringIncome.id r) (RecurringIncome.userId r)
    (RecurringIncome.amount r) (RecurringIncome.source r)
    (RecurringIncome.frequency r) (RecurringIncome.startDate r)
    (RecurringIncome.nextDate r) (RecurringIncome.endDate r) false.

Definition advanceIncome (nextDate : Date) (isActive : bool)
  (r : RecurringIncome.t) : RecurringIncome.t :=
  RecurringIncome.mk (RecurringIncome.id r) (RecurringIncome.userId r)
    (RecurringIncome.amount r) (RecurringIncome.source r)
    (RecurringIncome.frequency r) (RecurringIncome.startDate r) nextDate
    (RecurringIncome.endDate r) isActive.

(** The record the sweep creates from an expense template. *)
Definition generatedExpense (recurring : RecurringExpense.t) : Expense.t :=
  Expense.mk (RecurringExpense.userId recurring)
    (RecurringExpense.amount recurring)
    (RecurringExpense.description recurring)
    (RecurringExpense.category recurring)
    (RecurringExpense.nextDate recurring) true
    (Some (RecurringExpense.id recurring)).

Definition generatedIncome (recurring : RecurringIncome.t) : Income.t :=
  Income.mk (RecurringIncome.userId recurring)
    (RecurringIncome.amount recurring) (RecurringIncome.source recurring)
    (RecurringIncome.nextDate recurring) true
    (Some (RecurringIncome.id recurring)).

(** The body of [for (const recurring of dueExpenses)]. *)
Definition dueExpenseBody (today : Date) (recurring : RecurringExpense.t)
  (expensesCreated : nat) : Async nat :=
  if endsBefore (RecurringExpense.endDate recurring) today then
    prisma.recurringExpense.update (RecurringExpense.id recurring)
      deactivateExpense ;;;
    ret expensesCreated
  else
    prisma.expense.create (generatedExpense recurring) ;;;
    let expensesCreated := S expensesCreated in
    nextDate <- lift (calculateNextDate (RecurringExpense.nextDate recurring)
                        (RecurringExpense.frequency recurring)) ;;
    let shouldDeactivate :=
      endsBefore (RecurringExpense.endDate recurring) nextDate in
    prisma.recurringExpense.update (RecurringExpense.id recurring)
      (advanceExpense nextDate (negb shouldDeactivate)) ;;;
    ret expensesCreated.

(** The body of [for (const recurring of dueIncomes)]. *)
Definition dueIncomeBody (today : Date) (recurring : RecurringIncome.t)
  (incomesCreated : nat) : Async nat :=
  if endsBefore (RecurringIncome.endDate recurring) today then
    prisma.recurringIncome.update (RecurringIncome.id recurring)
      deactivateIncome ;;;
    ret incomesCreated
  else
    prisma.income.create (generatedIncome recurring) ;;;
    let incomesCreated := S incomesCreated in
    nextDate <- lift (calculateNextDate (RecurringIncome.nextDate recurring)
                        (RecurringIncome.frequency recurring)) ;;
    let shouldDeactivate :=
      endsBefore (RecurringIncome.endDate recurring) nextDate in
    prisma.recurringIncome.update (RecurringIncome.id recurring)
      (advanceIncome nextDate (negb shouldDeactivate)) ;;;
    ret incomesCreated.

Definition isDueExpense (today : Date) (r : RecurringExpense.t) : bool :=
  RecurringExpense.isActive r && JsDate.leb (RecurringExpense.nextDate r) today.

Definition isDueIncome (today : Date) (r : RecurringIncome.t) : bool :=
  RecurringIncome.isActive r && JsDate.leb (RecurringIncome.nextDate r) today.

(** [processRecurringTransactions]; [now] is the reading of the clock
    taken by [new Date()]. *)
Definition processRecurringTransactions (now : Date)
  : World -> Response.t * World :=
  tryCatch
    (fun e => Response.mk 500 false "Failed to process recurring transactions"
                (ErrorMessage e))
    (let today := setHoursZero now in
     let expensesCreated := 0%nat in
     let incomesCreated := 0%nat in
     dueExpenses <- prisma.recurringExpense.findMany (isDueExpense today) ;;
     expensesCreated <- forOf (dueExpenseBody today) dueExpenses
                          expensesCreated ;;
     dueIncomes <- prisma.recurringIncome.findMany (isDueIncome today) ;;
     incomesCreated <- forOf (dueIncomeBody today) dueIncomes
                         incomesCreated ;;
     ret (Response.mk 200 true
            "Recurring transactions processed successfully"
            (Processed expensesCreated incomesCreated
               (List.length dueExpenses + List.length dueIncomes)))).

(** ** What the sweep makes of one template

    The row a due template is rewritten to when every step of its
    loop body goes through. *)

Definition sweptExpense (today : Date) (t : RecurringExpense.t)
  : Error + RecurringExpense.t :=
  if endsBefore (RecurringExpense.endDate t) today then
    inr (deactivateExpense t)
  else
    match calculateNextDate (RecurringExpense.nextDate t)
            (RecurringExpense.frequency t) with
    | inl e => inl e
    | inr nextDate =>
        inr (advanceExpense nextDate
               (negb (endsBefore (RecurringExpense.endDate t) nextDate)) t)
    end.

Definition sweptIncome (today : Date) (t : RecurringIncome.t)
  : Error + RecurringIncome.t :=
  if endsBefore (RecurringIncome.endDate t) today then
    inr (deactivateIncome t)
  else
    match calculateNextDate (RecurringIncome.nextDate t)
            (RecurringIncome.frequency t) with
    | inl e => inl e
    | inr nextDate =>
        inr (advanceIncome nextDate
               (negb (endsBefore (RecurringIncome.endDate t) nextDate)) t)
    end.

Definition worldOf {A} (o : Outcome A) : World :=
  match o with Returned _ w => w | Thrown _ w => w end.

(** The next store call is not one that rejects. *)
Definition nextCallGoesThrough (w : World) : bool :=
  match faults w with true :: _ => false | _ => true end.

(** The generated records that point back to template [k]. *)
Definition expensesOf (k : string) (rows : list Expense.t) : list Expense.t :=
  filter (fun e => sameId (Expense.recurringId e) k) rows.

Definition incomesOf (k : string) (rows : list Income.t) : list Income.t :=
  filter (fun e => sameId (Income.recurringId e) k) rows.

(** The two answers of [processRecurringTransactions]. *)
Definition sweepFailed (e : Error) : Response.t :=
  Response.mk 500 false "Failed to process recurring transactions"
    (ErrorMessage e).

Definition sweepProcessed (expensesCreated incomesCreated totalProcessed : nat)
  : Response.t :=
  Response.mk 200 true "Recurring transactions processed successfully"
    (Processed expensesCreated incomesCreated totalProcessed).

(** ** What a sweep leaves behind

    [expenseSweep today s s' done]: from store [s] to store [s'] the
    expense side has changed as a sweep changes it, [done] being the
    templates a record was created for, in order. *)

Definition expenseSweep (today : Date) (s s' : Store)
  (done : list RecurringExpense.t) : Prop :=
  expense s' = (expense s ++ map generatedExpense done)%list
  /\ NoDup (map RecurringExpense.id done)
  /\ (forall t, In t done ->
      In t (recurringExpense s) /\ isDueExpense today t = true
      /\ endsBefore (RecurringExpense.endDate t) today = false)
  /\ map RecurringExpense.id (recurringExpense s')
     = map RecurringExpense.id (recurringExpense s)
  /\ (forall x, In x (recurringExpense s') ->
      In x (recurringExpense s)
      \/ exists t, In t (recurringExpense s) /\ isDueExpense today t = true
                   /\ sweptExpense today t = inr x)
  /\ (forall t, In t (recurringExpense s) -> isDueExpense today t = false ->
      In t (recurringExpense s')).

Definition incomeSweep (today : Date) (s s' : Store)
  (done : list RecurringIncome.t) : Prop :=
  income s' = (income s ++ map generatedIncome done)%list
  /\ NoDup (map RecurringIncome.id done)
  /\ (forall t, In t done ->
      In t (recurringIncome s) /\ isDueIncome today t = true
      /\ endsBefore (RecurringIncome.endDate t) today = false)
  /\ map RecurringIncome.id (recurringIncome s')
     = map RecurringIncome.id (recurringIncome s)
  /\ (forall x, In x (recurringIncome s') ->
      In x (recurringIncome s)
      \/ exists t, In t (recurringIncome s) /\ isDueIncome today t = true
                   /\ sweptIncome today t = inr x)
  /\ (forall t, In t (recurringIncome s) -> isDueIncome today t = false ->
      In t (recurringIncome s')).

(** The sweep ran to its end: every due template was rewritten. *)
Definition expenseSweepDone (today : Date) (s s' : Store)
  (done : list RecurringExpense.t) : Prop :=
  done = filter
           (fun t => negb (endsBefore (RecurringExpense.endDate t) today))
           (filter (isDueExpense today) (recurringExpense s))
  /\ forall t, In t (recurringExpense s) -> isDueExpense today t = true ->
     exists x, sweptExpense today t = inr x /\ In x (recurringExpense s').

Definition incomeSweepDone (today : Date) (s s' : Store)
  (done : list RecurringIncome.t) : Prop :=
  done = filter
           (fun t => negb (endsBefore (RecurringIncome.endDate t) today))
           (filter (isDueIncome today) (recurringIncome s))
  /\ forall t, In t (recurringIncome s) -> isDueIncome today t = true ->
     exists x, sweptIncome today t = inr x /\ In x (recurringIncome s').

(** What a sweep from [s] to [s'] has made of template [t], read off
    its row [x] in the new table: either the row is as it was, or the
    turn of [t] ran to its end, so that [x] is the rewritten row and
    the records of [t] have grown by the one record of the turn (by
    none, when the template had expired). *)
Definition expenseTurn (today : Date) (s s' : Store)
  (t x : RecurringExpense.t) : Prop :=
  x = t
  \/ (isDueExpense today t = true
      /\ sweptExpense today t = inr x
      /\ expensesOf (RecurringExpense.id t) (expense s')
         = (expensesOf (RecurringExpense.id t) (expense s)
            ++ (if endsBefore (RecurringExpense.endDate t) today then []
                else [generatedExpense t]))%list).

Definition incomeTurn (today : Date) (s s' : Store)
  (t x : RecurringIncome.t) : Prop :=
  x = t
  \/ (isDueIncome today t = true
      /\ sweptIncome today t = inr x
      /\ incomesOf (RecurringIncome.id t) (income s')
         = (incomesOf (RecurringIncome.id t) (income s)
            ++ (if endsBefore (RecurringIncome.endDate t) today then []
                else [generatedIncome t]))%list).

Definition uniqueIds (s : Store) : Prop :=
  NoDup (map RecurringExpense.id (recurringExpense s))
  /\ NoDup (map RecurringIncome.id (recurringIncome s)).

(** Every template carries one of the four frequencies. *)
Definition frequenciesValid (s : Store) : Prop :=
  (forall t, In t (recurringExpense s) ->
     includes validFrequencies (RecurringExpense.frequency t) = true)
  /\ (forall t, In t (recurringIncome s) ->
      includes validFrequencies (RecurringIncome.frequency t) = true).

(** ** Worlds the public operations lead to

    [reachableWith allowed w]: [w] is reached from the empty store by
    creating, updating and deleting templates and by sweeping, with
    any store call failing along the way; [allowed] restricts the
    [nextDate] field of the update bodies.  A created template gets
    an id not yet in its table, and the dates of a request are dates a
    [Date] object can hold. *)
Inductive reachableWith (allowed : option Date -> Prop) : World -> Prop :=
| reach_empty (fs : list bool) :
    reachableWith allowed (mkWorld (mkStore [] [] [] []) fs)
| reach_faults (w : World) (fs : list bool) :
    reachableWith allowed w -> reachableWith allowed (mkWorld (store w) fs)
| reach_createExpense (w : World) (newId userId : string)
    (body : ExpenseBody.t) :
    reachableWith allowed w ->
    ~ In newId (map RecurringExpense.id (recurringExpense (store w))) ->
    (forall d, ExpenseBody.startDate body = Some d -> valid d) ->
    reachableWith allowed (snd (createRecurringExpense newId userId body w))
| reach_updateExpense (w : World) (userId id : string)
    (updates : ExpenseUpdates.t) :
    reachableWith allowed w ->
    allowed (ExpenseUpdates.nextDate updates) ->
    reachableWith allowed (snd (updateRecurringExpense userId id updates w))
| reach_deleteExpense (w : World) (userId id : string) :
    reachableWith allowed w ->
    reachableWith allowed (snd (deleteRecurringExpense userId id w))
| reach_createIncome (w : World) (newId userId : string)
    (body : IncomeBody.t) :
    reachableWith allowed w ->
    ~ In newId (map RecurringIncome.id (recurringIncome (store w))) ->
    (forall d, IncomeBody.startDate body = Some d -> valid d) ->
    reachableWith allowed (snd (createRecurringIncome newId userId body w))
| reach_updateIncome (w : World) (userId id : string)
    (updates : IncomeUpdates.t) :
    reachableWith allowed w ->
    allowed (IncomeUpdates.nextDate updates) ->
    reachableWith allowed (snd (updateRecurringIncome userId id updates w))
| reach_deleteIncome (w : World) (userId id : string) :
    reachableWith allowed w ->
    reachableWith allowed (snd (deleteRecurringIncome userId id w))
| reach_process (w : World) (now : Date) :
    reachableWith allowed w ->
    reachableWith allowed (snd (processRecurringTransactions now w)).

(** Any update body. *)
Definition anyBody (nextDate : option Date) : Prop := True.

(** An update body of the documented shape: it has no [nextDate]. *)
Definition withoutNextDate (nextDate : option Date) : Prop := nextDate = None.

Definition expenseInOrder (r : RecurringExpense.t) : Prop :=
  valid (RecurringExpense.startDate r) /\ valid (RecurringExpense.nextDate r)
  /\ JsDate.le (RecurringExpense.startDate r) (RecurringExpense.nextDate r).

Definition incomeInOrder (r : RecurringIncome.t) : Prop :=
  valid (RecurringIncome.startDate r) /\ valid (RecurringIncome.nextDate r)
  /\ JsDate.le (RecurringIncome.startDate r) (RecurringIncome.nextDate r).

Definition templatesInOrder (s : Store) : Prop :=
  (forall r, In r (recurringExpense s) -> expenseInOrder r)
  /\ (forall r, In r (recurringIncome s) -> incomeInOrder r).

(** ** Listing the templates of a user

    [findMany({ where: { userId }, include: { _count: ... },
    orderBy: { nextDate: 'asc' } })]: the rows of the user, each with
    the number of generated records that point back to it, by
    ascending [nextDate].  Rows with equal [nextDate] keep the order of
    the table (the store leaves their order open). *)



Module Listing.
Record t (T : Type) : Type := mk
  { status : Z; success : bool; message : option string;
    data : list (T * nat) }.
Arguments mk {T} status success message data.
Arguments status {T} t.
Arguments success {T} t.
Arguments message {T} t.
Arguments data {T} t.
End Listing.







(** ** The scheduler's tick ([jobs/recurringScheduler.js])

    The tick posts to [/api/recurring/process], the route of
    [processRecurringTransactions], and writes to the console.  The
    request is delivered and answered, or refused before it reaches
    the server, or its answer is lost after the handler ran (the 30 s
    timeout).  [axios] resolves on a status from 200 to 299 and
    rejects otherwise, with the response when there is one. *)

Inductive Net : Type := Delivered | Refused | Lost.

Inductive LogLine : Type :=
| Running
| ProcessedSuccessfully
| ExpensesCreated (n : nat)
| IncomesCreated (n : nat)
| TotalProcessed (n : nat)
| ProcessingFailed (message : string)
| ErrorProcessing
| ResponseStatus (status : Z)
| ResponseData (response : Response.t).

Inductive AxiosResult : Type :=
| Resolved (response : Response.t)
| Rejected (response : option Response.t).

Definition axiosPostProcess (net : Net) (now : Date) (w : World)
  : AxiosResult * World :=
  match net with
  | Refused => (Rejected None, w)
  | Lost => (Rejected None, snd (processRecurringTransactions now w))
  | Delivered =>
      let (response, w') := processRecurringTransactions now w in
      if (200 <=? Response.status response)
         && (Response.status response <? 300)
      then (Resolved response, w')
      else (Rejected (Some response), w')
  end.

Definition schedulerTick (net : Net) (now : Date) (w : World)
  : list LogLine * World :=
  match axiosPostProcess net now w with
  | (Resolved response, w') =>
      if Response.success response then
        match Response.data response with
        | Processed expensesCreated incomesCreated totalProcessed =>
            ([Running; ProcessedSuccessfully;
              ExpensesCreated expensesCreated;
              IncomesCreated incomesCreated;
              TotalProcessed totalProcessed], w')
        | _ =>
            (* reading a count off a missing [data] throws into the catch *)
            ([Running; ProcessedSuccessfully; ErrorProcessing], w')
        end
      else ([Running; ProcessingFailed (Response.message response)], w')
  | (Rejected None, w') => ([Running; ErrorProcessing], w')
  | (Rejected (Some response), w') =>
      ([Running; ErrorProcessing; ResponseStatus (Response.status response);
        ResponseData response], w')
  end.

(** ** Pausing and resuming

    The update body that carries [isActive] alone, and what it makes
    of a template. *)

Definition onlyIsActive (b : bool) : ExpenseUpdates.t :=
  ExpenseUpdates.mk None None None None None None None None (Some b) None.

Definition withIsActive (b : bool) (r : RecurringExpense.t)
  : RecurringExpense.t :=
  RecurringExpense.mk (RecurringExpense.id r) (RecurringExpense.userId r)
    (RecurringExpense.amount r) (RecurringExpense.description r)
    (RecurringExpense.category r) (RecurringExpense.frequency r)
    (RecurringExpense.startDate r) (RecurringExpense.nextDate r)
    (RecurringExpense.endDate r) b.

(** What deleting template [k] makes of a generated record. *)
Definition detachExpense (k : string) (e : Expense.t) : Expense.t :=
  if sameId (Expense.recurringId e) k then
    Expense.mk (Expense.userId e) (Expense.amount e) (Expense.description e)
      (Expense.category e) (Expense.date e) (Expense.isRecurring e) None
  else e.

(** ** Sample data *)

Module Sample.

Definition rent : RecurringExpense.t :=
  RecurringExpense.mk "rent" "alice" (Qmake 1200 1) "Rent" "Housing" "monthly"
    (mkDate 2025 0 31 0) (mkDate 2025 0 31 0) None true.

Definition gym : RecurringExpense.t :=
  RecurringExpense.mk "gym" "alice" (Qmake 30 1) "Gym" "Health" "weekly"
    (mkDate 2025 1 3 0) (mkDate 2025 1 3 0) None true.

(** Its last occurrence falls on 10 March 2025. *)
Definition course : RecurringExpense.t :=
  RecurringExpense.mk "course" "bob" (Qmake 99 1) "Course" "Education"
    "monthly" (mkDate 2025 0 10 0) (mkDate 2025 2 10 0)
    (Some (mkDate 2025 2 10 0)) true.

Definition salary : RecurringIncome.t :=
  RecurringIncome.mk "salary" "alice" (Qmake 5000 1) "Salary" "monthly"
    (mkDate 2025 0 1 0) (mkDate 2025 1 1 0) None true.

Definition bonus : RecurringIncome.t :=
  RecurringIncome.mk "bonus" "bob" (Qmake 800 1) "Bonus" "yearly"
    (mkDate 2024 1 29 0) (mkDate 2024 1 29 0) None true.

Definition templates : Store :=
  mkStore [rent; gym; course] [] [salary; bonus] [].

Definition onlyRent : Store := mkStore [rent] [] [] [].

Definition empty : Store := mkStore [] [] [] [].

Definition rentBody : ExpenseBody.t :=
  ExpenseBody.mk (Some (Qmake 1200 1)) (Some "Rent") (Some "Housing")
    (Some "monthly") (Some (mkDate 2025 0 31 0)) None.

(** An update body that sets [nextDate] to 1 January 2020. *)
Definition backdate : ExpenseUpdates.t :=
  ExpenseUpdates.mk None None None None None None
    (Some (mkDate 2020 0 1 0)) None None None.

(** An update body with no field. *)
Definition noChange : ExpenseUpdates.t :=
  ExpenseUpdates.mk None None None None None None None None None None.

(** 1 February 2025, 08:00. *)
Definition feb1 : Date := mkDate 2025 1 1 28800000.

(** 10 March 2025, 09:30. *)
Definition mar10 : Date := mkDate 2025 2 10 34200000.

(** 15 June 2025, 10:00. *)
Definition jun15 : Date := mkDate 2025 5 15 36000000.

End Sample.

(** * Properties *)

(** ** Calendar arithmetic *)

Section Calendar.

Lemma daysInMonth_bounds (y m : Z) : 28 <= daysInMonth y m <= 31.
Proof.
  unfold daysInMonth.
  destruct (m =? 1); [destruct (isLeapYear y); lia|].
  destruct ((m =? 3) || (m =? 5) || (m =? 8) || (m =? 10)); lia.
Qed.

Lemma isLeap_isLeapYear (y : Z) : isLeap y = isLeapYear y.
Proof.
  unfold isLeap, isLeapYear.
  assert (R : forall n, 0 < n -> (Z.rem y n =? 0) = (y mod n =? 0)).
  { intros n Hn. apply eq_true_iff_eq. rewrite !Z.eqb_eq.
    rewrite Z.rem_divide, Z.mod_divide by lia. tauto. }
  rewrite !R by lia. reflexivity.
Qed.

Lemma leap_then_next_common (y : Z) :
  isLeapYear y = true -> isLeapYear (y + 1) = false.
Proof.
  unfold isLeapYear. intros H.
  assert (H4 : y mod 4 = 0).
  { apply orb_true_iff in H. destruct H as [H|H].
    - apply andb_true_iff in H. destruct H as [H _]. now apply Z.eqb_eq in H.
    - apply Z.eqb_eq in H. Z.div_mod_to_equations. lia. }
  assert (E4 : ((y + 1) mod 4 =? 0) = false).
  { apply Z.eqb_neq. Z.div_mod_to_equations. lia. }
  assert (E400 : ((y + 1) mod 400 =? 0) = false).
  { apply Z.eqb_neq. Z.div_mod_to_equations. lia. }
  rewrite E4, E400. reflexivity.
Qed.

Lemma rollDay_stay (k : nat) (y m d : Z) :
  1 <= d <= daysInMonth y m -> rollDay (S k) y m d = (y, m, d).
Proof.
  intros H. simpl.
  destruct (Z.ltb_spec d 1); [lia|].
  destruct (Z.ltb_spec (daysInMonth y m) d); [lia|]. reflexivity.
Qed.

Lemma rollDay_carry (k : nat) (y m d : Z) :
  daysInMonth y m < d ->
  rollDay (S k) y m d =
  rollDay k (fst (nextMonth y m)) (snd (nextMonth y m)) (d - daysInMonth y m).
Proof.
  intros H. pose proof (daysInMonth_bounds y m). simpl.
  destruct (Z.ltb_spec d 1); [lia|].
  destruct (Z.ltb_spec (daysInMonth y m) d); [|lia].
  destruct (nextMonth y m). reflexivity.
Qed.

Lemma rollDay_borrow (k : nat) (y m d : Z) :
  d < 1 ->
  rollDay (S k) y m d =
  rollDay k (fst (prevMonth y m)) (snd (prevMonth y m))
    (d + daysInMonth (fst (prevMonth y m)) (snd (prevMonth y m))).
Proof.
  intros H. simpl.
  destruct (Z.ltb_spec d 1); [|lia].
  destruct (prevMonth y m). reflexivity.
Qed.

Lemma nextMonth_range (y m : Z) :
  0 <= m <= 11 -> 0 <= snd (nextMonth y m) <= 11.
Proof.
  intros H. unfold nextMonth. destruct (Z.eqb_spec m 11); simpl; lia.
Qed.

Lemma prevMonth_nextMonth (y m : Z) :
  0 <= m <= 11 ->
  prevMonth (fst (nextMonth y m)) (snd (nextMonth y m)) = (y, m).
Proof.
  intros H. unfold nextMonth, prevMonth.
  destruct (Z.eqb_spec m 11); simpl.
  - subst. f_equal. lia.
  - destruct (Z.eqb_spec (m + 1) 0); [lia|]. f_equal. lia.
Qed.

(** [MakeDay] on a month already in range and a day at most one month
    past the end of it. *)
Lemma MakeDay_forward (y m d : Z) :
  0 <= m <= 11 -> 1 <= d <= daysInMonth y m + 28 ->
  MakeDay y m d =
  if d <=? daysInMonth y m then (y, m, d)
  else (fst (nextMonth y m), snd (nextMonth y m), d - daysInMonth y m).
Proof.
  intros Hm Hd. unfold MakeDay.
  rewrite Z.div_small, Z.mod_small, Z.add_0_r by lia.
  destruct (Z.leb_spec d (daysInMonth y m)).
  - apply rollDay_stay. lia.
  - rewrite rollDay_carry by lia.
    destruct (Z.abs_nat d) eqn:E; [lia|].
    apply rollDay_stay.
    pose proof (daysInMonth_bounds (fst (nextMonth y m)) (snd (nextMonth y m))).
    lia.
Qed.

(** [MakeDay] with the month one past the current one. *)
Lemma MakeDay_month_succ (y m d : Z) :
  0 <= m <= 11 ->
  MakeDay y (m + 1) d =
  MakeDay (fst (nextMonth y m)) (snd (nextMonth y m)) d.
Proof.
  intros Hm. unfold MakeDay, nextMonth.
  destruct (Z.eqb_spec m 11); cbn [fst snd].
  - subst. change ((11 + 1) / 12) with 1. change ((11 + 1) mod 12) with 0.
    change (0 / 12) with 0. change (0 mod 12) with 0.
    now rewrite Z.add_0_r.
  - reflexivity.
Qed.

(** [setDate(0)]: the last day of the previous month. *)
Lemma MakeDay_zero (y m : Z) :
  0 <= m <= 11 ->
  MakeDay y m 0 =
  (fst (prevMonth y m), snd (prevMonth y m),
   daysInMonth (fst (prevMonth y m)) (snd (prevMonth y m))).
Proof.
  intros Hm. unfold MakeDay.
  rewrite Z.div_small, Z.mod_small, Z.add_0_r by lia.
  simpl. destruct (prevMonth y m). reflexivity.
Qed.

(** [rollDay] has fuel enough: from a month in range it always ends on
    a day of the calendar. *)
Lemma rollDay_lands (fuel : nat) :
  forall y m d,
  0 <= m <= 11 ->
  (1 - 28 * Z.of_nat fuel <= d <= 28 * Z.of_nat fuel)
  \/ 1 <= d <= daysInMonth y m ->
  let '(y', m', d') := rollDay fuel y m d in
  0 <= m' <= 11 /\ 1 <= d' <= daysInMonth y' m'.
Proof.
  induction fuel as [|k IH]; intros y m d Hm Hd.
  - cbn [rollDay]. lia.
  - cbn [rollDay].
    pose proof (daysInMonth_bounds y m) as B.
    destruct (Z.ltb_spec d 1) as [Lo|Lo].
    + assert (Hp : 0 <= snd (prevMonth y m) <= 11).
      { unfold prevMonth. destruct (Z.eqb_spec m 0); cbn [snd]; lia. }
      destruct (prevMonth y m) as [y' m']. cbn [snd] in Hp.
      pose proof (daysInMonth_bounds y' m').
      apply IH; [assumption|]. lia.
    + destruct (Z.ltb_spec (daysInMonth y m) d) as [Hi|Hi]; [|lia].
      pose proof (nextMonth_range y m Hm) as Hn.
      destruct (nextMonth y m) as [y' m']. cbn [snd] in Hn.
      apply IH; [assumption|]. lia.
Qed.

(** [MakeDay] is total: whatever the arguments, the result is a day of
    the calendar. *)
Lemma MakeDay_lands (y m d : Z) :
  let '(y', m', d') := MakeDay y m d in
  0 <= m' <= 11 /\ 1 <= d' <= daysInMonth y' m'.
Proof.
  unfold MakeDay. apply rollDay_lands.
  - pose proof (Z.mod_pos_bound m 12). lia.
  - left. rewrite Nat2Z.inj_succ, Zabs2Nat.id_abs. lia.
Qed.

Lemma setDate_valid (d : Date) (n : Z) : valid d -> valid (setDate d n).
Proof.
  intros (_ & _ & Ht). unfold setDate.
  pose proof (MakeDay_lands (year d) (month d) n) as L.
  destruct (MakeDay (year d) (month d) n) as [[y' m'] d'].
  unfold valid. cbn [ofFields year month day time]. tauto.
Qed.

Lemma setMonth_valid (d : Date) (m : Z) : valid d -> valid (setMonth d m).
Proof.
  intros (_ & _ & Ht). unfold setMonth.
  pose proof (MakeDay_lands (year d) m (day d)) as L.
  destruct (MakeDay (year d) m (day d)) as [[y' m'] d'].
  unfold valid. cbn [ofFields year month day time]. tauto.
Qed.

Lemma setFullYear_valid (d : Date) (y : Z) : valid d -> valid (setFullYear d y).
Proof.
  intros (_ & _ & Ht). unfold setFullYear.
  pose proof (MakeDay_lands y (month d) (day d)) as L.
  destruct (MakeDay y (month d) (day d)) as [[y' m'] d'].
  unfold valid. cbn [ofFields year month day time]. tauto.
Qed.

End Calendar.

(** ** The order on dates *)

Ltac date_order :=
  unfold JsDate.lt, JsDate.le, JsDate.ltb, JsDate.leb, JsDate.compare in *;
  cbn [year month day time] in *;
  repeat match goal with
    | |- context [Z.compare ?a ?b] => destruct (Z.compare_spec a b)
    | H : context [Z.compare ?a ?b] |- _ => destruct (Z.compare_spec a b)
    end;
  try congruence; try lia.

Section DateOrder.

Lemma ltb_irrefl (a : Date) : JsDate.ltb a a = false.
Proof. date_order. Qed.

Lemma leb_refl (a : Date) : JsDate.leb a a = true.
Proof. date_order. Qed.

Lemma leb_negb_ltb (a b : Date) : JsDate.leb a b = negb (JsDate.ltb b a).
Proof. date_order. Qed.

Lemma lt_le_incl (a b : Date) : JsDate.lt a b -> JsDate.le a b.
Proof. date_order. Qed.

Lemma lt_trans (a b c : Date) : JsDate.lt a b -> JsDate.lt b c -> JsDate.lt a c.
Proof. date_order. Qed.

Lemma le_trans (a b c : Date) : JsDate.le a b -> JsDate.le b c -> JsDate.le a c.
Proof. date_order. Qed.

Lemma le_lt_trans (a b c : Date) :
  JsDate.le a b -> JsDate.lt b c -> JsDate.lt a c.
Proof. date_order. Qed.

Lemma lt_le_trans (a b c : Date) :
  JsDate.lt a b -> JsDate.le b c -> JsDate.lt a c.
Proof. date_order. Qed.

Lemma lt_not_le (a b : Date) : JsDate.lt a b -> JsDate.leb b a = false.
Proof. date_order. Qed.

Lemma lt_nextMonth (y m d t d' t' : Z) :
  0 <= m <= 11 ->
  JsDate.lt (mkDate y m d t)
    (mkDate (fst (nextMonth y m)) (snd (nextMonth y m)) d' t').
Proof.
  intros Hm. unfold nextMonth.
  destruct (Z.eqb_spec m 11); cbn [fst snd]; date_order.
Qed.

End DateOrder.

(** ** [calculateNextDate] by frequency *)

Section NextDate.

Variable d : Date.
Hypothesis Hd : valid d.

Lemma calculateNextDate_daily :
  calculateNextDate d "daily" =
  inr (if day d + 1 <=? daysInMonth (year d) (month d)
       then mkDate (year d) (month d) (day d + 1) (time d)
       else mkDate (fst (nextMonth (year d) (month d)))
              (snd (nextMonth (year d) (month d))) 1 (time d)).
Proof.
  destruct Hd as (Hm & Hday & _).
  pose proof (daysInMonth_bounds (year d) (month d)).
  unfold calculateNextDate. cbn [String.eqb Ascii.eqb Bool.eqb andb].
  unfold setDate, getDate. rewrite MakeDay_forward by lia.
  destruct (Z.leb_spec (day d + 1) (daysInMonth (year d) (month d)));
    cbn [ofFields]; repeat f_equal; lia.
Qed.

Lemma calculateNextDate_weekly :
  calculateNextDate d "weekly" =
  inr (if day d + 7 <=? daysInMonth (year d) (month d)
       then mkDate (year d) (month d) (day d + 7) (time d)
       else mkDate (fst (nextMonth (year d) (month d)))
              (snd (nextMonth (year d) (month d)))
              (day d + 7 - daysInMonth (year d) (month d)) (time d)).
Proof.
  destruct Hd as (Hm & Hday & _).
  pose proof (daysInMonth_bounds (year d) (month d)).
  unfold calculateNextDate. cbn [String.eqb Ascii.eqb Bool.eqb andb].
  unfold setDate, getDate. rewrite MakeDay_forward by lia.
  destruct (Z.leb_spec (day d + 7) (daysInMonth (year d) (month d)));
    reflexivity.
Qed.

Lemma calculateNextDate_monthly :
  calculateNextDate d "monthly" =
  inr (mkDate (fst (nextMonth (year d) (month d)))
         (snd (nextMonth (year d) (month d)))
         (Z.min (day d)
            (daysInMonth (fst (nextMonth (year d) (month d)))
               (snd (nextMonth (year d) (month d)))))
         (time d)).
Proof.
  destruct Hd as (Hm & Hday & _).
  pose proof (daysInMonth_bounds (year d) (month d)).
  pose proof (nextMonth_range (year d) (month d) Hm) as Hm'.
  set (y' := fst (nextMonth (year d) (month d))) in *.
  set (m' := snd (nextMonth (year d) (month d))) in *.
  pose proof (daysInMonth_bounds y' m').
  unfold calculateNextDate. cbn [String.eqb Ascii.eqb Bool.eqb andb].
  unfold setMonth, getMonth, getDate.
  rewrite MakeDay_month_succ by lia. fold y' m'.
  rewrite MakeDay_forward by lia.
  destruct (Z.leb_spec (day d) (daysInMonth y' m')).
  - cbn [ofFields day]. rewrite Z.eqb_refl. cbn [negb].
    rewrite Z.min_l by lia. reflexivity.
  - cbn [ofFields day].
    destruct (Z.eqb_spec (day d - daysInMonth y' m') (day d)); [lia|].
    cbn [negb]. unfold setDate. cbn [year month time].
    rewrite MakeDay_zero by (apply nextMonth_range; lia).
    rewrite prevMonth_nextMonth by lia. cbn [fst snd ofFields].
    rewrite Z.min_r by lia. reflexivity.
Qed.

Lemma calculateNextDate_yearly :
  calculateNextDate d "yearly" =
  inr (if (month d =? 1) && (day d =? 29) then
         mkDate (year d + 1) 2 1 (time d)
       else if (month d =? 2) && (day d =? 29)
               && negb (isLeapYear (year d + 1)) then
         mkDate (year d + 1) 2 28 (time d)
       else mkDate (year d + 1) (month d) (day d) (time d)).
Proof.
  destruct Hd as (Hm & Hday & _).
  pose proof (daysInMonth_bounds (year d) (month d)).
  pose proof (daysInMonth_bounds (year d + 1) (month d)).
  unfold calculateNextDate. cbn [String.eqb Ascii.eqb Bool.eqb andb].
  unfold setFullYear, getFullYear, getMonth, getDate.
  rewrite MakeDay_forward by lia. rewrite isLeap_isLeapYear.
  destruct (Z.eqb_spec (month d) 1) as [E1|N1]; cbn [andb].
  - (* February *)
    rewrite E1 in *.
    assert (F : daysInMonth (year d) 1
                = if isLeapYear (year d) then 29 else 28) by reflexivity.
    destruct (Z.eqb_spec (day d) 29) as [E29|N29].
    + destruct (isLeapYear (year d)) eqn:L; [|lia].
      assert (F' : daysInMonth (year d + 1) 1 = 28).
      { unfold daysInMonth. change (1 =? 1) with true. cbv iota.
        now rewrite (leap_then_next_common _ L). }
      rewrite F', E29. reflexivity.
    + assert (day d <= 28) by (destruct (isLeapYear (year d)); lia).
      destruct (Z.leb_spec (day d) (daysInMonth (year d + 1) 1)); [|lia].
      reflexivity.
  - (* any other month keeps its length *)
    assert (E : daysInMonth (year d + 1) (month d)
                = daysInMonth (year d) (month d)).
    { unfold daysInMonth. destruct (Z.eqb_spec (month d) 1); [lia|].
      reflexivity. }
    rewrite E. destruct (Z.leb_spec (day d) (daysInMonth (year d) (month d)));
      [|lia].
    cbn [ofFields year month day time].
    destruct (Z.eqb_spec (month d) 2) as [E2|N2]; cbn [andb]; [|reflexivity].
    destruct (Z.eqb_spec (day d) 29) as [E29|N29]; cbn [andb]; [|reflexivity].
    destruct (isLeapYear (year d + 1)); cbn [negb]; [reflexivity|].
    unfold setDate. cbn [year month time]. rewrite E2.
    rewrite MakeDay_forward;
      change (daysInMonth (year d + 1) 2) with 31; [reflexivity|lia|lia].
Qed.

End NextDate.

Section NextDateAdvances.

Lemma valid_nextMonth (y m dd t : Z) :
  0 <= m <= 11 -> 1 <= dd <= 28 -> 0 <= t < msPerDay ->
  valid (mkDate (fst (nextMonth y m)) (snd (nextMonth y m)) dd t).
Proof.
  intros Hm Hdd Ht.
  pose proof (nextMonth_range y m Hm).
  pose proof (daysInMonth_bounds (fst (nextMonth y m)) (snd (nextMonth y m))).
  unfold valid. cbn [year month day time]. lia.
Qed.

Lemma calculateNextDate_frequency (d : Date) (f : string) :
  includes validFrequencies f = false ->
  calculateNextDate d f = inl (InvalidFrequency f).
Proof.
  unfold includes, validFrequencies. cbn [existsb]. intros H.
  repeat (apply orb_false_iff in H; destruct H as [? H]).
  unfold calculateNextDate.
  repeat match goal with E : String.eqb _ _ = false |- _ => rewrite E; clear E end.
  reflexivity.
Qed.

Lemma calculateNextDate_returns (d : Date) (f : string) :
  includes validFrequencies f = true ->
  exists d', calculateNextDate d f = inr d'.
Proof.
  unfold includes, validFrequencies. cbn [existsb]. intros H.
  unfold calculateNextDate.
  destruct (String.eqb f "daily"); [eauto|].
  destruct (String.eqb f "weekly"); [eauto|].
  destruct (String.eqb f "monthly"); [eauto|].
  destruct (String.eqb f "yearly"); [eauto|].
  discriminate.
Qed.

Lemma calculateNextDate_advances (d d' : Date) (f : string) :
  valid d -> calculateNextDate d f = inr d' ->
  valid d' /\ JsDate.lt d d'.
Proof.
  intros Hd H.
  assert (Hf : f = "daily" \/ f = "weekly" \/ f = "monthly" \/ f = "yearly").
  { unfold calculateNextDate in H.
    destruct (String.eqb_spec f "daily"); [tauto|].
    destruct (String.eqb_spec f "weekly"); [tauto|].
    destruct (String.eqb_spec f "monthly"); [tauto|].
    destruct (String.eqb_spec f "yearly"); [tauto|]. discriminate. }
  pose proof Hd as (Hm & Hday & Ht).
  pose proof (daysInMonth_bounds (year d) (month d)) as B.
  destruct d as [y m dd t]. cbn [year month day time] in *.
  destruct Hf as [ -> | [ -> | [ -> | -> ] ] ].
  - rewrite (calculateNextDate_daily _ Hd) in H. cbn [year month day time] in H.
    injection H as <-.
    destruct (Z.leb_spec (dd + 1) (daysInMonth y m)).
    + split; [unfold valid; cbn [year month day time]; lia | date_order].
    + split; [apply valid_nextMonth; lia | apply lt_nextMonth; lia].
  - rewrite (calculateNextDate_weekly _ Hd) in H. cbn [year month day time] in H.
    injection H as <-.
    destruct (Z.leb_spec (dd + 7) (daysInMonth y m)).
    + split; [unfold valid; cbn [year month day time]; lia | date_order].
    + split; [apply valid_nextMonth; lia | apply lt_nextMonth; lia].
  - rewrite (calculateNextDate_monthly _ Hd) in H.
    cbn [year month day time] in H. injection H as <-.
    pose proof (nextMonth_range y m Hm).
    pose proof (daysInMonth_bounds (fst (nextMonth y m)) (snd (nextMonth y m))).
    split; [|apply lt_nextMonth; lia].
    unfold valid. cbn [year month day time]. lia.
  - rewrite (calculateNextDate_yearly _ Hd) in H.
    cbn [year month day time] in H. injection H as <-.
    destruct ((m =? 1) && (dd =? 29)) eqn:C.
    { split; [|date_order]. unfold valid. cbn [year month day time].
      change (daysInMonth (y + 1) 2) with 31. lia. }
    destruct ((m =? 2) && (dd =? 29) && negb (isLeapYear (y + 1))).
    { split; [|date_order]. unfold valid. cbn [year month day time].
      change (daysInMonth (y + 1) 2) with 31. lia. }
    split; [|date_order]. unfold valid. cbn [year month day time].
    split; [lia|]. split; [|lia].
    unfold daysInMonth in *. destruct (Z.eqb_spec m 1) as [E|N]; [|lia].
    cbn [andb] in C. apply Z.eqb_neq in C.
    destruct (isLeapYear y), (isLeapYear (y + 1)); lia.
Qed.

End NextDateAdvances.

(** ** Claims about [calculateNextDate] *)

(** [MakeDay] on a month in range and a day that overshoots it by less
    than the length of the following month. *)
Lemma MakeDay_overshoot (y m d : Z) :
  0 <= m <= 11 ->
  1 <= d <=
    daysInMonth y m + daysInMonth (fst (nextMonth y m)) (snd (nextMonth y m)) ->
  MakeDay y m d =
  if d <=? daysInMonth y m then (y, m, d)
  else (fst (nextMonth y m), snd (nextMonth y m), d - daysInMonth y m).
Proof.
  intros Hm Hd. unfold MakeDay.
  rewrite Z.div_small, Z.mod_small, Z.add_0_r by lia.
  destruct (Z.leb_spec d (daysInMonth y m)).
  - apply rollDay_stay. lia.
  - rewrite rollDay_carry by lia.
    destruct (Z.abs_nat d) eqn:E; [lia|].
    apply rollDay_stay. lia.
Qed.

Lemma two_months_bound (y m : Z) :
  0 <= m <= 11 ->
  59 <= daysInMonth y m
        + daysInMonth (fst (nextMonth y m)) (snd (nextMonth y m)).
Proof.
  intros Hm.
  assert (C : m = 0 \/ m = 1 \/ m = 2 \/ m = 3 \/ m = 4 \/ m = 5 \/ m = 6
              \/ m = 7 \/ m = 8 \/ m = 9 \/ m = 10 \/ m = 11) by lia.
  unfold daysInMonth, nextMonth.
  repeat (destruct C as [-> | C]; [cbn; destruct (isLeapYear y); lia|]).
  subst. cbn. lia.
Qed.

(** C1 (defect of the code): for Feb 29 of any leap year,
    [calculateNextDate] with "yearly" returns March 1 of the following
    year, where the claim asks for Feb 28 of that (never leap)
    year. *)
Theorem calculateNextDate_yearly_feb29 (y t : Z) :
  isLeapYear y = true -> 0 <= t < msPerDay ->
  calculateNextDate (mkDate y 1 29 t) "yearly" = inr (mkDate (y + 1) 2 1 t)
  /\ isLeapYear (y + 1) = false.
Proof.
  intros L Ht. split; [|now apply leap_then_next_common].
  rewrite calculateNextDate_yearly; [reflexivity|].
  unfold valid, daysInMonth. cbn [year month day time].
  change (1 =? 1) with true. cbv iota. rewrite L. lia.
Qed.

Lemma calculateNextDate_yearly_feb29_witness :
  isLeapYear 2024 = true /\ 0 <= 0 < msPerDay /\
  calculateNextDate (mkDate 2024 1 29 0) "yearly" = inr (mkDate 2025 2 1 0).
Proof.
  split; [reflexivity|]. split; [unfold msPerDay; lia|].
  apply (calculateNextDate_yearly_feb29 2024 0); [reflexivity|].
  unfold msPerDay; lia.
Defined.

(** C4: for every valid date, [calculateNextDate] with "monthly" is the
    same day of the month in the next calendar month when that day
    exists there, and the last day of that month otherwise; on a day
    up to the 28th of a month that does not have 30 days it differs
    from adding 30 days. *)
Theorem calculateNextDate_monthly_clamp (d : Date) :
  valid d ->
  let y' := fst (nextMonth (year d) (month d)) in
  let m' := snd (nextMonth (year d) (month d)) in
  (day d <= daysInMonth y' m' ->
   calculateNextDate d "monthly" = inr (mkDate y' m' (day d) (time d)))
  /\ (daysInMonth y' m' < day d ->
      calculateNextDate d "monthly"
      = inr (mkDate y' m' (daysInMonth y' m') (time d)))
  /\ (day d <= 28 -> daysInMonth (year d) (month d) <> 30 ->
      calculateNextDate d "monthly" <> inr (setDate d (getDate d + 30))).
Proof.
  intros Hd y' m'. rewrite (calculateNextDate_monthly d Hd). fold y' m'.
  split; [|split].
  - intros H. now rewrite Z.min_l by lia.
  - intros H. now rewrite Z.min_r by lia.
  - intros H28 H30 E. destruct Hd as (Hm & Hday & _).
    pose proof (daysInMonth_bounds y' m').
    pose proof (two_months_bound (year d) (month d) Hm).
    unfold setDate, getDate in E. rewrite MakeDay_overshoot in E by lia.
    pose proof (f_equal (fun r => match r with
                                  | inr x => month x | inl _ => 0 end) E) as Em.
    pose proof (f_equal (fun r => match r with
                                  | inr x => day x | inl _ => 0 end) E) as Ed.
    destruct (Z.leb_spec (day d + 30) (daysInMonth (year d) (month d)));
      cbn [ofFields month day] in Em, Ed.
    + unfold m', nextMonth in Em.
      destruct (Z.eqb_spec (month d) 11); cbn [snd] in Em; lia.
    + lia.
Qed.

Lemma calculateNextDate_monthly_clamp_witness :
  calculateNextDate (mkDate 2025 0 31 0) "monthly" = inr (mkDate 2025 1 28 0).
Proof.
  refine (proj1 (proj2 (calculateNextDate_monthly_clamp
                          (mkDate 2025 0 31 0) _)) _).
  - unfold valid, msPerDay. cbn. lia.
  - cbn. lia.
Defined.

(** C9, as stated, fails: April 30 is the last day of its month and
    maps to May 30, which is not the last day of May. *)
Lemma monthly_last_day_counterexample :
  ~ (forall d : Date, valid d -> lastDayOfMonth d ->
     exists d', calculateNextDate d "monthly" = inr d' /\ lastDayOfMonth d').
Proof.
  intros H.
  destruct (H (mkDate 2025 3 30 0)) as (d' & E & L).
  - unfold valid, msPerDay. cbn. lia.
  - reflexivity.
  - injection E as <-. discriminate L.
Qed.

(** C9 (amended): for every date that is the last day of its month,
    [calculateNextDate] with "monthly" falls in the following month, on
    the day numbered like the shorter of the two months; it is the
    last day of the following month exactly when that month is not
    longer than the month of the date. *)
Theorem calculateNextDate_monthly_last_day (d : Date) :
  valid d -> lastDayOfMonth d ->
  exists d',
    calculateNextDate d "monthly" = inr d'
    /\ (year d', month d') = nextMonth (year d) (month d)
    /\ day d' = Z.min (daysInMonth (year d) (month d))
                  (daysInMonth (year d') (month d'))
    /\ (lastDayOfMonth d' <->
        daysInMonth (year d') (month d') <= daysInMonth (year d) (month d)).
Proof.
  intros Hd L. eexists. split; [apply (calculateNextDate_monthly d Hd)|].
  unfold lastDayOfMonth in *. cbn [year month day].
  split; [now destruct (nextMonth (year d) (month d))|].
  rewrite L. split; [reflexivity|]. lia.
Qed.

Lemma calculateNextDate_monthly_last_day_witness :
  exists d',
    calculateNextDate (mkDate 2025 0 31 0) "monthly" = inr d'
    /\ (year d', month d') = nextMonth 2025 0
    /\ day d' = Z.min (daysInMonth 2025 0) (daysInMonth (year d') (month d'))
    /\ (lastDayOfMonth d' <->
        daysInMonth (year d') (month d') <= daysInMonth 2025 0).
Proof.
  apply (calculateNextDate_monthly_last_day (mkDate 2025 0 31 0)).
  - unfold valid, msPerDay. cbn. lia.
  - reflexivity.
Defined.

(** ** Rows and keys *)

Section Rows.

Context {T : Type} (key : T -> string).

Lemma find_key_some (k : string) (rows : list T) (r : T) :
  find (fun r => String.eqb (key r) k) rows = Some r ->
  In r rows /\ key r = k.
Proof.
  intros H. apply find_some in H. destruct H as [H1 H2].
  split; [assumption|]. now apply String.eqb_eq.
Qed.

Lemma find_key_in (k : string) (rows : list T) (t : T) :
  In t rows -> key t = k ->
  exists r, find (fun r => String.eqb (key r) k) rows = Some r.
Proof.
  intros Hin Hk.
  destruct (find (fun r => String.eqb (key r) k) rows) eqn:E; [eauto|].
  apply (find_none _ _ E) in Hin. rewrite Hk, String.eqb_refl in Hin.
  discriminate.
Qed.

Lemma key_unique (rows : list T) (a b : T) :
  NoDup (map key rows) -> In a rows -> In b rows -> key a = key b -> a = b.
Proof.
  induction rows as [|r rows IH]; cbn [map]; intros ND Ha Hb E; [contradiction|].
  inversion ND as [|? ? Hnot ND']; subst.
  destruct Ha as [<-|Ha], Hb as [<-|Hb]; auto.
  - exfalso. apply Hnot. rewrite E. now apply in_map.
  - exfalso. apply Hnot. rewrite <- E. now apply in_map.
Qed.

Variable k : string.
Variable f : T -> T.
Hypothesis f_key : forall r, key (f r) = key r.

Lemma rewriteRows_keys (rows : list T) :
  map key (rewriteRows key k f rows) = map key rows.
Proof.
  unfold rewriteRows. rewrite map_map. apply map_ext. intros r.
  destruct (String.eqb (key r) k); auto.
Qed.

Lemma rewriteRows_in (rows : list T) (x : T) :
  In x (rewriteRows key k f rows) ->
  (In x rows /\ key x <> k) \/ exists r, In r rows /\ key r = k /\ x = f r.
Proof.
  unfold rewriteRows. rewrite in_map_iff. intros (r & E & Hin).
  destruct (String.eqb_spec (key r) k); subst; eauto.
Qed.

Lemma rewriteRows_other (rows : list T) (t : T) :
  In t rows -> key t <> k -> In t (rewriteRows key k f rows).
Proof.
  intros Hin Hk. unfold rewriteRows. apply in_map_iff. exists t.
  destruct (String.eqb_spec (key t) k); [contradiction|auto].
Qed.

Lemma rewriteRows_hit (rows : list T) (t : T) :
  In t rows -> key t = k -> In (f t) (rewriteRows key k f rows).
Proof.
  intros Hin Hk. unfold rewriteRows. apply in_map_iff. exists t.
  rewrite Hk, String.eqb_refl. auto.
Qed.

End Rows.

(** ** The loop [forOf] *)

Section ForOf.

Context {T S : Type} (body : T -> S -> Async S).

Lemma forOf_app (xs ys : list T) (s : S) (w : World) :
  forOf body (xs ++ ys) s w =
  match forOf body xs s w with
  | Returned s' w' => forOf body ys s' w'
  | Thrown e w' => Thrown e w'
  end.
Proof.
  revert s w. induction xs as [|x xs IH]; intros s w; cbn [app forOf].
  - reflexivity.
  - unfold bind. destruct (body x s w); [apply IH|reflexivity].
Qed.

(** A throw in the body leaves the loop at once: the items after it
    are not visited and the world is the one at the throw. *)
Lemma forOf_throw (xs ys : list T) (x : T) (s s' : S) (w w' w'' : World)
  (e : Error) :
  forOf body xs s w = Returned s' w' ->
  body x s' w' = Thrown e w'' ->
  forOf body (xs ++ x :: ys) s w = Thrown e w''.
Proof.
  intros H1 H2. rewrite forOf_app, H1. cbn [forOf]. unfold bind.
  now rewrite H2.
Qed.

End ForOf.

(** ** One turn of the sweep loop *)

Section LoopBody.

Variable today : Date.

(** The four ways a turn of the expense loop can end: a throw before
    any write; the expired template deactivated; a throw after the
    record was created; record created and template advanced. *)
Lemma dueExpenseBody_cases (t : RecurringExpense.t) (n : nat) (w : World) :
  let s := store w in
  let k := RecurringExpense.id t in
  (exists e fs, dueExpenseBody today t n w = Thrown e (mkWorld s fs))
  \/ (exists fs,
        endsBefore (RecurringExpense.endDate t) today = true
        /\ dueExpenseBody today t n w =
           Returned n
             (mkWorld
                (setRecurringExpense
                   (rewriteRows RecurringExpense.id k deactivateExpense
                      (recurringExpense s)) s) fs))
  \/ (exists e fs,
        endsBefore (RecurringExpense.endDate t) today = false
        /\ dueExpenseBody today t n w =
           Thrown e
             (mkWorld (setExpense (expense s ++ [generatedExpense t]) s) fs))
  \/ (exists nd fs,
        endsBefore (RecurringExpense.endDate t) today = false
        /\ calculateNextDate (RecurringExpense.nextDate t)
             (RecurringExpense.frequency t) = inr nd
        /\ dueExpenseBody today t n w =
           Returned (S n)
             (mkWorld
                (setRecurringExpense
                   (rewriteRows RecurringExpense.id k
                      (advanceExpense nd
                         (negb (endsBefore (RecurringExpense.endDate t) nd)))
                      (recurringExpense s))
                   (setExpense (expense s ++ [generatedExpense t]) s)) fs)).
Proof.
  destruct w as [s fs]. cbn [store]. unfold dueExpenseBody.
  destruct (endsBefore (RecurringExpense.endDate t) today) eqn:X;
    [|destruct (calculateNextDate (RecurringExpense.nextDate t)
                  (RecurringExpense.frequency t)) as [e|nd] eqn:C];
    destruct fs as [|[] [|[] fs]];
    cbv beta iota zeta delta
      [bind ret throw lift prismaCall prisma.expense.create
         prisma.recurringExpense.update updateWhere store faults tl];
    change (recurringExpense (setExpense (expense s ++ [generatedExpense t]) s))
      with (recurringExpense s);
    repeat match goal with
      | |- context [find ?p ?l] => destruct (find p l)
      end;
    first
      [ solve [left; do 2 eexists; reflexivity]
      | solve [right; left; eexists; split; reflexivity]
      | solve [right; right; left; do 2 eexists; split; reflexivity]
      | solve [right; right; right; do 2 eexists;
               split; [reflexivity|split; reflexivity]] ].
Qed.

End LoopBody.

(** ** The expense loop as a whole *)

Section ExpenseLoop.

Variable today : Date.

Local Abbreviation key := RecurringExpense.id.
Local Abbreviation live t :=
  (negb (endsBefore (RecurringExpense.endDate t) today)).

Lemma deactivateExpense_key (r : RecurringExpense.t) :
  key (deactivateExpense r) = key r.
Proof. reflexivity. Qed.

Lemma advanceExpense_key (nd : Date) (b : bool) (r : RecurringExpense.t) :
  key (advanceExpense nd b r) = key r.
Proof. reflexivity. Qed.

Lemma forOf_dueExpense (due : list RecurringExpense.t) :
  forall (n : nat) (w : World),
  NoDup (map key due) ->
  NoDup (map key (recurringExpense (store w))) ->
  (forall t, In t due -> In t (recurringExpense (store w))) ->
  let o := forOf (dueExpenseBody today) due n w in
  let s := store w in
  let s' := store (worldOf o) in
  exists done,
    expense s' = (expense s ++ map generatedExpense done)%list
    /\ (forall t, In t done -> In t due /\ live t = true)
    /\ NoDup (map key done)
    /\ map key (recurringExpense s') = map key (recurringExpense s)
    /\ (forall x, In x (recurringExpense s') ->
        In x (recurringExpense s)
        \/ exists t, In t due /\ sweptExpense today t = inr x)
    /\ (forall t, In t (recurringExpense s) -> ~ In (key t) (map key due) ->
        In t (recurringExpense s'))
    /\ recurringIncome s' = recurringIncome s
    /\ income s' = income s
    /\ (forall n' w', o = Returned n' w' ->
        n' = (n + List.length done)%nat
        /\ done = filter (fun t => live t) due
        /\ forall t, In t due ->
           exists x, sweptExpense today t = inr x
                     /\ In x (recurringExpense s')).
Proof.
  induction due as [|t rest IH]; intros n w NDd NDt Hin; cbn zeta.
  - exists []. cbn [forOf ret worldOf map List.length filter].
    rewrite app_nil_r.
    split; [reflexivity|]. split; [intros ? []|]. split; [constructor|].
    split; [reflexivity|]. split; [auto|]. split; [auto|].
    split; [reflexivity|]. split; [reflexivity|].
    intros n' w' H. injection H as <- _.
    split; [lia|]. split; [reflexivity|]. intros ? [].
  - cbn [map] in NDd. inversion NDd as [|? ? Hnot NDrest]; subst.
    assert (Ht : In t (recurringExpense (store w))) by (apply Hin; now left).
    assert (Hrest : forall t', In t' rest -> key t' <> key t).
    { intros t' Ht' E. apply Hnot. rewrite <- E. now apply in_map. }
    cbn [forOf]. unfold bind.
    destruct (dueExpenseBody_cases today t n w)
      as [(e & fs & E)|[(fs & X & E)|[(e & fs & X & E)|(nd & fs & X & C & E)]]];
      rewrite E; clear E.
    + (* thrown before any write *)
      exists []. cbn [worldOf store map]. rewrite app_nil_r.
      split; [reflexivity|]. split; [intros ? []|]. split; [constructor|].
      split; [reflexivity|]. split; [auto|]. split; [auto|].
      split; [reflexivity|]. split; [reflexivity|]. discriminate.
    + (* deactivated *)
      set (w1 := mkWorld _ fs).
      assert (S1 : sweptExpense today t = inr (deactivateExpense t)).
      { unfold sweptExpense. now rewrite X. }
      assert (A1 : NoDup (map key (recurringExpense (store w1)))).
      { cbn [w1 store setRecurringExpense recurringExpense].
        now rewrite rewriteRows_keys. }
      assert (A2 : forall t', In t' rest -> In t' (recurringExpense (store w1))).
      { intros t' Ht'. cbn [w1 store setRecurringExpense recurringExpense].
        apply rewriteRows_other; [apply Hin; now right|now apply Hrest]. }
      destruct (IH n w1 NDrest A1 A2)
        as (done & P1 & P2 & P3 & P4 & P5 & P6 & P7 & P8 & P9).
      cbn [w1 store setRecurringExpense recurringExpense expense
             recurringIncome income] in P1, P4, P5, P6, P7, P8.
      rewrite rewriteRows_keys in P4 by reflexivity.
      exists done.
      split; [assumption|].
      split; [intros t' Ht'; destruct (P2 t' Ht'); split; [now right|assumption]|].
      split; [assumption|]. split; [assumption|].
      split.
      { intros x Hx. destruct (P5 x Hx) as [Hx'|(t' & Ht' & St')].
        - apply rewriteRows_in in Hx'.
          destruct Hx' as [[Hx' _]|(r & Hr & Kr & ->)]; [now left|].
          right. exists t. split; [now left|].
          now rewrite (key_unique key _ r t NDt Hr Ht Kr).
        - right. exists t'. split; [now right|assumption]. }
      split.
      { intros t' Ht' Hk. apply P6.
        - apply rewriteRows_other; auto. intros E. apply Hk. left. now rewrite E.
        - intros Hk'. apply Hk. now right. }
      split; [assumption|]. split; [assumption|].
      intros n' w' H. destruct (P9 n' w' H) as (Q1 & Q2 & Q3).
      split; [assumption|].
      split; [cbn [filter]; rewrite X; exact Q2|].
      intros t' [<-|Ht']; [|now apply Q3].
      exists (deactivateExpense t). split; [assumption|].
      apply P6; [|exact Hnot].
      cbn [w1 store setRecurringExpense recurringExpense].
      apply rewriteRows_hit; auto.
    + (* thrown after the record was created *)
      exists [t]. cbn [worldOf store map setExpense expense recurringExpense
                        recurringIncome income].
      split; [reflexivity|].
      split; [intros ? [<-|[]]; split; [now left|now rewrite X]|].
      split; [constructor; [intros []|constructor]|].
      split; [reflexivity|]. split; [auto|]. split; [auto|].
      split; [reflexivity|]. split; [reflexivity|]. discriminate.
    + (* created and advanced *)
      set (w1 := mkWorld _ fs).
      set (f := advanceExpense nd
                  (negb (endsBefore (RecurringExpense.endDate t) nd))) in *.
      assert (S1 : sweptExpense today t = inr (f t)).
      { unfold sweptExpense. now rewrite X, C. }
      assert (A1 : NoDup (map key (recurringExpense (store w1)))).
      { cbn [w1 store setRecurringExpense recurringExpense].
        now rewrite rewriteRows_keys. }
      assert (A2 : forall t', In t' rest -> In t' (recurringExpense (store w1))).
      { intros t' Ht'. cbn [w1 store setRecurringExpense recurringExpense].
        apply rewriteRows_other; [apply Hin; now right|now apply Hrest]. }
      destruct (IH (S n) w1 NDrest A1 A2)
        as (done & P1 & P2 & P3 & P4 & P5 & P6 & P7 & P8 & P9).
      cbn [w1 store setRecurringExpense setExpense recurringExpense expense
             recurringIncome income] in P1, P4, P5, P6, P7, P8.
      rewrite rewriteRows_keys in P4 by reflexivity.
      exists (t :: done). cbn [map List.length].
      split; [now rewrite P1, <- app_assoc|].
      split.
      { intros t' [<-|Ht']; [split; [now left|now rewrite X]|].
        destruct (P2 t' Ht'). split; [now right|assumption]. }
      split.
      { constructor; [|assumption]. intros Hk. apply in_map_iff in Hk.
        destruct Hk as (t' & Kt' & Ht'). apply P2 in Ht'.
        now apply (Hrest t' (proj1 Ht')). }
      split; [assumption|].
      split.
      { intros x Hx. destruct (P5 x Hx) as [Hx'|(t' & Ht' & St')].
        - apply rewriteRows_in in Hx'.
          destruct Hx' as [[Hx' _]|(r & Hr & Kr & ->)]; [now left|].
          right. exists t. split; [now left|].
          now rewrite (key_unique key _ r t NDt Hr Ht Kr).
        - right. exists t'. split; [now right|assumption]. }
      split.
      { intros t' Ht' Hk. apply P6.
        - apply rewriteRows_other; auto. intros E. apply Hk. left. now rewrite E.
        - intros Hk'. apply Hk. now right. }
      split; [assumption|]. split; [assumption|].
      intros n' w' H. destruct (P9 n' w' H) as (Q1 & Q2 & Q3).
      split; [lia|].
      split; [cbn [filter]; rewrite X; cbn [negb]; now rewrite Q2|].
      intros t' [<-|Ht']; [|now apply Q3].
      exists (f t). split; [assumption|].
      apply P6; [|exact Hnot].
      cbn [w1 store setRecurringExpense recurringExpense].
      apply rewriteRows_hit; auto.
Qed.

End ExpenseLoop.

(** ** The same for the income loop *)

Section IncomeLoopBody.

Variable today : Date.

(** The four ways a turn of the income loop can end: a throw before
    any write; the expired template deactivated; a throw after the
    record was created; record created and template advanced. *)
Lemma dueIncomeBody_cases (t : RecurringIncome.t) (n : nat) (w : World) :
  let s := store w in
  let k := RecurringIncome.id t in
  (exists e fs, dueIncomeBody today t n w = Thrown e (mkWorld s fs))
  \/ (exists fs,
        endsBefore (RecurringIncome.endDate t) today = true
        /\ dueIncomeBody today t n w =
           Returned n
             (mkWorld
                (setRecurringIncome
                   (rewriteRows RecurringIncome.id k deactivateIncome
                      (recurringIncome s)) s) fs))
  \/ (exists e fs,
        endsBefore (RecurringIncome.endDate t) today = false
        /\ dueIncomeBody today t n w =
           Thrown e
             (mkWorld (setIncome (income s ++ [generatedIncome t]) s) fs))
  \/ (exists nd fs,
        endsBefore (RecurringIncome.endDate t) today = false
        /\ calculateNextDate (RecurringIncome.nextDate t)
             (RecurringIncome.frequency t) = inr nd
        /\ dueIncomeBody today t n w =
           Returned (S n)
             (mkWorld
                (setRecurringIncome
                   (rewriteRows RecurringIncome.id k
                      (advanceIncome nd
                         (negb (endsBefore (RecurringIncome.endDate t) nd)))
                      (recurringIncome s))
                   (setIncome (income s ++ [generatedIncome t]) s)) fs)).
Proof.
  destruct w as [s fs]. cbn [store]. unfold dueIncomeBody.
  destruct (endsBefore (RecurringIncome.endDate t) today) eqn:X;
    [|destruct (calculateNextDate (RecurringIncome.nextDate t)
                  (RecurringIncome.frequency t)) as [e|nd] eqn:C];
    destruct fs as [|[] [|[] fs]];
    cbv beta iota zeta delta
      [bind ret throw lift prismaCall prisma.income.create
         prisma.recurringIncome.update updateWhere store faults tl];
    change (recurringIncome (setIncome (income s ++ [generatedIncome t]) s))
      with (recurringIncome s);
    repeat match goal with
      | |- context [find ?p ?l] => destruct (find p l)
      end;
    first
      [ solve [left; do 2 eexists; reflexivity]
      | solve [right; left; eexists; split; reflexivity]
      | solve [right; right; left; do 2 eexists; split; reflexivity]
      | solve [right; right; right; do 2 eexists;
               split; [reflexivity|split; reflexivity]] ].
Qed.

End IncomeLoopBody.


Section IncomeLoop.

Variable today : Date.

Local Abbreviation key := RecurringIncome.id.
Local Abbreviation live t :=
  (negb (endsBefore (RecurringIncome.endDate t) today)).

Lemma deactivateIncome_key (r : RecurringIncome.t) :
  key (deactivateIncome r) = key r.
Proof. reflexivity. Qed.

Lemma advanceIncome_key (nd : Date) (b : bool) (r : RecurringIncome.t) :
  key (advanceIncome nd b r) = key r.
Proof. reflexivity. Qed.

Lemma forOf_dueIncome (due : list RecurringIncome.t) :
  forall (n : nat) (w : World),
  NoDup (map key due) ->
  NoDup (map key (recurringIncome (store w))) ->
  (forall t, In t due -> In t (recurringIncome (store w))) ->
  let o := forOf (dueIncomeBody today) due n w in
  let s := store w in
  let s' := store (worldOf o) in
  exists done,
    income s' = (income s ++ map generatedIncome done)%list
    /\ (forall t, In t done -> In t due /\ live t = true)
    /\ NoDup (map key done)
    /\ map key (recurringIncome s') = map key (recurringIncome s)
    /\ (forall x, In x (recurringIncome s') ->
        In x (recurringIncome s)
        \/ exists t, In t due /\ sweptIncome today t = inr x)
    /\ (forall t, In t (recurringIncome s) -> ~ In (key t) (map key due) ->
        In t (recurringIncome s'))
    /\ recurringExpense s' = recurringExpense s
    /\ expense s' = expense s
    /\ (forall n' w', o = Returned n' w' ->
        n' = (n + List.length done)%nat
        /\ done = filter (fun t => live t) due
        /\ forall t, In t due ->
           exists x, sweptIncome today t = inr x
                     /\ In x (recurringIncome s')).
Proof.
  induction due as [|t rest IH]; intros n w NDd NDt Hin; cbn zeta.
  - exists []. cbn [forOf ret worldOf map List.length filter].
    rewrite app_nil_r.
    split; [reflexivity|]. split; [intros ? []|]. split; [constructor|].
    split; [reflexivity|]. split; [auto|]. split; [auto|].
    split; [reflexivity|]. split; [reflexivity|].
    intros n' w' H. injection H as <- _.
    split; [lia|]. split; [reflexivity|]. intros ? [].
  - cbn [map] in NDd. inversion NDd as [|? ? Hnot NDrest]; subst.
    assert (Ht : In t (recurringIncome (store w))) by (apply Hin; now left).
    assert (Hrest : forall t', In t' rest -> key t' <> key t).
    { intros t' Ht' E. apply Hnot. rewrite <- E. now apply in_map. }
    cbn [forOf]. unfold bind.
    destruct (dueIncomeBody_cases today t n w)
      as [(e & fs & E)|[(fs & X & E)|[(e & fs & X & E)|(nd & fs & X & C & E)]]];
      rewrite E; clear E.
    + (* thrown before any write *)
      exists []. cbn [worldOf store map]. rewrite app_nil_r.
      split; [reflexivity|]. split; [intros ? []|]. split; [constructor|].
      split; [reflexivity|]. split; [auto|]. split; [auto|].
      split; [reflexivity|]. split; [reflexivity|]. discriminate.
    + (* deactivated *)
      set (w1 := mkWorld _ fs).
      assert (S1 : sweptIncome today t = inr (deactivateIncome t)).
      { unfold sweptIncome. now rewrite X. }
      assert (A1 : NoDup (map key (recurringIncome (store w1)))).
      { cbn [w1 store setRecurringIncome recurringIncome].
        now rewrite rewriteRows_keys. }
      assert (A2 : forall t', In t' rest -> In t' (recurringIncome (store w1))).
      { intros t' Ht'. cbn [w1 store setRecurringIncome recurringIncome].
        apply rewriteRows_other; [apply Hin; now right|now apply Hrest]. }
      destruct (IH n w1 NDrest A1 A2)
        as (done & P1 & P2 & P3 & P4 & P5 & P6 & P7 & P8 & P9).
      cbn [w1 store setRecurringIncome recurringIncome income
             recurringExpense expense] in P1, P4, P5, P6, P7, P8.
      rewrite rewriteRows_keys in P4 by reflexivity.
      exists done.
      split; [assumption|].
      split; [intros t' Ht'; destruct (P2 t' Ht'); split; [now right|assumption]|].
      split; [assumption|]. split; [assumption|].
      split.
      { intros x Hx. destruct (P5 x Hx) as [Hx'|(t' & Ht' & St')].
        - apply rewriteRows_in in Hx'.
          destruct Hx' as [[Hx' _]|(r & Hr & Kr & ->)]; [now left|].
          right. exists t. split; [now left|].
          now rewrite (key_unique key _ r t NDt Hr Ht Kr).
        - right. exists t'. split; [now right|assumption]. }
      split.
      { intros t' Ht' Hk. apply P6.
        - apply rewriteRows_other; auto. intros E. apply Hk. left. now rewrite E.
        - intros Hk'. apply Hk. now right. }
      split; [assumption|]. split; [assumption|].
      intros n' w' H. destruct (P9 n' w' H) as (Q1 & Q2 & Q3).
      split; [assumption|].
      split; [cbn [filter]; rewrite X; exact Q2|].
      intros t' [<-|Ht']; [|now apply Q3].
      exists (deactivateIncome t). split; [assumption|].
      apply P6; [|exact Hnot].
      cbn [w1 store setRecurringIncome recurringIncome].
      apply rewriteRows_hit; auto.
    + (* thrown after the record was created *)
      exists [t]. cbn [worldOf store map setIncome income recurringIncome
                        recurringExpense expense].
      split; [reflexivity|].
      split; [intros ? [<-|[]]; split; [now left|now rewrite X]|].
      split; [constructor; [intros []|constructor]|].
      split; [reflexivity|]. split; [auto|]. split; [auto|].
      split; [reflexivity|]. split; [reflexivity|]. discriminate.
    + (* created and advanced *)
      set (w1 := mkWorld _ fs).
      set (f := advanceIncome nd
                  (negb (endsBefore (RecurringIncome.endDate t) nd))) in *.
      assert (S1 : sweptIncome today t = inr (f t)).
      { unfold sweptIncome. now rewrite X, C. }
      assert (A1 : NoDup (map key (recurringIncome (store w1)))).
      { cbn [w1 store setRecurringIncome recurringIncome].
        now rewrite rewriteRows_keys. }
      assert (A2 : forall t', In t' rest -> In t' (recurringIncome (store w1))).
      { intros t' Ht'. cbn [w1 store setRecurringIncome recurringIncome].
        apply rewriteRows_other; [apply Hin; now right|now apply Hrest]. }
      destruct (IH (S n) w1 NDrest A1 A2)
        as (done & P1 & P2 & P3 & P4 & P5 & P6 & P7 & P8 & P9).
      cbn [w1 store setRecurringIncome setIncome recurringIncome income
             recurringExpense expense] in P1, P4, P5, P6, P7, P8.
      rewrite rewriteRows_keys in P4 by reflexivity.
      exists (t :: done). cbn [map List.length].
      split; [now rewrite P1, <- app_assoc|].
      split.
      { intros t' [<-|Ht']; [split; [now left|now rewrite X]|].
        destruct (P2 t' Ht'). split; [now right|assumption]. }
      split.
      { constructor; [|assumption]. intros Hk. apply in_map_iff in Hk.
        destruct Hk as (t' & Kt' & Ht'). apply P2 in Ht'.
        now apply (Hrest t' (proj1 Ht')). }
      split; [assumption|].
      split.
      { intros x Hx. destruct (P5 x Hx) as [Hx'|(t' & Ht' & St')].
        - apply rewriteRows_in in Hx'.
          destruct Hx' as [[Hx' _]|(r & Hr & Kr & ->)]; [now left|].
          right. exists t. split; [now left|].
          now rewrite (key_unique key _ r t NDt Hr Ht Kr).
        - right. exists t'. split; [now right|assumption]. }
      split.
      { intros t' Ht' Hk. apply P6.
        - apply rewriteRows_other; auto. intros E. apply Hk. left. now rewrite E.
        - intros Hk'. apply Hk. now right. }
      split; [assumption|]. split; [assumption|].
      intros n' w' H. destruct (P9 n' w' H) as (Q1 & Q2 & Q3).
      split; [lia|].
      split; [cbn [filter]; rewrite X; cbn [negb]; now rewrite Q2|].
      intros t' [<-|Ht']; [|now apply Q3].
      exists (f t). split; [assumption|].
      apply P6; [|exact Hnot].
      cbn [w1 store setRecurringIncome recurringIncome].
      apply rewriteRows_hit; auto.
Qed.

End IncomeLoop.

(** ** The two phases of the sweep *)

Lemma NoDup_map_filter {T} (key : T -> string) (p : T -> bool) (l : list T) :
  NoDup (map key l) -> NoDup (map key (filter p l)).
Proof.
  induction l as [|a l IH]; cbn [map filter]; intros ND; [constructor|].
  inversion ND as [|? ? Hnot ND']; subst.
  destruct (p a); cbn [map]; [|auto].
  constructor; [|auto]. intros Hin. apply Hnot.
  apply in_map_iff in Hin. destruct Hin as (x & E & Hx).
  apply filter_In in Hx. rewrite <- E. apply in_map. tauto.
Qed.

Section Phases.

Variable today : Date.

Lemma expensePhase (w0 : World) :
  NoDup (map RecurringExpense.id (recurringExpense (store w0))) ->
  let o := forOf (dueExpenseBody today)
             (filter (isDueExpense today) (recurringExpense (store w0)))
             0%nat w0 in
  exists done,
    expenseSweep today (store w0) (store (worldOf o)) done
    /\ recurringIncome (store (worldOf o)) = recurringIncome (store w0)
    /\ income (store (worldOf o)) = income (store w0)
    /\ (forall n' w', o = Returned n' w' ->
        n' = List.length done
        /\ expenseSweepDone today (store w0) (store w') done).
Proof.
  intros ND o.
  set (due := filter (isDueExpense today) (recurringExpense (store w0))).
  assert (Hdue : forall t, In t due ->
            In t (recurringExpense (store w0)) /\ isDueExpense today t = true).
  { intros t Ht. now apply filter_In in Ht. }
  destruct (forOf_dueExpense today due 0%nat w0)
    as (done & P1 & P2 & P3 & P4 & P5 & P6 & P7 & P8 & P9).
  { now apply NoDup_map_filter. }
  { assumption. }
  { intros t Ht. now apply Hdue. }
  fold due in o. fold o in P1, P2, P3, P4, P5, P6, P7, P8, P9.
  exists done. split; [|split; [assumption|split; [assumption|]]].
  - unfold expenseSweep.
    split; [assumption|]. split; [assumption|].
    split.
    { intros t Ht. destruct (P2 t Ht) as [Q1 Q2]. destruct (Hdue t Q1).
      repeat split; auto. now destruct (endsBefore _ today). }
    split; [assumption|].
    split.
    { intros x Hx. destruct (P5 x Hx) as [|(t & Ht & St)]; [now left|].
      right. exists t. destruct (Hdue t Ht). auto. }
    intros t Ht Hnd. apply P6; [assumption|].
    intros Hk. apply in_map_iff in Hk. destruct Hk as (t' & E & Ht').
    destruct (Hdue t' Ht') as [Q1 Q2].
    rewrite (key_unique RecurringExpense.id _ t' t ND Q1 Ht E) in Q2.
    congruence.
  - intros n' w' E. destruct (P9 n' w' E) as (Q1 & Q2 & Q3).
    split; [lia|]. unfold expenseSweepDone. split; [exact Q2|].
    intros t Ht Hd. fold o in Q3. rewrite E in Q3. cbn [worldOf] in Q3.
    apply Q3. apply filter_In. auto.
Qed.

Lemma incomePhase (w0 : World) :
  NoDup (map RecurringIncome.id (recurringIncome (store w0))) ->
  let o := forOf (dueIncomeBody today)
             (filter (isDueIncome today) (recurringIncome (store w0)))
             0%nat w0 in
  exists done,
    incomeSweep today (store w0) (store (worldOf o)) done
    /\ recurringExpense (store (worldOf o)) = recurringExpense (store w0)
    /\ expense (store (worldOf o)) = expense (store w0)
    /\ (forall n' w', o = Returned n' w' ->
        n' = List.length done
        /\ incomeSweepDone today (store w0) (store w') done).
Proof.
  intros ND o.
  set (due := filter (isDueIncome today) (recurringIncome (store w0))).
  assert (Hdue : forall t, In t due ->
            In t (recurringIncome (store w0)) /\ isDueIncome today t = true).
  { intros t Ht. now apply filter_In in Ht. }
  destruct (forOf_dueIncome today due 0%nat w0)
    as (done & P1 & P2 & P3 & P4 & P5 & P6 & P7 & P8 & P9).
  { now apply NoDup_map_filter. }
  { assumption. }
  { intros t Ht. now apply Hdue. }
  fold due in o. fold o in P1, P2, P3, P4, P5, P6, P7, P8, P9.
  exists done. split; [|split; [assumption|split; [assumption|]]].
  - unfold incomeSweep.
    split; [assumption|]. split; [assumption|].
    split.
    { intros t Ht. destruct (P2 t Ht) as [Q1 Q2]. destruct (Hdue t Q1).
      repeat split; auto. now destruct (endsBefore _ today). }
    split; [assumption|].
    split.
    { intros x Hx. destruct (P5 x Hx) as [|(t & Ht & St)]; [now left|].
      right. exists t. destruct (Hdue t Ht). auto. }
    intros t Ht Hnd. apply P6; [assumption|].
    intros Hk. apply in_map_iff in Hk. destruct Hk as (t' & E & Ht').
    destruct (Hdue t' Ht') as [Q1 Q2].
    rewrite (key_unique RecurringIncome.id _ t' t ND Q1 Ht E) in Q2.
    congruence.
  - intros n' w' E. destruct (P9 n' w' E) as (Q1 & Q2 & Q3).
    split; [lia|]. unfold incomeSweepDone. split; [exact Q2|].
    intros t Ht Hd. fold o in Q3. rewrite E in Q3. cbn [worldOf] in Q3.
    apply Q3. apply filter_In. auto.
Qed.

End Phases.

(** ** The sweep as a whole *)

Section Sweep.

Variable now : Date.
Let today := setHoursZero now.

(** The control flow of the handler, store call by store call. *)
Lemma processRecurringTransactions_flow (w : World) :
  processRecurringTransactions now w =
  match faults w with
  | true :: rest => (sweepFailed StoreFailure, mkWorld (store w) rest)
  | _ =>
      let dueExpenses :=
        filter (isDueExpense today) (recurringExpense (store w)) in
      match forOf (dueExpenseBody today) dueExpenses 0%nat
              (mkWorld (store w) (tl (faults w))) with
      | Thrown e w1 => (sweepFailed e, w1)
      | Returned expensesCreated w1 =>
          match faults w1 with
          | true :: rest => (sweepFailed StoreFailure, mkWorld (store w1) rest)
          | _ =>
              let dueIncomes :=
                filter (isDueIncome today) (recurringIncome (store w1)) in
              match forOf (dueIncomeBody today) dueIncomes 0%nat
                      (mkWorld (store w1) (tl (faults w1))) with
              | Thrown e w2 => (sweepFailed e, w2)
              | Returned incomesCreated w2 =>
                  (sweepProcessed expensesCreated incomesCreated
                     (List.length dueExpenses + List.length dueIncomes), w2)
              end
          end
      end
  end.
Proof.
  unfold processRecurringTransactions, tryCatch, bind,
    prisma.recurringExpense.findMany, prisma.recurringIncome.findMany,
    prismaCall, ret. fold today.
  destruct (faults w) as [|[] fs]; try reflexivity;
    cbn [tl];
    (destruct (forOf (dueExpenseBody today) _ 0%nat _) as [n1 w1|e w1];
     [|reflexivity]);
    (destruct (faults w1) as [|[] fs1]; try reflexivity; cbn [tl];
     destruct (forOf (dueIncomeBody today) _ 0%nat _); reflexivity).
Qed.

Lemma expenseSweep_refl (s : Store) : expenseSweep today s s [].
Proof.
  unfold expenseSweep. cbn [map]. rewrite app_nil_r.
  split; [reflexivity|]. split; [constructor|]. split; [intros ? []|].
  split; [reflexivity|]. split; auto.
Qed.

Lemma incomeSweep_refl (s : Store) : incomeSweep today s s [].
Proof.
  unfold incomeSweep. cbn [map]. rewrite app_nil_r.
  split; [reflexivity|]. split; [constructor|]. split; [intros ? []|].
  split; [reflexivity|]. split; auto.
Qed.

Lemma expenseSweep_transfer (s s1 s2 : Store) (done : list RecurringExpense.t) :
  expenseSweep today s s1 done ->
  recurringExpense s2 = recurringExpense s1 -> expense s2 = expense s1 ->
  expenseSweep today s s2 done.
Proof. unfold expenseSweep. intros H E1 E2. now rewrite E1, E2. Qed.

Lemma expenseSweepDone_transfer (s s1 s2 : Store)
  (done : list RecurringExpense.t) :
  expenseSweepDone today s s1 done ->
  recurringExpense s2 = recurringExpense s1 ->
  expenseSweepDone today s s2 done.
Proof. unfold expenseSweepDone. intros H E1. now rewrite E1. Qed.

Lemma incomeSweep_rebase (s s1 s2 : Store) (done : list RecurringIncome.t) :
  incomeSweep today s1 s2 done ->
  recurringIncome s1 = recurringIncome s -> income s1 = income s ->
  incomeSweep today s s2 done.
Proof. unfold incomeSweep. intros H E1 E2. now rewrite <- E1, <- E2. Qed.

Lemma incomeSweepDone_rebase (s s1 s2 : Store) (done : list RecurringIncome.t) :
  incomeSweepDone today s1 s2 done ->
  recurringIncome s1 = recurringIncome s ->
  incomeSweepDone today s s2 done.
Proof. unfold incomeSweepDone. intros H E1. now rewrite <- E1. Qed.

(** Whatever happens to the store calls, the handler leaves the store
    as a (possibly interrupted) sweep of both tables; when it answers
    200 both sweeps ran to their end and the counts are those of the
    records created. *)
Lemma processRecurringTransactions_sweep (w : World) :
  uniqueIds (store w) ->
  let r := processRecurringTransactions now w in
  exists doneE doneI,
    expenseSweep today (store w) (store (snd r)) doneE
    /\ incomeSweep today (store w) (store (snd r)) doneI
    /\ ((exists e, fst r = sweepFailed e)
        \/ (fst r = sweepProcessed (List.length doneE) (List.length doneI)
                     (List.length (filter (isDueExpense today)
                                     (recurringExpense (store w)))
                      + List.length (filter (isDueIncome today)
                                       (recurringIncome (store w))))
            /\ expenseSweepDone today (store w) (store (snd r)) doneE
            /\ incomeSweepDone today (store w) (store (snd r)) doneI)).
Proof.
  intros [NDe NDi] r. unfold r. rewrite processRecurringTransactions_flow.
  destruct (faults w) as [|[] fs] eqn:F.
  2: { exists [], []. cbn [fst snd store].
       split; [apply expenseSweep_refl|]. split; [apply incomeSweep_refl|].
       left. eauto. }
  all: cbn [tl]; cbv zeta;
    match goal with
    | |- context [forOf (dueExpenseBody today) _ _ ?w0] =>
        destruct (expensePhase today w0 NDe) as (doneE & A1 & A2 & A3 & A4);
        cbn [store] in A1, A2, A3, A4;
        destruct (forOf (dueExpenseBody today) _ 0%nat w0) as [n1 w1|e1 w1]
    end; cbn [worldOf] in A1, A2, A3, A4.
  all: try (exists doneE, []; cbn [fst snd];
            split; [assumption|];
            split; [apply (incomeSweep_rebase _ (store w1));
                    [apply incomeSweep_refl|assumption|assumption]|];
            left; eauto; fail).
  all: destruct (A4 n1 w1 eq_refl) as [-> A5];
    assert (NDi1 : NoDup (map RecurringIncome.id
                            (recurringIncome (store w1))))
      by (now rewrite A2);
    destruct (faults w1) as [|[] fs1] eqn:F1.
  all: try (exists doneE, []; cbn [fst snd store];
            split; [assumption|];
            split; [apply (incomeSweep_rebase _ (store w1));
                    [apply incomeSweep_refl|assumption|assumption]|];
            left; eauto; fail).
  all: cbn [tl]; cbv zeta;
    match goal with
    | |- context [forOf (dueIncomeBody today) _ _ ?w0] =>
        destruct (incomePhase today w0 NDi1) as (doneI & B1 & B2 & B3 & B4);
        cbn [store] in B1, B2, B3, B4;
        destruct (forOf (dueIncomeBody today) _ 0%nat w0) as [n2 w2|e2 w2]
    end; cbn [worldOf] in B1, B2, B3, B4;
    exists doneE, doneI; cbn [fst snd];
    (split; [now apply (expenseSweep_transfer _ (store w1))|]);
    (split; [now apply (incomeSweep_rebase _ (store w1))|]).
  all: try (left; eauto; fail).
  all: right; destruct (B4 n2 w2 eq_refl) as [-> B5];
    rewrite A2;
    (split; [reflexivity|]);
    (split; [now apply (expenseSweepDone_transfer _ (store w1))
            |now apply (incomeSweepDone_rebase _ (store w1))]).
Qed.

End Sweep.

(** ** Generated records, by template *)

Section Generated.

Lemma expensesOf_app (k : string) (a b : list Expense.t) :
  expensesOf k (a ++ b) = (expensesOf k a ++ expensesOf k b)%list.
Proof. apply filter_app. Qed.

Lemma incomesOf_app (k : string) (a b : list Income.t) :
  incomesOf k (a ++ b) = (incomesOf k a ++ incomesOf k b)%list.
Proof. apply filter_app. Qed.

Lemma expensesOf_generated_none (k : string) (done : list RecurringExpense.t) :
  (forall t, In t done -> RecurringExpense.id t <> k) ->
  expensesOf k (map generatedExpense done) = [].
Proof.
  induction done as [|t done IH]; intros H; [reflexivity|].
  cbn [map expensesOf filter generatedExpense Expense.recurringId sameId].
  destruct (String.eqb_spec (RecurringExpense.id t) k) as [E|_].
  - exfalso. apply (H t); [now left|assumption].
  - apply IH. intros t' Ht'. apply H. now right.
Qed.

Lemma expensesOf_generated_one (t : RecurringExpense.t)
  (done : list RecurringExpense.t) :
  NoDup (map RecurringExpense.id done) -> In t done ->
  expensesOf (RecurringExpense.id t) (map generatedExpense done)
  = [generatedExpense t].
Proof.
  induction done as [|a done IH]; intros ND Hin; [contradiction|].
  cbn [map] in ND. inversion ND as [|? ? Hnot ND']; subst.
  cbn [map expensesOf filter generatedExpense Expense.recurringId sameId].
  destruct Hin as [->|Hin].
  - rewrite String.eqb_refl. f_equal. apply expensesOf_generated_none.
    intros t' Ht' E. apply Hnot. rewrite <- E. now apply in_map.
  - destruct (String.eqb_spec (RecurringExpense.id a) (RecurringExpense.id t))
      as [E|_].
    + exfalso. apply Hnot. rewrite E. now apply in_map.
    + now apply IH.
Qed.

Lemma expensesOf_generated_le (k : string) (done : list RecurringExpense.t) :
  NoDup (map RecurringExpense.id done) ->
  (List.length (expensesOf k (map generatedExpense done)) <= 1)%nat.
Proof.
  induction done as [|a done IH]; intros ND; [cbn; lia|].
  cbn [map] in ND. inversion ND as [|? ? Hnot ND']; subst.
  cbn [map expensesOf filter generatedExpense Expense.recurringId sameId].
  destruct (String.eqb_spec (RecurringExpense.id a) k) as [E|_].
  - fold (expensesOf k (map generatedExpense done)).
    rewrite expensesOf_generated_none; [cbn; lia|].
    intros t' Ht' E'. apply Hnot. rewrite E, <- E'. now apply in_map.
  - now apply IH.
Qed.

Lemma incomesOf_generated_none (k : string) (done : list RecurringIncome.t) :
  (forall t, In t done -> RecurringIncome.id t <> k) ->
  incomesOf k (map generatedIncome done) = [].
Proof.
  induction done as [|t done IH]; intros H; [reflexivity|].
  cbn [map incomesOf filter generatedIncome Income.recurringId sameId].
  destruct (String.eqb_spec (RecurringIncome.id t) k) as [E|_].
  - exfalso. apply (H t); [now left|assumption].
  - apply IH. intros t' Ht'. apply H. now right.
Qed.

Lemma incomesOf_generated_le (k : string) (done : list RecurringIncome.t) :
  NoDup (map RecurringIncome.id done) ->
  (List.length (incomesOf k (map generatedIncome done)) <= 1)%nat.
Proof.
  induction done as [|a done IH]; intros ND; [cbn; lia|].
  cbn [map] in ND. inversion ND as [|? ? Hnot ND']; subst.
  cbn [map incomesOf filter generatedIncome Income.recurringId sameId].
  destruct (String.eqb_spec (RecurringIncome.id a) k) as [E|_].
  - fold (incomesOf k (map generatedIncome done)).
    rewrite incomesOf_generated_none; [cbn; lia|].
    intros t' Ht' E'. apply Hnot. rewrite E, <- E'. now apply in_map.
  - now apply IH.
Qed.

End Generated.

(** C10: in one call of [processRecurringTransactions], whatever store
    calls fail, the records added to each table number at most one
    per template, and each of them is made from a template of the
    store as it was: it points back to that template and carries the
    template's stored [nextDate] as its date, however far behind
    today that date lies. *)
Theorem sweep_one_record_per_template (now : Date) (w : World) :
  uniqueIds (store w) ->
  let s := store w in
  let s' := store (snd (processRecurringTransactions now w)) in
  exists newExpenses newIncomes,
    expense s' = (expense s ++ newExpenses)%list
    /\ income s' = (income s ++ newIncomes)%list
    /\ (forall k, (List.length (expensesOf k newExpenses) <= 1)%nat
                  /\ (List.length (incomesOf k newIncomes) <= 1)%nat)
    /\ (forall e, In e newExpenses ->
        exists t, In t (recurringExpense s)
                  /\ Expense.recurringId e = Some (RecurringExpense.id t)
                  /\ Expense.date e = RecurringExpense.nextDate t)
    /\ (forall e, In e newIncomes ->
        exists t, In t (recurringIncome s)
                  /\ Income.recurringId e = Some (RecurringIncome.id t)
                  /\ Income.date e = RecurringIncome.nextDate t).
Proof.
  intros U s s'.
  destruct (processRecurringTransactions_sweep now w U)
    as (doneE & doneI & SE & SI & _).
  destruct SE as (E1 & E2 & E3 & _). destruct SI as (I1 & I2 & I3 & _).
  exists (map generatedExpense doneE), (map generatedIncome doneI).
  split; [exact E1|]. split; [exact I1|].
  split.
  { intros k. split; [now apply expensesOf_generated_le
                     |now apply incomesOf_generated_le]. }
  split.
  - intros e He. apply in_map_iff in He. destruct He as (t & <- & Ht).
    exists t. split; [now apply E3|]. split; reflexivity.
  - intros e He. apply in_map_iff in He. destruct He as (t & <- & Ht).
    exists t. split; [now apply I3|]. split; reflexivity.
Qed.

(** ** The expense loop when no store call fails *)

Section QuietExpenseLoop.

Variable today : Date.

Lemma sweptExpense_returns (t : RecurringExpense.t) :
  includes validFrequencies (RecurringExpense.frequency t) = true ->
  exists x, sweptExpense today t = inr x.
Proof.
  intros V. unfold sweptExpense.
  destruct (endsBefore (RecurringExpense.endDate t) today); [eauto|].
  destruct (calculateNextDate_returns (RecurringExpense.nextDate t) _ V)
    as (nd & ->). eauto.
Qed.

Lemma dueExpenseBody_quiet (t : RecurringExpense.t) (n : nat) (s : Store) :
  In t (recurringExpense s) ->
  (exists x, sweptExpense today t = inr x) ->
  exists n1 f rows,
    (forall r, RecurringExpense.id (f r) = RecurringExpense.id r)
    /\ dueExpenseBody today t n (mkWorld s []) =
       Returned n1
         (mkWorld
            (setRecurringExpense
               (rewriteRows RecurringExpense.id (RecurringExpense.id t) f
                  (recurringExpense s))
               (setExpense rows s)) []).
Proof.
  intros Hin (x & Sx).
  destruct (find_key_in RecurringExpense.id _ _ t Hin eq_refl) as (r & Fr).
  unfold sweptExpense in Sx. unfold dueExpenseBody.
  destruct (endsBefore (RecurringExpense.endDate t) today).
  - exists n, deactivateExpense, (expense s). split; [reflexivity|].
    cbv beta iota zeta delta
      [bind ret prismaCall prisma.recurringExpense.update updateWhere
         store faults tl].
    rewrite Fr. destruct s; reflexivity.
  - destruct (calculateNextDate (RecurringExpense.nextDate t)
                (RecurringExpense.frequency t)) as [e|nd]; [discriminate|].
    exists (S n),
      (advanceExpense nd (negb (endsBefore (RecurringExpense.endDate t) nd))),
      (expense s ++ [generatedExpense t])%list.
    split; [reflexivity|].
    cbv beta iota zeta delta
      [bind ret lift prismaCall prisma.expense.create
         prisma.recurringExpense.update updateWhere store faults tl].
    change (recurringExpense (setExpense (expense s ++ [generatedExpense t]) s))
      with (recurringExpense s).
    rewrite Fr. reflexivity.
Qed.

Lemma forOf_dueExpense_quiet (due : list RecurringExpense.t) :
  forall (n : nat) (s : Store),
  NoDup (map RecurringExpense.id due) ->
  (forall t, In t due -> In t (recurringExpense s)) ->
  (forall t, In t due -> exists x, sweptExpense today t = inr x) ->
  exists n' s',
    forOf (dueExpenseBody today) due n (mkWorld s []) = Returned n' (mkWorld s' []).
Proof.
  induction due as [|t rest IH]; intros n s ND Hin Hsw.
  - exists n, s. reflexivity.
  - cbn [map] in ND. inversion ND as [|? ? Hnot NDrest]; subst.
    destruct (dueExpenseBody_quiet t n s) as (n1 & f & rows & Kf & E);
      [apply Hin; now left|apply Hsw; now left|].
    cbn [forOf]. unfold bind. rewrite E.
    apply IH; [assumption| |intros t' Ht'; apply Hsw; now right].
    intros t' Ht'. cbn [setRecurringExpense recurringExpense].
    apply rewriteRows_other; [apply Hin; now right|].
    intros E'. apply Hnot. rewrite <- E'. now apply in_map.
Qed.

End QuietExpenseLoop.

(** ** The income loop when no store call fails *)

Section QuietIncomeLoop.

Variable today : Date.

Lemma sweptIncome_returns (t : RecurringIncome.t) :
  includes validFrequencies (RecurringIncome.frequency t) = true ->
  exists x, sweptIncome today t = inr x.
Proof.
  intros V. unfold sweptIncome.
  destruct (endsBefore (RecurringIncome.endDate t) today); [eauto|].
  destruct (calculateNextDate_returns (RecurringIncome.nextDate t) _ V)
    as (nd & ->). eauto.
Qed.

Lemma dueIncomeBody_quiet (t : RecurringIncome.t) (n : nat) (s : Store) :
  In t (recurringIncome s) ->
  (exists x, sweptIncome today t = inr x) ->
  exists n1 f rows,
    (forall r, RecurringIncome.id (f r) = RecurringIncome.id r)
    /\ dueIncomeBody today t n (mkWorld s []) =
       Returned n1
         (mkWorld
            (setRecurringIncome
               (rewriteRows RecurringIncome.id (RecurringIncome.id t) f
                  (recurringIncome s))
               (setIncome rows s)) []).
Proof.
  intros Hin (x & Sx).
  destruct (find_key_in RecurringIncome.id _ _ t Hin eq_refl) as (r & Fr).
  unfold sweptIncome in Sx. unfold dueIncomeBody.
  destruct (endsBefore (RecurringIncome.endDate t) today).
  - exists n, deactivateIncome, (income s). split; [reflexivity|].
    cbv beta iota zeta delta
      [bind ret prismaCall prisma.recurringIncome.update updateWhere
         store faults tl].
    rewrite Fr. destruct s; reflexivity.
  - destruct (calculateNextDate (RecurringIncome.nextDate t)
                (RecurringIncome.frequency t)) as [e|nd]; [discriminate|].
    exists (S n),
      (advanceIncome nd (negb (endsBefore (RecurringIncome.endDate t) nd))),
      (income s ++ [generatedIncome t])%list.
    split; [reflexivity|].
    cbv beta iota zeta delta
      [bind ret lift prismaCall prisma.income.create
         prisma.recurringIncome.update updateWhere store faults tl].
    change (recurringIncome (setIncome (income s ++ [generatedIncome t]) s))
      with (recurringIncome s).
    rewrite Fr. reflexivity.
Qed.

Lemma forOf_dueIncome_quiet (due : list RecurringIncome.t) :
  forall (n : nat) (s : Store),
  NoDup (map RecurringIncome.id due) ->
  (forall t, In t due -> In t (recurringIncome s)) ->
  (forall t, In t due -> exists x, sweptIncome today t = inr x) ->
  exists n' s',
    forOf (dueIncomeBody today) due n (mkWorld s []) = Returned n' (mkWorld s' []).
Proof.
  induction due as [|t rest IH]; intros n s ND Hin Hsw.
  - exists n, s. reflexivity.
  - cbn [map] in ND. inversion ND as [|? ? Hnot NDrest]; subst.
    destruct (dueIncomeBody_quiet t n s) as (n1 & f & rows & Kf & E);
      [apply Hin; now left|apply Hsw; now left|].
    cbn [forOf]. unfold bind. rewrite E.
    apply IH; [assumption| |intros t' Ht'; apply Hsw; now right].
    intros t' Ht'. cbn [setRecurringIncome recurringIncome].
    apply rewriteRows_other; [apply Hin; now right|].
    intros E'. apply Hnot. rewrite <- E'. now apply in_map.
Qed.

End QuietIncomeLoop.

(** ** The sweep when no store call fails *)

Lemma processRecurringTransactions_quiet (now : Date) (w : World) :
  faults w = [] -> uniqueIds (store w) -> frequenciesValid (store w) ->
  exists a b c, fst (processRecurringTransactions now w) = sweepProcessed a b c.
Proof.
  intros F [NDe NDi] [Ve Vi].
  rewrite processRecurringTransactions_flow, F. cbn [tl]. cbv zeta.
  set (today := setHoursZero now).
  destruct w as [s fs]. cbn [store faults] in *. subst fs.
  destruct (forOf_dueExpense_quiet today
              (filter (isDueExpense today) (recurringExpense s)) 0%nat s)
    as (n1 & s1 & E1).
  { now apply NoDup_map_filter. }
  { intros t Ht. now apply filter_In in Ht. }
  { intros t Ht. apply sweptExpense_returns. apply Ve.
    now apply filter_In in Ht. }
  destruct (expensePhase today (mkWorld s []) NDe) as (done & _ & A2 & _).
  cbn [store] in A2. rewrite E1 in *. cbn [worldOf store faults tl] in *.
  destruct (forOf_dueIncome_quiet today
              (filter (isDueIncome today) (recurringIncome s1)) 0%nat s1)
    as (n2 & s2 & E2).
  { apply NoDup_map_filter. now rewrite A2. }
  { intros t Ht. now apply filter_In in Ht. }
  { intros t Ht. apply sweptIncome_returns. apply Vi. rewrite <- A2.
    now apply filter_In in Ht. }
  rewrite E2. cbn [fst]. eauto.
Qed.

(** ** The sweep, template by template *)

Section ExpenseTurns.

Variable today : Date.

Local Abbreviation key := RecurringExpense.id.

Lemma sweptExpense_key (t x : RecurringExpense.t) :
  sweptExpense today t = inr x -> key x = key t.
Proof.
  unfold sweptExpense.
  destruct (endsBefore (RecurringExpense.endDate t) today);
    [|destruct (calculateNextDate _ _); [discriminate|]];
    intros H; injection H as <-; reflexivity.
Qed.

Lemma expensesOf_own (t : RecurringExpense.t) :
  expensesOf (key t) [generatedExpense t] = [generatedExpense t].
Proof.
  unfold expensesOf.
  cbn [filter generatedExpense Expense.recurringId sameId].
  now rewrite String.eqb_refl.
Qed.

Lemma expensesOf_foreign (t : RecurringExpense.t) (k : string) :
  key t <> k -> expensesOf k [generatedExpense t] = [].
Proof.
  intros H. apply (expensesOf_generated_none k [t]).
  intros t' [<-|[]]. exact H.
Qed.

(** The loop, read template by template: the row of a due template is
    afterwards either untouched or the rewritten one, and in the
    second case the records of the template are those it had plus the
    record of its turn. *)
Lemma forOf_dueExpense_turns (due : list RecurringExpense.t) :
  forall (n : nat) (w : World),
  NoDup (map key due) ->
  NoDup (map key (recurringExpense (store w))) ->
  (forall t, In t due -> In t (recurringExpense (store w))) ->
  let s := store w in
  let s' := store (worldOf (forOf (dueExpenseBody today) due n w)) in
  forall t x, In t due -> In x (recurringExpense s') -> key x = key t ->
    x = t
    \/ (sweptExpense today t = inr x
        /\ expensesOf (key t) (expense s')
           = (expensesOf (key t) (expense s)
              ++ (if endsBefore (RecurringExpense.endDate t) today then []
                  else [generatedExpense t]))%list).
Proof.
  induction due as [|t0 rest IH]; intros n w NDd NDt Hin; cbn zeta;
    [intros ? ? []|].
  cbn [map] in NDd. inversion NDd as [|? ? Hnot NDrest]; subst.
  assert (Ht0 : In t0 (recurringExpense (store w))) by (apply Hin; now left).
  assert (Hrest : forall t', In t' rest -> key t' <> key t0).
  { intros t' Ht' E. apply Hnot. rewrite <- E. now apply in_map. }
  assert (Untouched : forall t x, In t (t0 :: rest) ->
            In x (recurringExpense (store w)) -> key x = key t -> x = t).
  { intros t x Ht Hx K.
    exact (key_unique key _ x t NDt Hx (Hin t Ht) K). }
  cbn [forOf]. unfold bind.
  destruct (dueExpenseBody_cases today t0 n w)
    as [(e & fs & E)|[(fs & X & E)|[(e & fs & X & E)|(nd & fs & X & C & E)]]];
    rewrite E; clear E.
  - (* thrown before any write *)
    cbn [worldOf store]. intros t x Ht Hx K. left. now apply Untouched.
  - (* deactivated *)
    set (w1 := mkWorld _ fs).
    assert (S1 : sweptExpense today t0 = inr (deactivateExpense t0)).
    { unfold sweptExpense. now rewrite X. }
    assert (A1 : NoDup (map key (recurringExpense (store w1)))).
    { cbn [w1 store setRecurringExpense recurringExpense].
      now rewrite rewriteRows_keys. }
    assert (A2 : forall t', In t' rest -> In t' (recurringExpense (store w1))).
    { intros t' Ht'. cbn [w1 store setRecurringExpense recurringExpense].
      apply rewriteRows_other; [apply Hin; now right|now apply Hrest]. }
    destruct (forOf_dueExpense today rest n w1 NDrest A1 A2)
      as (done & P1 & P2 & _ & _ & P5 & _).
    specialize (IH n w1 NDrest A1 A2). cbn zeta in IH.
    cbn [w1 store setRecurringExpense recurringExpense expense] in P1, P5, IH.
    intros t x [<-|Ht] Hx K.
    + right. destruct (P5 x Hx) as [Hx'|(t' & Ht' & St')].
      * apply rewriteRows_in in Hx'.
        destruct Hx' as [[_ Kne]|(r & Hr & Kr & ->)]; [now elim Kne|].
        rewrite (key_unique key _ r t0 NDt Hr Ht0 Kr).
        split; [exact S1|].
        rewrite P1, expensesOf_app, X. f_equal.
        apply expensesOf_generated_none.
        intros t' Ht'. apply Hrest. now apply P2.
      * exfalso. apply (Hrest t' Ht'). rewrite <- K.
        symmetry. now apply sweptExpense_key.
    + destruct (IH t x Ht Hx K) as [->|[Sx Ex]]; [now left|].
      right. split; assumption.
  - (* thrown after the record was created *)
    cbn [worldOf store setExpense recurringExpense].
    intros t x Ht Hx K. left. now apply Untouched.
  - (* created and advanced *)
    set (w1 := mkWorld _ fs).
    set (f := advanceExpense nd
                (negb (endsBefore (RecurringExpense.endDate t0) nd))) in *.
    assert (S1 : sweptExpense today t0 = inr (f t0)).
    { unfold sweptExpense. now rewrite X, C. }
    assert (A1 : NoDup (map key (recurringExpense (store w1)))).
    { cbn [w1 store setRecurringExpense recurringExpense].
      now rewrite rewriteRows_keys. }
    assert (A2 : forall t', In t' rest -> In t' (recurringExpense (store w1))).
    { intros t' Ht'. cbn [w1 store setRecurringExpense recurringExpense].
      apply rewriteRows_other; [apply Hin; now right|now apply Hrest]. }
    destruct (forOf_dueExpense today rest (S n) w1 NDrest A1 A2)
      as (done & P1 & P2 & _ & _ & P5 & _).
    specialize (IH (S n) w1 NDrest A1 A2). cbn zeta in IH.
    cbn [w1 store setRecurringExpense setExpense recurringExpense expense]
      in P1, P5, IH.
    intros t x [<-|Ht] Hx K.
    + right. destruct (P5 x Hx) as [Hx'|(t' & Ht' & St')].
      * apply rewriteRows_in in Hx'.
        destruct Hx' as [[_ Kne]|(r & Hr & Kr & ->)]; [now elim Kne|].
        rewrite (key_unique key _ r t0 NDt Hr Ht0 Kr).
        split; [exact S1|].
        rewrite P1, !expensesOf_app, X, expensesOf_own.
        rewrite expensesOf_generated_none; [now rewrite app_nil_r|].
        intros t' Ht'. apply Hrest. now apply P2.
      * exfalso. apply (Hrest t' Ht'). rewrite <- K.
        symmetry. now apply sweptExpense_key.
    + destruct (IH t x Ht Hx K) as [->|[Sx Ex]]; [now left|].
      right. split; [assumption|].
      rewrite Ex, expensesOf_app, expensesOf_foreign, app_nil_r;
        [reflexivity|].
      intros E. now apply (Hrest t Ht).
Qed.

(** The same for the expense phase of the handler, over the whole
    table. *)
Lemma expenseTurnsPhase (w0 : World) :
  NoDup (map key (recurringExpense (store w0))) ->
  let o := forOf (dueExpenseBody today)
             (filter (isDueExpense today) (recurringExpense (store w0)))
             0%nat w0 in
  forall t x, In t (recurringExpense (store w0)) ->
    In x (recurringExpense (store (worldOf o))) -> key x = key t ->
    expenseTurn today (store w0) (store (worldOf o)) t x.
Proof.
  intros ND o t x Ht Hx K. unfold expenseTurn.
  destruct (isDueExpense today t) eqn:D.
  - destruct (forOf_dueExpense_turns
                (filter (isDueExpense today) (recurringExpense (store w0)))
                0%nat w0) with (t := t) (x := x) as [->|[Sx Ex]].
    + now apply NoDup_map_filter.
    + assumption.
    + intros t' Ht'. now apply filter_In in Ht'.
    + apply filter_In. now split.
    + exact Hx.
    + exact K.
    + now left.
    + right. split; [reflexivity|]. split; assumption.
  - left. destruct (expensePhase today w0 ND) as (done & SE & _).
    fold o in SE. destruct SE as (_ & _ & _ & E4 & _ & E6).
    assert (ND' : NoDup (map key (recurringExpense (store (worldOf o)))))
      by now rewrite E4.
    exact (key_unique key _ x t ND' Hx (E6 t Ht D) K).
Qed.

Lemma expenseTurn_untouched (s s' : Store) (t x : RecurringExpense.t) :
  NoDup (map key (recurringExpense s)) ->
  recurringExpense s' = recurringExpense s ->
  In t (recurringExpense s) -> In x (recurringExpense s') -> key x = key t ->
  expenseTurn today s s' t x.
Proof.
  intros ND E Ht Hx K. left. rewrite E in Hx.
  exact (key_unique key _ x t ND Hx Ht K).
Qed.

Lemma expenseTurn_transfer (s s1 s2 : Store) (t x : RecurringExpense.t) :
  expenseTurn today s s1 t x -> expense s2 = expense s1 ->
  expenseTurn today s s2 t x.
Proof. unfold expenseTurn. intros H E. now rewrite E. Qed.

Lemma expenseTurn_rebase (s s1 s2 : Store) (t x : RecurringExpense.t) :
  expenseTurn today s1 s2 t x -> expense s1 = expense s ->
  expenseTurn today s s2 t x.
Proof. unfold expenseTurn. intros H E. now rewrite <- E. Qed.

End ExpenseTurns.

Section IncomeTurns.

Variable today : Date.

Local Abbreviation key := RecurringIncome.id.

Lemma sweptIncome_key (t x : RecurringIncome.t) :
  sweptIncome today t = inr x -> key x = key t.
Proof.
  unfold sweptIncome.
  destruct (endsBefore (RecurringIncome.endDate t) today);
    [|destruct (calculateNextDate _ _); [discriminate|]];
    intros H; injection H as <-; reflexivity.
Qed.

Lemma incomesOf_own (t : RecurringIncome.t) :
  incomesOf (key t) [generatedIncome t] = [generatedIncome t].
Proof.
  unfold incomesOf.
  cbn [filter generatedIncome Income.recurringId sameId].
  now rewrite String.eqb_refl.
Qed.

Lemma incomesOf_foreign (t : RecurringIncome.t) (k : string) :
  key t <> k -> incomesOf k [generatedIncome t] = [].
Proof.
  intros H. apply (incomesOf_generated_none k [t]).
  intros t' [<-|[]]. exact H.
Qed.

(** The loop, read template by template: the row of a due template is
    afterwards either untouched or the rewritten one, and in the
    second case the records of the template are those it had plus the
    record of its turn. *)
Lemma forOf_dueIncome_turns (due : list RecurringIncome.t) :
  forall (n : nat) (w : World),
  NoDup (map key due) ->
  NoDup (map key (recurringIncome (store w))) ->
  (forall t, In t due -> In t (recurringIncome (store w))) ->
  let s := store w in
  let s' := store (worldOf (forOf (dueIncomeBody today) due n w)) in
  forall t x, In t due -> In x (recurringIncome s') -> key x = key t ->
    x = t
    \/ (sweptIncome today t = inr x
        /\ incomesOf (key t) (income s')
           = (incomesOf (key t) (income s)
              ++ (if endsBefore (RecurringIncome.endDate t) today then []
                  else [generatedIncome t]))%list).
Proof.
  induction due as [|t0 rest IH]; intros n w NDd NDt Hin; cbn zeta;
    [intros ? ? []|].
  cbn [map] in NDd. inversion NDd as [|? ? Hnot NDrest]; subst.
  assert (Ht0 : In t0 (recurringIncome (store w))) by (apply Hin; now left).
  assert (Hrest : forall t', In t' rest -> key t' <> key t0).
  { intros t' Ht' E. apply Hnot. rewrite <- E. now apply in_map. }
  assert (Untouched : forall t x, In t (t0 :: rest) ->
            In x (recurringIncome (store w)) -> key x = key t -> x = t).
  { intros t x Ht Hx K.
    exact (key_unique key _ x t NDt Hx (Hin t Ht) K). }
  cbn [forOf]. unfold bind.
  destruct (dueIncomeBody_cases today t0 n w)
    as [(e & fs & E)|[(fs & X & E)|[(e & fs & X & E)|(nd & fs & X & C & E)]]];
    rewrite E; clear E.
  - (* thrown before any write *)
    cbn [worldOf store]. intros t x Ht Hx K. left. now apply Untouched.
  - (* deactivated *)
    set (w1 := mkWorld _ fs).
    assert (S1 : sweptIncome today t0 = inr (deactivateIncome t0)).
    { unfold sweptIncome. now rewrite X. }
    assert (A1 : NoDup (map key (recurringIncome (store w1)))).
    { cbn [w1 store setRecurringIncome recurringIncome].
      now rewrite rewriteRows_keys. }
    assert (A2 : forall t', In t' rest -> In t' (recurringIncome (store w1))).
    { intros t' Ht'. cbn [w1 store setRecurringIncome recurringIncome].
      apply rewriteRows_other; [apply Hin; now right|now apply Hrest]. }
    destruct (forOf_dueIncome today rest n w1 NDrest A1 A2)
      as (done & P1 & P2 & _ & _ & P5 & _).
    specialize (IH n w1 NDrest A1 A2). cbn zeta in IH.
    cbn [w1 store setRecurringIncome recurringIncome income] in P1, P5, IH.
    intros t x [<-|Ht] Hx K.
    + right. destruct (P5 x Hx) as [Hx'|(t' & Ht' & St')].
      * apply rewriteRows_in in Hx'.
        destruct Hx' as [[_ Kne]|(r & Hr & Kr & ->)]; [now elim Kne|].
        rewrite (key_unique key _ r t0 NDt Hr Ht0 Kr).
        split; [exact S1|].
        rewrite P1, incomesOf_app, X. f_equal.
        apply incomesOf_generated_none.
        intros t' Ht'. apply Hrest. now apply P2.
      * exfalso. apply (Hrest t' Ht'). rewrite <- K.
        symmetry. now apply sweptIncome_key.
    + destruct (IH t x Ht Hx K) as [->|[Sx Ex]]; [now left|].
      right. split; assumption.
  - (* thrown after the record was created *)
    cbn [worldOf store setIncome recurringIncome].
    intros t x Ht Hx K. left. now apply Untouched.
  - (* created and advanced *)
    set (w1 := mkWorld _ fs).
    set (f := advanceIncome nd
                (negb (endsBefore (RecurringIncome.endDate t0) nd))) in *.
    assert (S1 : sweptIncome today t0 = inr (f t0)).
    { unfold sweptIncome. now rewrite X, C. }
    assert (A1 : NoDup (map key (recurringIncome (store w1)))).
    { cbn [w1 store setRecurringIncome recurringIncome].
      now rewrite rewriteRows_keys. }
    assert (A2 : forall t', In t' rest -> In t' (recurringIncome (store w1))).
    { intros t' Ht'. cbn [w1 store setRecurringIncome recurringIncome].
      apply rewriteRows_other; [apply Hin; now right|now apply Hrest]. }
    destruct (forOf_dueIncome today rest (S n) w1 NDrest A1 A2)
      as (done & P1 & P2 & _ & _ & P5 & _).
    specialize (IH (S n) w1 NDrest A1 A2). cbn zeta in IH.
    cbn [w1 store setRecurringIncome setIncome recurringIncome income]
      in P1, P5, IH.
    intros t x [<-|Ht] Hx K.
    + right. destruct (P5 x Hx) as [Hx'|(t' & Ht' & St')].
      * apply rewriteRows_in in Hx'.
        destruct Hx' as [[_ Kne]|(r & Hr & Kr & ->)]; [now elim Kne|].
        rewrite (key_unique key _ r t0 NDt Hr Ht0 Kr).
        split; [exact S1|].
        rewrite P1, !incomesOf_app, X, incomesOf_own.
        rewrite incomesOf_generated_none; [now rewrite app_nil_r|].
        intros t' Ht'. apply Hrest. now apply P2.
      * exfalso. apply (Hrest t' Ht'). rewrite <- K.
        symmetry. now apply sweptIncome_key.
    + destruct (IH t x Ht Hx K) as [->|[Sx Ex]]; [now left|].
      right. split; [assumption|].
      rewrite Ex, incomesOf_app, incomesOf_foreign, app_nil_r;
        [reflexivity|].
      intros E. now apply (Hrest t Ht).
Qed.

(** The same for the income phase of the handler, over the whole
    table. *)
Lemma incomeTurnsPhase (w0 : World) :
  NoDup (map key (recurringIncome (store w0))) ->
  let o := forOf (dueIncomeBody today)
             (filter (isDueIncome today) (recurringIncome (store w0)))
             0%nat w0 in
  forall t x, In t (recurringIncome (store w0)) ->
    In x (recurringIncome (store (worldOf o))) -> key x = key t ->
    incomeTurn today (store w0) (store (worldOf o)) t x.
Proof.
  intros ND o t x Ht Hx K. unfold incomeTurn.
  destruct (isDueIncome today t) eqn:D.
  - destruct (forOf_dueIncome_turns
                (filter (isDueIncome today) (recurringIncome (store w0)))
                0%nat w0) with (t := t) (x := x) as [->|[Sx Ex]].
    + now apply NoDup_map_filter.
    + assumption.
    + intros t' Ht'. now apply filter_In in Ht'.
    + apply filter_In. now split.
    + exact Hx.
    + exact K.
    + now left.
    + right. split; [reflexivity|]. split; assumption.
  - left. destruct (incomePhase today w0 ND) as (done & SE & _).
    fold o in SE. destruct SE as (_ & _ & _ & E4 & _ & E6).
    assert (ND' : NoDup (map key (recurringIncome (store (worldOf o)))))
      by now rewrite E4.
    exact (key_unique key _ x t ND' Hx (E6 t Ht D) K).
Qed.

Lemma incomeTurn_untouched (s s' : Store) (t x : RecurringIncome.t) :
  NoDup (map key (recurringIncome s)) ->
  recurringIncome s' = recurringIncome s ->
  In t (recurringIncome s) -> In x (recurringIncome s') -> key x = key t ->
  incomeTurn today s s' t x.
Proof.
  intros ND E Ht Hx K. left. rewrite E in Hx.
  exact (key_unique key _ x t ND Hx Ht K).
Qed.

Lemma incomeTurn_transfer (s s1 s2 : Store) (t x : RecurringIncome.t) :
  incomeTurn today s s1 t x -> income s2 = income s1 ->
  incomeTurn today s s2 t x.
Proof. unfold incomeTurn. intros H E. now rewrite E. Qed.

Lemma incomeTurn_rebase (s s1 s2 : Store) (t x : RecurringIncome.t) :
  incomeTurn today s1 s2 t x -> income s1 = income s ->
  incomeTurn today s s2 t x.
Proof. unfold incomeTurn. intros H E. now rewrite <- E. Qed.

End IncomeTurns.

Lemma incomesOf_generated_one (t : RecurringIncome.t)
  (done : list RecurringIncome.t) :
  NoDup (map RecurringIncome.id done) -> In t done ->
  incomesOf (RecurringIncome.id t) (map generatedIncome done)
  = [generatedIncome t].
Proof.
  induction done as [|a done IH]; intros ND Hin; [contradiction|].
  cbn [map] in ND. inversion ND as [|? ? Hnot ND']; subst.
  cbn [map incomesOf filter generatedIncome Income.recurringId sameId].
  destruct Hin as [->|Hin].
  - rewrite String.eqb_refl. f_equal. apply incomesOf_generated_none.
    intros t' Ht' E. apply Hnot. rewrite <- E. now apply in_map.
  - destruct (String.eqb_spec (RecurringIncome.id a) (RecurringIncome.id t))
      as [E|_].
    + exfalso. apply Hnot. rewrite E. now apply in_map.
    + now apply IH.
Qed.

Section SweepTurns.

Variable now : Date.
Let today := setHoursZero now.

(** Whatever happens to the store calls, every template row the
    handler leaves behind is either the row as it was or the row of a
    completed turn, with the record of that turn in the store. *)
Lemma processRecurringTransactions_turns (w : World) :
  uniqueIds (store w) ->
  let s' := store (snd (processRecurringTransactions now w)) in
  (forall t x, In t (recurringExpense (store w)) ->
     In x (recurringExpense s') ->
     RecurringExpense.id x = RecurringExpense.id t ->
     expenseTurn today (store w) s' t x)
  /\ (forall t x, In t (recurringIncome (store w)) ->
      In x (recurringIncome s') ->
      RecurringIncome.id x = RecurringIncome.id t ->
      incomeTurn today (store w) s' t x).
Proof.
  intros [NDe NDi] s'. unfold s'. clear s'.
  rewrite processRecurringTransactions_flow. fold today.
  destruct (faults w) as [|[] fs] eqn:F.
  2: { cbn [snd store]. split; intros t x Ht Hx K;
         [apply expenseTurn_untouched|apply incomeTurn_untouched]; auto. }
  all: cbn [tl]; cbv zeta;
    match goal with
    | |- context [forOf (dueExpenseBody today) _ _ ?w0] =>
        pose proof (expenseTurnsPhase today w0 NDe) as T1;
        destruct (expensePhase today w0 NDe) as (doneE & _ & A2 & A3 & _);
        cbn zeta in T1; cbn [store] in T1, A2, A3;
        destruct (forOf (dueExpenseBody today) _ 0%nat w0) as [n1 w1|e1 w1]
    end; cbn [worldOf] in T1, A2, A3.
  all: try (cbn [snd]; split; intros t x Ht Hx K;
            [now apply T1|now apply incomeTurn_untouched]).
  all: assert (NDi1 : NoDup (map RecurringIncome.id
                               (recurringIncome (store w1))))
         by (now rewrite A2);
    destruct (faults w1) as [|[] fs1] eqn:F1.
  all: try (cbn [snd store]; split; intros t x Ht Hx K;
            [now apply T1|now apply incomeTurn_untouched]).
  all: cbn [tl]; cbv zeta;
    match goal with
    | |- context [forOf (dueIncomeBody today) _ _ ?w0] =>
        pose proof (incomeTurnsPhase today w0 NDi1) as T2;
        destruct (incomePhase today w0 NDi1) as (doneI & _ & B2 & B3 & _);
        cbn zeta in T2; cbn [store] in T2, B2, B3;
        destruct (forOf (dueIncomeBody today) _ 0%nat w0) as [n2 w2|e2 w2]
    end; cbn [worldOf] in T2, B2, B3; cbn [snd].
  all: split; intros t x Ht Hx K;
    [ rewrite B2 in Hx;
      apply (expenseTurn_transfer today _ (store w1));
      [now apply T1|exact B3]
    | apply (incomeTurn_rebase today _ (store w1));
      [apply T2; [now rewrite A2|exact Hx|exact K]|exact A3] ].
Qed.

(** A sweep that answers 200 ran both loops to their end. *)
Lemma answered_sweep_facts (w : World) :
  uniqueIds (store w) ->
  let r := processRecurringTransactions now w in
  Response.status (fst r) = 200 ->
  exists doneE doneI,
    expenseSweep today (store w) (store (snd r)) doneE
    /\ incomeSweep today (store w) (store (snd r)) doneI
    /\ expenseSweepDone today (store w) (store (snd r)) doneE
    /\ incomeSweepDone today (store w) (store (snd r)) doneI.
Proof.
  intros U r S.
  destruct (processRecurringTransactions_sweep now w U)
    as (doneE & doneI & SE & SI & [(e & Bad)|(_ & DE & DI)]).
  { fold r in Bad. rewrite Bad in S. discriminate S. }
  exists doneE, doneI. auto.
Qed.

(** In a sweep that answers 200 every due expense template has had its
    turn. *)
Lemma answered_sweep_expense (w : World) (t : RecurringExpense.t) :
  uniqueIds (store w) ->
  let r := processRecurringTransactions now w in
  Response.status (fst r) = 200 ->
  In t (recurringExpense (store w)) -> isDueExpense today t = true ->
  exists x,
    sweptExpense today t = inr x
    /\ In x (recurringExpense (store (snd r)))
    /\ expensesOf (RecurringExpense.id t) (expense (store (snd r)))
       = (expensesOf (RecurringExpense.id t) (expense (store w))
          ++ (if endsBefore (RecurringExpense.endDate t) today then []
              else [generatedExpense t]))%list.
Proof.
  intros U r S Ht Due.
  destruct (answered_sweep_facts w U S) as (doneE & doneI & SE & _ & DE & _).
  fold r in SE, DE. destruct SE as (E1 & E2 & E3 & _). destruct DE as (D1 & D2).
  destruct (D2 t Ht Due) as (x & Sx & Hx).
  exists x. split; [assumption|]. split; [assumption|].
  rewrite E1, expensesOf_app. f_equal.
  destruct (endsBefore (RecurringExpense.endDate t) today) eqn:X.
  - apply expensesOf_generated_none.
    intros t' Ht' E. destruct (E3 t' Ht') as (Q1 & _ & Q3).
    rewrite (key_unique RecurringExpense.id _ t' t (proj1 U) Q1 Ht E) in Q3.
    congruence.
  - apply expensesOf_generated_one; [assumption|].
    rewrite D1. apply filter_In. split; [apply filter_In; auto|].
    now rewrite X.
Qed.

Lemma answered_sweep_income (w : World) (t : RecurringIncome.t) :
  uniqueIds (store w) ->
  let r := processRecurringTransactions now w in
  Response.status (fst r) = 200 ->
  In t (recurringIncome (store w)) -> isDueIncome today t = true ->
  exists x,
    sweptIncome today t = inr x
    /\ In x (recurringIncome (store (snd r)))
    /\ incomesOf (RecurringIncome.id t) (income (store (snd r)))
       = (incomesOf (RecurringIncome.id t) (income (store w))
          ++ (if endsBefore (RecurringIncome.endDate t) today then []
              else [generatedIncome t]))%list.
Proof.
  intros U r S Ht Due.
  destruct (answered_sweep_facts w U S) as (doneE & doneI & _ & SI & _ & DI).
  fold r in SI, DI. destruct SI as (E1 & E2 & E3 & _). destruct DI as (D1 & D2).
  destruct (D2 t Ht Due) as (x & Sx & Hx).
  exists x. split; [assumption|]. split; [assumption|].
  rewrite E1, incomesOf_app. f_equal.
  destruct (endsBefore (RecurringIncome.endDate t) today) eqn:X.
  - apply incomesOf_generated_none.
    intros t' Ht' E. destruct (E3 t' Ht') as (Q1 & _ & Q3).
    rewrite (key_unique RecurringIncome.id _ t' t (proj2 U) Q1 Ht E) in Q3.
    congruence.
  - apply incomesOf_generated_one; [assumption|].
    rewrite D1. apply filter_In. split; [apply filter_In; auto|].
    now rewrite X.
Qed.

End SweepTurns.

(** ** Two sweeps in a row *)

(** A template that stands past today is not selected: a sweep leaves
    its row as it was and adds no record pointing back to it. *)
Lemma sweep_leaves_later_templates (now : Date) (w : World) :
  uniqueIds (store w) ->
  let today := setHoursZero now in
  let w' := snd (processRecurringTransactions now w) in
  (forall t, In t (recurringExpense (store w)) ->
     JsDate.lt today (RecurringExpense.nextDate t) ->
     In t (recurringExpense (store w'))
     /\ expensesOf (RecurringExpense.id t) (expense (store w'))
        = expensesOf (RecurringExpense.id t) (expense (store w)))
  /\ (forall t, In t (recurringIncome (store w)) ->
      JsDate.lt today (RecurringIncome.nextDate t) ->
      In t (recurringIncome (store w'))
      /\ incomesOf (RecurringIncome.id t) (income (store w'))
         = incomesOf (RecurringIncome.id t) (income (store w))).
Proof.
  intros U today w'.
  destruct (processRecurringTransactions_sweep now w U)
    as (doneE & doneI & SE & SI & _).
  fold w' today in SE, SI.
  destruct SE as (E1 & E2 & E3 & _ & _ & E6).
  destruct SI as (I1 & I2 & I3 & _ & _ & I6).
  destruct U as [Ue Ui].
  split.
  - intros t Ht Hlt.
    assert (Hnd : isDueExpense today t = false).
    { unfold isDueExpense. rewrite (lt_not_le _ _ Hlt). apply andb_false_r. }
    split; [now apply E6|].
    rewrite E1, expensesOf_app, expensesOf_generated_none; [apply app_nil_r|].
    intros t' Ht' E. destruct (E3 t' Ht') as (Q1 & Q2 & _).
    rewrite (key_unique RecurringExpense.id _ t' t Ue Q1 Ht E) in Q2.
    congruence.
  - intros t Ht Hlt.
    assert (Hnd : isDueIncome today t = false).
    { unfold isDueIncome. rewrite (lt_not_le _ _ Hlt). apply andb_false_r. }
    split; [now apply I6|].
    rewrite I1, incomesOf_app, incomesOf_generated_none; [apply app_nil_r|].
    intros t' Ht' E. destruct (I3 t' Ht') as (Q1 & Q2 & _).
    rewrite (key_unique RecurringIncome.id _ t' t Ui Q1 Ht E) in Q2.
    congruence.
Qed.

Lemma sweep_keeps_ids_unique (now : Date) (w : World) :
  uniqueIds (store w) ->
  uniqueIds (store (snd (processRecurringTransactions now w))).
Proof.
  intros U.
  destruct (processRecurringTransactions_sweep now w U)
    as (dE & dI & SE & SI & _).
  destruct SE as (_ & _ & _ & E4 & _). destruct SI as (_ & _ & _ & I4 & _).
  destruct U as [Ue Ui]. split; [now rewrite E4|now rewrite I4].
Qed.

(** A due template whose row stands past today after the sweep was
    advanced by it: the row carries the date [calculateNextDate] gives
    from the stored [nextDate], and the record of the turn is in the
    store. *)
Lemma advanced_past_today_expense (now : Date) (w : World)
  (t x : RecurringExpense.t) :
  uniqueIds (store w) ->
  let today := setHoursZero now in
  let w1 := snd (processRecurringTransactions now w) in
  In t (recurringExpense (store w)) -> isDueExpense today t = true ->
  In x (recurringExpense (store w1)) ->
  RecurringExpense.id x = RecurringExpense.id t ->
  JsDate.lt today (RecurringExpense.nextDate x) ->
  (exists nd,
     calculateNextDate (RecurringExpense.nextDate t)
       (RecurringExpense.frequency t) = inr nd
     /\ RecurringExpense.nextDate x = nd
     /\ RecurringExpense.isActive x
        = negb (endsBefore (RecurringExpense.endDate t) nd))
  /\ expensesOf (RecurringExpense.id t) (expense (store w1))
     = (expensesOf (RecurringExpense.id t) (expense (store w))
        ++ [generatedExpense t])%list.
Proof.
  intros U today w1 Ht Due Hx K Hlt.
  assert (Late : forall d, JsDate.lt today d ->
            RecurringExpense.nextDate t <> d).
  { intros d Hd E. unfold isDueExpense in Due. rewrite E in Due.
    rewrite (lt_not_le _ _ Hd) in Due. now rewrite andb_false_r in Due. }
  destruct (proj1 (processRecurringTransactions_turns now w U) t x Ht Hx K)
    as [->|(_ & Sx & Ex)]; [now elim (Late _ Hlt)|].
  fold today w1 in Ex. unfold sweptExpense in Sx. fold today in Sx.
  destruct (endsBefore (RecurringExpense.endDate t) today).
  - injection Sx as <-. now elim (Late _ Hlt).
  - destruct (calculateNextDate (RecurringExpense.nextDate t)
                (RecurringExpense.frequency t)) as [e|nd]; [discriminate|].
    injection Sx as <-.
    split; [|exact Ex]. exists nd. split; [reflexivity|split; reflexivity].
Qed.

Lemma advanced_past_today_income (now : Date) (w : World)
  (t x : RecurringIncome.t) :
  uniqueIds (store w) ->
  let today := setHoursZero now in
  let w1 := snd (processRecurringTransactions now w) in
  In t (recurringIncome (store w)) -> isDueIncome today t = true ->
  In x (recurringIncome (store w1)) ->
  RecurringIncome.id x = RecurringIncome.id t ->
  JsDate.lt today (RecurringIncome.nextDate x) ->
  (exists nd,
     calculateNextDate (RecurringIncome.nextDate t)
       (RecurringIncome.frequency t) = inr nd
     /\ RecurringIncome.nextDate x = nd
     /\ RecurringIncome.isActive x
        = negb (endsBefore (RecurringIncome.endDate t) nd))
  /\ incomesOf (RecurringIncome.id t) (income (store w1))
     = (incomesOf (RecurringIncome.id t) (income (store w))
        ++ [generatedIncome t])%list.
Proof.
  intros U today w1 Ht Due Hx K Hlt.
  assert (Late : forall d, JsDate.lt today d ->
            RecurringIncome.nextDate t <> d).
  { intros d Hd E. unfold isDueIncome in Due. rewrite E in Due.
    rewrite (lt_not_le _ _ Hd) in Due. now rewrite andb_false_r in Due. }
  destruct (proj2 (processRecurringTransactions_turns now w U) t x Ht Hx K)
    as [->|(_ & Sx & Ex)]; [now elim (Late _ Hlt)|].
  fold today w1 in Ex. unfold sweptIncome in Sx. fold today in Sx.
  destruct (endsBefore (RecurringIncome.endDate t) today).
  - injection Sx as <-. now elim (Late _ Hlt).
  - destruct (calculateNextDate (RecurringIncome.nextDate t)
                (RecurringIncome.frequency t)) as [e|nd]; [discriminate|].
    injection Sx as <-.
    split; [|exact Ex]. exists nd. split; [reflexivity|split; reflexivity].
Qed.

(** C3: when [processRecurringTransactions] runs twice with the same
    clock reading, whatever store calls fail, a template the first run
    selected and advanced past today is not processed again.  Its row
    after the first run carries the date [calculateNextDate] gives
    from the old [nextDate], and the first run has added exactly one
    record for it; the second run does not select that row, leaves it
    as it is and adds no record, so that after both runs the template
    has one record more than before, not two.  This holds for expense
    and for income templates. *)
Theorem second_sweep_adds_nothing (now : Date) (w : World) :
  uniqueIds (store w) ->
  let today := setHoursZero now in
  let w1 := snd (processRecurringTransactions now w) in
  let w2 := snd (processRecurringTransactions now w1) in
  (forall t x,
     In t (recurringExpense (store w)) -> isDueExpense today t = true ->
     In x (recurringExpense (store w1)) ->
     RecurringExpense.id x = RecurringExpense.id t ->
     JsDate.lt today (RecurringExpense.nextDate x) ->
     (exists nd,
        calculateNextDate (RecurringExpense.nextDate t)
          (RecurringExpense.frequency t) = inr nd
        /\ RecurringExpense.nextDate x = nd
        /\ RecurringExpense.isActive x
           = negb (endsBefore (RecurringExpense.endDate t) nd))
     /\ expensesOf (RecurringExpense.id t) (expense (store w1))
        = (expensesOf (RecurringExpense.id t) (expense (store w))
           ++ [generatedExpense t])%list
     /\ isDueExpense today x = false
     /\ In x (recurringExpense (store w2))
     /\ expensesOf (RecurringExpense.id t) (expense (store w2))
        = (expensesOf (RecurringExpense.id t) (expense (store w))
           ++ [generatedExpense t])%list)
  /\ (forall t x,
      In t (recurringIncome (store w)) -> isDueIncome today t = true ->
      In x (recurringIncome (store w1)) ->
      RecurringIncome.id x = RecurringIncome.id t ->
      JsDate.lt today (RecurringIncome.nextDate x) ->
      (exists nd,
         calculateNextDate (RecurringIncome.nextDate t)
           (RecurringIncome.frequency t) = inr nd
         /\ RecurringIncome.nextDate x = nd
         /\ RecurringIncome.isActive x
            = negb (endsBefore (RecurringIncome.endDate t) nd))
      /\ incomesOf (RecurringIncome.id t) (income (store w1))
         = (incomesOf (RecurringIncome.id t) (income (store w))
            ++ [generatedIncome t])%list
      /\ isDueIncome today x = false
      /\ In x (recurringIncome (store w2))
      /\ incomesOf (RecurringIncome.id t) (income (store w2))
         = (incomesOf (RecurringIncome.id t) (income (store w))
            ++ [generatedIncome t])%list).
Proof.
  intros U today w1 w2.
  pose proof (sweep_keeps_ids_unique now w U) as U1. fold w1 in U1.
  destruct (sweep_leaves_later_templates now w1 U1) as [LE LI].
  fold today w2 in LE, LI.
  split.
  - intros t x Ht Due Hx K Hlt.
    destruct (advanced_past_today_expense now w t x U Ht Due Hx K Hlt)
      as [Adv Rec].
    fold w1 in Rec. destruct (LE x Hx Hlt) as [Keep Same].
    rewrite K in Same.
    split; [exact Adv|]. split; [exact Rec|].
    split.
    { unfold isDueExpense. rewrite (lt_not_le _ _ Hlt). apply andb_false_r. }
    split; [exact Keep|]. now rewrite Same.
  - intros t x Ht Due Hx K Hlt.
    destruct (advanced_past_today_income now w t x U Ht Due Hx K Hlt)
      as [Adv Rec].
    fold w1 in Rec. destruct (LI x Hx Hlt) as [Keep Same].
    rewrite K in Same.
    split; [exact Adv|]. split; [exact Rec|].
    split.
    { unfold isDueIncome. rewrite (lt_not_le _ _ Hlt). apply andb_false_r. }
    split; [exact Keep|]. now rewrite Same.
Qed.

(** ** The last occurrence of a template *)

(** The turn of a template that ends today: the row it is rewritten to
    carries the following date and is inactive. *)
Lemma final_turn_expense (today : Date) (t x : RecurringExpense.t) :
  valid (RecurringExpense.nextDate t) ->
  RecurringExpense.nextDate t = today ->
  RecurringExpense.endDate t = Some (RecurringExpense.nextDate t) ->
  sweptExpense today t = inr x ->
  endsBefore (RecurringExpense.endDate t) today = false
  /\ RecurringExpense.id x = RecurringExpense.id t
  /\ RecurringExpense.isActive x = false
  /\ exists nd,
       calculateNextDate (RecurringExpense.nextDate t)
         (RecurringExpense.frequency t) = inr nd
       /\ JsDate.lt (RecurringExpense.nextDate t) nd
       /\ RecurringExpense.nextDate x = nd.
Proof.
  intros Val Etoday Eend Sx.
  assert (Live : endsBefore (RecurringExpense.endDate t) today = false).
  { rewrite Eend, Etoday. cbn [endsBefore]. apply ltb_irrefl. }
  split; [exact Live|].
  unfold sweptExpense in Sx. rewrite Live in Sx.
  destruct (calculateNextDate (RecurringExpense.nextDate t)
              (RecurringExpense.frequency t)) as [e|nd] eqn:C; [discriminate|].
  destruct (calculateNextDate_advances _ _ _ Val C) as [_ Hlt].
  injection Sx as <-.
  split; [reflexivity|]. split.
  - cbn [advanceExpense RecurringExpense.isActive]. rewrite Eend.
    cbn [endsBefore]. unfold JsDate.lt in Hlt. now rewrite Hlt.
  - exists nd. split; [reflexivity|]. split; [exact Hlt|reflexivity].
Qed.

Lemma final_turn_income (today : Date) (t x : RecurringIncome.t) :
  valid (RecurringIncome.nextDate t) ->
  RecurringIncome.nextDate t = today ->
  RecurringIncome.endDate t = Some (RecurringIncome.nextDate t) ->
  sweptIncome today t = inr x ->
  endsBefore (RecurringIncome.endDate t) today = false
  /\ RecurringIncome.id x = RecurringIncome.id t
  /\ RecurringIncome.isActive x = false
  /\ exists nd,
       calculateNextDate (RecurringIncome.nextDate t)
         (RecurringIncome.frequency t) = inr nd
       /\ JsDate.lt (RecurringIncome.nextDate t) nd
       /\ RecurringIncome.nextDate x = nd.
Proof.
  intros Val Etoday Eend Sx.
  assert (Live : endsBefore (RecurringIncome.endDate t) today = false).
  { rewrite Eend, Etoday. cbn [endsBefore]. apply ltb_irrefl. }
  split; [exact Live|].
  unfold sweptIncome in Sx. rewrite Live in Sx.
  destruct (calculateNextDate (RecurringIncome.nextDate t)
              (RecurringIncome.frequency t)) as [e|nd] eqn:C; [discriminate|].
  destruct (calculateNextDate_advances _ _ _ Val C) as [_ Hlt].
  injection Sx as <-.
  split; [reflexivity|]. split.
  - cbn [advanceIncome RecurringIncome.isActive]. rewrite Eend.
    cbn [endsBefore]. unfold JsDate.lt in Hlt. now rewrite Hlt.
  - exists nd. split; [reflexivity|]. split; [exact Hlt|reflexivity].
Qed.

(** C7, as stated, fails: the sweep stops at the first failure, so a
    template that ends today gets neither its last record nor its
    deactivation when the sweep is cut short before its turn.  First,
    with the record creation of an earlier template rejected by the
    store.  Second, in a world reached through the handlers alone with
    no store call failing: an earlier template whose frequency an
    update has set to the empty string makes [calculateNextDate] throw,
    and the sweep answers 500 before the turn of the template that
    ends today. *)
Lemma final_occurrence_counterexample :
  let w := mkWorld (mkStore [Sample.rent; Sample.course] [] [] [])
             [false; true] in
  let r := processRecurringTransactions Sample.mar10 w in
  let emptyFrequency :=
    ExpenseUpdates.mk None None None None (Some "") None None None None None in
  let courseBody :=
    ExpenseBody.mk (Some (Qmake 99 1)) (Some "Course") (Some "Education")
      (Some "monthly") (Some (mkDate 2025 2 10 0)) None in
  let endOnStart :=
    ExpenseUpdates.mk None None None None None None None
      (Some (Some (mkDate 2025 2 10 0))) None None in
  let v1 := snd (createRecurringExpense "rent" "alice" Sample.rentBody
                   (mkWorld Sample.empty [])) in
  let v2 := snd (updateRecurringExpense "alice" "rent" emptyFrequency v1) in
  let v3 := snd (createRecurringExpense "course" "bob" courseBody v2) in
  let v4 := snd (updateRecurringExpense "bob" "course" endOnStart v3) in
  let q := processRecurringTransactions Sample.mar10 v4 in
  (RecurringExpense.isActive Sample.course = true
   /\ RecurringExpense.nextDate Sample.course = setHoursZero Sample.mar10
   /\ RecurringExpense.endDate Sample.course
      = Some (RecurringExpense.nextDate Sample.course)
   /\ fst r = sweepFailed StoreFailure
   /\ expense (store (snd r)) = []
   /\ recurringExpense (store (snd r)) = [Sample.rent; Sample.course])
  /\ (reachableWith withoutNextDate v4
      /\ faults v4 = []
      /\ exists t,
           In t (recurringExpense (store v4))
           /\ RecurringExpense.id t = "course"
           /\ RecurringExpense.isActive t = true
           /\ RecurringExpense.nextDate t = setHoursZero Sample.mar10
           /\ RecurringExpense.endDate t = Some (RecurringExpense.nextDate t)
           /\ fst q = sweepFailed (InvalidFrequency "")
           /\ expensesOf "course" (expense (store (snd q))) = []
           /\ In t (recurringExpense (store (snd q)))).
Proof.
  intros w r emptyFrequency courseBody endOnStart v1 v2 v3 v4 q.
  split.
  - vm_compute. repeat split; reflexivity.
  - split.
    { unfold v4, v3, v2, v1.
      apply reach_updateExpense; [|reflexivity].
      apply reach_createExpense.
      - apply reach_updateExpense; [|reflexivity].
        apply reach_createExpense; [apply reach_empty|intros []|].
        intros d E. injection E as <-. unfold valid, msPerDay. cbn. lia.
      - vm_compute. intros [H|[]]. discriminate H.
      - intros d E. injection E as <-. unfold valid, msPerDay. cbn. lia. }
    split; [reflexivity|].
    exists (RecurringExpense.mk "course" "bob" (Qmake 99 1) "Course"
              "Education" "monthly" (mkDate 2025 2 10 0) (mkDate 2025 2 10 0)
              (Some (mkDate 2025 2 10 0)) true).
    vm_compute. repeat split; try reflexivity; right; left; reflexivity.
Qed.

(** C7 (amended): for an active template whose [endDate] equals its
    [nextDate], both equal to today, the last record and the
    deactivation go together.  Whatever store calls fail, the sweep
    leaves the row of the template either as it was, or rewritten to
    the following date with [isActive = false], and in that case
    exactly one record has been added for it, dated the old
    [nextDate]: the template is never found deactivated without its
    last record.  When the sweep answers 200 the row is the rewritten
    one.  This holds for expense and for income templates. *)
Theorem final_occurrence_then_inactive (now : Date) (w : World) :
  uniqueIds (store w) ->
  let today := setHoursZero now in
  let r := processRecurringTransactions now w in
  let s' := store (snd r) in
  (forall t,
     In t (recurringExpense (store w)) ->
     RecurringExpense.isActive t = true ->
     valid (RecurringExpense.nextDate t) ->
     RecurringExpense.nextDate t = today ->
     RecurringExpense.endDate t = Some (RecurringExpense.nextDate t) ->
     (forall x, In x (recurringExpense s') ->
        RecurringExpense.id x = RecurringExpense.id t ->
        x = t
        \/ (RecurringExpense.isActive x = false
            /\ (exists nd,
                  calculateNextDate (RecurringExpense.nextDate t)
                    (RecurringExpense.frequency t) = inr nd
                  /\ JsDate.lt (RecurringExpense.nextDate t) nd
                  /\ RecurringExpense.nextDate x = nd)
            /\ expensesOf (RecurringExpense.id t) (expense s')
               = (expensesOf (RecurringExpense.id t) (expense (store w))
                  ++ [generatedExpense t])%list
            /\ Expense.date (generatedExpense t) = RecurringExpense.nextDate t))
     /\ (Response.status (fst r) = 200 ->
         exists x,
           In x (recurringExpense s')
           /\ RecurringExpense.id x = RecurringExpense.id t
           /\ RecurringExpense.isActive x = false
           /\ (exists nd,
                 calculateNextDate (RecurringExpense.nextDate t)
                   (RecurringExpense.frequency t) = inr nd
                 /\ JsDate.lt (RecurringExpense.nextDate t) nd
                 /\ RecurringExpense.nextDate x = nd)
           /\ expensesOf (RecurringExpense.id t) (expense s')
              = (expensesOf (RecurringExpense.id t) (expense (store w))
                 ++ [generatedExpense t])%list
           /\ Expense.date (generatedExpense t) = RecurringExpense.nextDate t))
  /\ (forall t,
      In t (recurringIncome (store w)) ->
      RecurringIncome.isActive t = true ->
      valid (RecurringIncome.nextDate t) ->
      RecurringIncome.nextDate t = today ->
      RecurringIncome.endDate t = Some (RecurringIncome.nextDate t) ->
      (forall x, In x (recurringIncome s') ->
         RecurringIncome.id x = RecurringIncome.id t ->
         x = t
         \/ (RecurringIncome.isActive x = false
             /\ (exists nd,
                   calculateNextDate (RecurringIncome.nextDate t)
                     (RecurringIncome.frequency t) = inr nd
                   /\ JsDate.lt (RecurringIncome.nextDate t) nd
                   /\ RecurringIncome.nextDate x = nd)
             /\ incomesOf (RecurringIncome.id t) (income s')
                = (incomesOf (RecurringIncome.id t) (income (store w))
                   ++ [generatedIncome t])%list
             /\ Income.date (generatedIncome t) = RecurringIncome.nextDate t))
      /\ (Response.status (fst r) = 200 ->
          exists x,
            In x (recurringIncome s')
            /\ RecurringIncome.id x = RecurringIncome.id t
            /\ RecurringIncome.isActive x = false
            /\ (exists nd,
                  calculateNextDate (RecurringIncome.nextDate t)
                    (RecurringIncome.frequency t) = inr nd
                  /\ JsDate.lt (RecurringIncome.nextDate t) nd
                  /\ RecurringIncome.nextDate x = nd)
            /\ incomesOf (RecurringIncome.id t) (income s')
               = (incomesOf (RecurringIncome.id t) (income (store w))
                  ++ [generatedIncome t])%list
            /\ Income.date (generatedIncome t) = RecurringIncome.nextDate t)).
Proof.
  intros U today r s'.
  destruct (processRecurringTransactions_turns now w U) as [TE TI].
  fold today r s' in TE, TI.
  split.
  - intros t Ht Act Val Etoday Eend.
    assert (Due : isDueExpense today t = true).
    { unfold isDueExpense. rewrite Act, Etoday. apply leb_refl. }
    split.
    + intros x Hx K.
      destruct (TE t x Ht Hx K) as [->|(_ & Sx & Ex)]; [now left|].
      right.
      destruct (final_turn_expense today t x Val Etoday Eend Sx)
        as (Live & _ & Off & Next).
      rewrite Live in Ex.
      split; [exact Off|]. split; [exact Next|]. split; [exact Ex|reflexivity].
    + intros S.
      destruct (answered_sweep_expense now w t U S Ht Due) as (x & Sx & Hx & Ex).
      fold today r s' in Sx, Hx, Ex.
      destruct (final_turn_expense today t x Val Etoday Eend Sx)
        as (Live & K & Off & Next).
      rewrite Live in Ex.
      exists x. split; [exact Hx|]. split; [exact K|]. split; [exact Off|].
      split; [exact Next|]. split; [exact Ex|reflexivity].
  - intros t Ht Act Val Etoday Eend.
    assert (Due : isDueIncome today t = true).
    { unfold isDueIncome. rewrite Act, Etoday. apply leb_refl. }
    split.
    + intros x Hx K.
      destruct (TI t x Ht Hx K) as [->|(_ & Sx & Ex)]; [now left|].
      right.
      destruct (final_turn_income today t x Val Etoday Eend Sx)
        as (Live & _ & Off & Next).
      rewrite Live in Ex.
      split; [exact Off|]. split; [exact Next|]. split; [exact Ex|reflexivity].
    + intros S.
      destruct (answered_sweep_income now w t U S Ht Due) as (x & Sx & Hx & Ex).
      fold today r s' in Sx, Hx, Ex.
      destruct (final_turn_income today t x Val Etoday Eend Sx)
        as (Live & K & Off & Next).
      rewrite Live in Ex.
      exists x. split; [exact Hx|]. split; [exact K|]. split; [exact Off|].
      split; [exact Next|]. split; [exact Ex|reflexivity].
Qed.

(** ** A throw inside the expense loop *)

Section ExpenseLoopAbort.

Variable today : Date.

Lemma dueExpenseBody_thrown (t : RecurringExpense.t) (n : nat) (w w' : World)
  (e : Error) :
  dueExpenseBody today t n w = Thrown e w' ->
  recurringExpense (store w') = recurringExpense (store w)
  /\ recurringIncome (store w') = recurringIncome (store w)
  /\ income (store w') = income (store w)
  /\ (expense (store w') = expense (store w)
      \/ expense (store w') = (expense (store w) ++ [generatedExpense t])%list).
Proof.
  intros H.
  destruct (dueExpenseBody_cases today t n w)
    as [(e1 & fs & E)|[(fs & X & E)|[(e1 & fs & X & E)|(nd & fs & X & C & E)]]];
    rewrite E in H; try discriminate H; injection H as _ <-;
    cbn [store setExpense recurringExpense recurringIncome income expense];
    auto.
Qed.

Lemma keys_split (pre post : list RecurringExpense.t) (t : RecurringExpense.t) :
  NoDup (map RecurringExpense.id (pre ++ t :: post)) ->
  NoDup (map RecurringExpense.id pre)
  /\ ~ In (RecurringExpense.id t) (map RecurringExpense.id pre)
  /\ forall u, In u post ->
       RecurringExpense.id u <> RecurringExpense.id t
       /\ ~ In (RecurringExpense.id u) (map RecurringExpense.id pre).
Proof.
  induction pre as [|a pre IH]; cbn [app map]; intros ND.
  - split; [constructor|]. split; [intros []|].
    inversion ND as [|? ? Hnot _]; subst.
    intros u Hu. split; [|intros []].
    intros E. apply Hnot. rewrite <- E. now apply in_map.
  - inversion ND as [|? ? Hnot ND']; subst.
    destruct (IH ND') as (Q1 & Q2 & Q3).
    assert (Ha : forall x, In x (pre ++ t :: post) ->
                 RecurringExpense.id x <> RecurringExpense.id a).
    { intros x Hx E. apply Hnot. rewrite <- E. now apply in_map. }
    split.
    { constructor; [|assumption]. intros Hin. apply Hnot.
      rewrite map_app. apply in_or_app. now left. }
    split.
    { intros [E|Hin]; [|contradiction].
      apply (Ha t); [apply in_or_app; right; now left|now symmetry]. }
    intros u Hu. destruct (Q3 u Hu) as [R1 R2]. split; [assumption|].
    intros [E|Hin]; [|contradiction].
    apply (Ha u); [apply in_or_app; right; now right|now symmetry].
Qed.

(** When the turn of template [t] throws, the loop is left at once:
    the row of [t] is as it was and still due, and the templates
    after it have neither been rewritten nor given a record. *)
Lemma forOf_dueExpense_abort (w0 w1 w2 : World)
  (pre post : list RecurringExpense.t) (t : RecurringExpense.t) (n : nat)
  (e : Error) :
  NoDup (map RecurringExpense.id (recurringExpense (store w0))) ->
  filter (isDueExpense today) (recurringExpense (store w0))
  = (pre ++ t :: post)%list ->
  forOf (dueExpenseBody today) pre 0%nat w0 = Returned n w1 ->
  dueExpenseBody today t n w1 = Thrown e w2 ->
  forOf (dueExpenseBody today) (pre ++ t :: post) 0%nat w0 = Thrown e w2
  /\ (In t (recurringExpense (store w2)) /\ isDueExpense today t = true)
  /\ (forall u, In u post ->
      In u (recurringExpense (store w2))
      /\ isDueExpense today u = true
      /\ expensesOf (RecurringExpense.id u) (expense (store w2))
         = expensesOf (RecurringExpense.id u) (expense (store w0)))
  /\ recurringIncome (store w2) = recurringIncome (store w0)
  /\ income (store w2) = income (store w0).
Proof.
  intros ND Edue Epre Et.
  assert (Hdue : forall x, In x (pre ++ t :: post) ->
            In x (recurringExpense (store w0)) /\ isDueExpense today x = true).
  { intros x Hx. rewrite <- Edue in Hx. now apply filter_In in Hx. }
  assert (NDdue : NoDup (map RecurringExpense.id (pre ++ t :: post))).
  { rewrite <- Edue. now apply NoDup_map_filter. }
  destruct (keys_split pre post t NDdue) as (K1 & K2 & K3).
  destruct (forOf_dueExpense today pre 0%nat w0 K1 ND)
    as (done & P1 & P2 & _ & _ & _ & P6 & P7 & P8 & _).
  { intros x Hx. apply Hdue. apply in_or_app. now left. }
  rewrite Epre in P1, P6, P7, P8. cbn [worldOf] in P1, P6, P7, P8.
  destruct (dueExpenseBody_thrown t n w1 w2 e Et) as (T1 & T2 & T3 & T4).
  split; [now apply (forOf_throw _ pre post t 0%nat n w0 w1 w2 e)|].
  assert (Ht : In t (pre ++ t :: post)) by (apply in_or_app; right; now left).
  split.
  { split; [|now apply Hdue]. rewrite T1. apply P6; [now apply Hdue|assumption]. }
  split; [|split; congruence].
  intros u Hu.
  assert (Hu' : In u (pre ++ t :: post)) by (apply in_or_app; right; now right).
  destruct (K3 u Hu) as [R1 R2].
  split; [rewrite T1; apply P6; [now apply Hdue|assumption]|].
  split; [now apply Hdue|].
  assert (N1 : expensesOf (RecurringExpense.id u) (map generatedExpense done)
               = []).
  { apply expensesOf_generated_none. intros x Hx E. apply R2.
    rewrite <- E. apply in_map. now apply P2. }
  assert (N2 : expensesOf (RecurringExpense.id u) [generatedExpense t] = []).
  { apply (expensesOf_generated_none _ [t]). intros x [<-|[]] E. now apply R1. }
  destruct T4 as [T4|T4]; rewrite T4, P1; rewrite ?expensesOf_app, N1, ?N2;
    now rewrite ?app_nil_r.
Qed.

End ExpenseLoopAbort.

(** ** A throw inside the income loop *)

Section IncomeLoopAbort.

Variable today : Date.

Lemma dueIncomeBody_thrown (t : RecurringIncome.t) (n : nat) (w w' : World)
  (e : Error) :
  dueIncomeBody today t n w = Thrown e w' ->
  recurringIncome (store w') = recurringIncome (store w)
  /\ recurringExpense (store w') = recurringExpense (store w)
  /\ expense (store w') = expense (store w)
  /\ (income (store w') = income (store w)
      \/ income (store w') = (income (store w) ++ [generatedIncome t])%list).
Proof.
  intros H.
  destruct (dueIncomeBody_cases today t n w)
    as [(e1 & fs & E)|[(fs & X & E)|[(e1 & fs & X & E)|(nd & fs & X & C & E)]]];
    rewrite E in H; try discriminate H; injection H as _ <-;
    cbn [store setIncome recurringIncome recurringExpense expense income];
    auto.
Qed.

Lemma income_keys_split (pre post : list RecurringIncome.t) (t : RecurringIncome.t) :
  NoDup (map RecurringIncome.id (pre ++ t :: post)) ->
  NoDup (map RecurringIncome.id pre)
  /\ ~ In (RecurringIncome.id t) (map RecurringIncome.id pre)
  /\ forall u, In u post ->
       RecurringIncome.id u <> RecurringIncome.id t
       /\ ~ In (RecurringIncome.id u) (map RecurringIncome.id pre).
Proof.
  induction pre as [|a pre IH]; cbn [app map]; intros ND.
  - split; [constructor|]. split; [intros []|].
    inversion ND as [|? ? Hnot _]; subst.
    intros u Hu. split; [|intros []].
    intros E. apply Hnot. rewrite <- E. now apply in_map.
  - inversion ND as [|? ? Hnot ND']; subst.
    destruct (IH ND') as (Q1 & Q2 & Q3).
    assert (Ha : forall x, In x (pre ++ t :: post) ->
                 RecurringIncome.id x <> RecurringIncome.id a).
    { intros x Hx E. apply Hnot. rewrite <- E. now apply in_map. }
    split.
    { constructor; [|assumption]. intros Hin. apply Hnot.
      rewrite map_app. apply in_or_app. now left. }
    split.
    { intros [E|Hin]; [|contradiction].
      apply (Ha t); [apply in_or_app; right; now left|now symmetry]. }
    intros u Hu. destruct (Q3 u Hu) as [R1 R2]. split; [assumption|].
    intros [E|Hin]; [|contradiction].
    apply (Ha u); [apply in_or_app; right; now right|now symmetry].
Qed.

(** When the turn of template [t] throws, the loop is left at once:
    the row of [t] is as it was and still due, and the templates
    after it have neither been rewritten nor given a record. *)
Lemma forOf_dueIncome_abort (w0 w1 w2 : World)
  (pre post : list RecurringIncome.t) (t : RecurringIncome.t) (n : nat)
  (e : Error) :
  NoDup (map RecurringIncome.id (recurringIncome (store w0))) ->
  filter (isDueIncome today) (recurringIncome (store w0))
  = (pre ++ t :: post)%list ->
  forOf (dueIncomeBody today) pre 0%nat w0 = Returned n w1 ->
  dueIncomeBody today t n w1 = Thrown e w2 ->
  forOf (dueIncomeBody today) (pre ++ t :: post) 0%nat w0 = Thrown e w2
  /\ (In t (recurringIncome (store w2)) /\ isDueIncome today t = true)
  /\ (forall u, In u post ->
      In u (recurringIncome (store w2))
      /\ isDueIncome today u = true
      /\ incomesOf (RecurringIncome.id u) (income (store w2))
         = incomesOf (RecurringIncome.id u) (income (store w0)))
  /\ recurringExpense (store w2) = recurringExpense (store w0)
  /\ expense (store w2) = expense (store w0).
Proof.
  intros ND Edue Epre Et.
  assert (Hdue : forall x, In x (pre ++ t :: post) ->
            In x (recurringIncome (store w0)) /\ isDueIncome today x = true).
  { intros x Hx. rewrite <- Edue in Hx. now apply filter_In in Hx. }
  assert (NDdue : NoDup (map RecurringIncome.id (pre ++ t :: post))).
  { rewrite <- Edue. now apply NoDup_map_filter. }
  destruct (income_keys_split pre post t NDdue) as (K1 & K2 & K3).
  destruct (forOf_dueIncome today pre 0%nat w0 K1 ND)
    as (done & P1 & P2 & _ & _ & _ & P6 & P7 & P8 & _).
  { intros x Hx. apply Hdue. apply in_or_app. now left. }
  rewrite Epre in P1, P6, P7, P8. cbn [worldOf] in P1, P6, P7, P8.
  destruct (dueIncomeBody_thrown t n w1 w2 e Et) as (T1 & T2 & T3 & T4).
  split; [now apply (forOf_throw _ pre post t 0%nat n w0 w1 w2 e)|].
  assert (Ht : In t (pre ++ t :: post)) by (apply in_or_app; right; now left).
  split.
  { split; [|now apply Hdue]. rewrite T1. apply P6; [now apply Hdue|assumption]. }
  split; [|split; congruence].
  intros u Hu.
  assert (Hu' : In u (pre ++ t :: post)) by (apply in_or_app; right; now right).
  destruct (K3 u Hu) as [R1 R2].
  split; [rewrite T1; apply P6; [now apply Hdue|assumption]|].
  split; [now apply Hdue|].
  assert (N1 : incomesOf (RecurringIncome.id u) (map generatedIncome done)
               = []).
  { apply incomesOf_generated_none. intros x Hx E. apply R2.
    rewrite <- E. apply in_map. now apply P2. }
  assert (N2 : incomesOf (RecurringIncome.id u) [generatedIncome t] = []).
  { apply (incomesOf_generated_none _ [t]). intros x [<-|[]] E. now apply R1. }
  destruct T4 as [T4|T4]; rewrite T4, P1; rewrite ?incomesOf_app, N1, ?N2;
    now rewrite ?app_nil_r.
Qed.

End IncomeLoopAbort.

(** ** Failures during the sweep *)

(** When the record has been created and the update of the template is
    rejected, the turn ends with the record in the store and the
    template table as it was. *)
Lemma dueExpenseBody_update_rejected (today : Date) (t : RecurringExpense.t)
  (n : nat) (s : Store) (fs : list bool) :
  endsBefore (RecurringExpense.endDate t) today = false ->
  includes validFrequencies (RecurringExpense.frequency t) = true ->
  dueExpenseBody today t n (mkWorld s (false :: true :: fs))
  = Thrown StoreFailure
      (mkWorld (setExpense (expense s ++ [generatedExpense t]) s) fs).
Proof.
  intros X V. unfold dueExpenseBody. rewrite X.
  destruct (calculateNextDate_returns (RecurringExpense.nextDate t) _ V)
    as (nd & C).
  cbv beta iota zeta delta
    [bind ret lift prismaCall prisma.expense.create
       prisma.recurringExpense.update store faults tl].
  rewrite C. reflexivity.
Qed.

(** C2 (defect of the code): the record and the advance of the
    template are two separate store calls.  With one due template and
    the template update rejected, the sweep answers 500 having created
    the record while the template keeps its [nextDate]; run again, it
    creates a second record for the same occurrence. *)
Theorem sweep_record_without_advance :
  let w := mkWorld Sample.onlyRent [false; false; true] in
  let r1 := processRecurringTransactions Sample.feb1 w in
  let r2 := processRecurringTransactions Sample.feb1 (snd r1) in
  fst r1 = sweepFailed StoreFailure
  /\ expense (store (snd r1)) = [generatedExpense Sample.rent]
  /\ recurringExpense (store (snd r1)) = [Sample.rent]
  /\ fst r2 = sweepProcessed 1 0 1
  /\ expense (store (snd r2))
     = [generatedExpense Sample.rent; generatedExpense Sample.rent]
  /\ recurringExpense (store (snd r2))
     = [advanceExpense (mkDate 2025 1 28 0) true Sample.rent].
Proof. vm_compute. repeat split; reflexivity. Qed.

(** C6, as stated, fails: with two due templates and the first record
    creation rejected, the sweep answers 500 without counts and the
    second template, though due, is neither given a record nor
    advanced. *)
Lemma sweep_failure_counterexample :
  let s := mkStore [Sample.rent; Sample.gym] [] [] [] in
  let r := processRecurringTransactions Sample.mar10
             (mkWorld s [false; true]) in
  fst r = sweepFailed StoreFailure
  /\ store (snd r) = s
  /\ isDueExpense (setHoursZero Sample.mar10) Sample.gym = true
  /\ ~ (exists a b c, Response.data (fst r) = Processed a b c).
Proof.
  vm_compute. repeat split; try reflexivity.
  intros (a & b & c & H). discriminate H.
Qed.

(** C6 (amended): a failure while one template is processed ends the
    sweep there.  The handler answers 500 with the error and no
    counts, in the world as it was at the throw: the failed template
    is still in its table, due, and the due templates after it are
    untouched and have no record of this run; the templates before it
    keep what was done for them.  This holds for a failure in the
    expense loop and for one in the income loop. *)
Theorem sweep_stops_at_first_failure (now : Date) (w : World) :
  uniqueIds (store w) -> nextCallGoesThrough w = true ->
  let today := setHoursZero now in
  let w0 := mkWorld (store w) (tl (faults w)) in
  (forall pre t post n w1 e w2,
     filter (isDueExpense today) (recurringExpense (store w))
     = (pre ++ t :: post)%list ->
     forOf (dueExpenseBody today) pre 0%nat w0 = Returned n w1 ->
     dueExpenseBody today t n w1 = Thrown e w2 ->
     processRecurringTransactions now w = (sweepFailed e, w2)
     /\ (In t (recurringExpense (store w2)) /\ isDueExpense today t = true)
     /\ (forall u, In u post ->
         In u (recurringExpense (store w2))
         /\ isDueExpense today u = true
         /\ expensesOf (RecurringExpense.id u) (expense (store w2))
            = expensesOf (RecurringExpense.id u) (expense (store w)))
     /\ recurringIncome (store w2) = recurringIncome (store w)
     /\ income (store w2) = income (store w))
  /\ (forall m w1 pre t post n w3 e w4,
      forOf (dueExpenseBody today)
        (filter (isDueExpense today) (recurringExpense (store w))) 0%nat w0
      = Returned m w1 ->
      nextCallGoesThrough w1 = true ->
      filter (isDueIncome today) (recurringIncome (store w1))
      = (pre ++ t :: post)%list ->
      forOf (dueIncomeBody today) pre 0%nat
        (mkWorld (store w1) (tl (faults w1))) = Returned n w3 ->
      dueIncomeBody today t n w3 = Thrown e w4 ->
      processRecurringTransactions now w = (sweepFailed e, w4)
      /\ (In t (recurringIncome (store w4)) /\ isDueIncome today t = true)
      /\ (forall u, In u post ->
          In u (recurringIncome (store w4))
          /\ isDueIncome today u = true
          /\ incomesOf (RecurringIncome.id u) (income (store w4))
             = incomesOf (RecurringIncome.id u) (income (store w)))).
Proof.
  intros [NDe NDi] Go today w0.
  assert (Flow := processRecurringTransactions_flow now w).
  fold today in Flow.
  assert (F : match faults w with true :: _ => False | _ => True end).
  { unfold nextCallGoesThrough in Go. destruct (faults w) as [|[] ?];
      [exact I|discriminate|exact I]. }
  split.
  - intros pre t post n w1 e w2 Edue Epre Et.
    destruct (forOf_dueExpense_abort today w0 w1 w2 pre post t n e NDe Edue
                Epre Et) as (A & B & C & D1 & D2).
    cbn [w0 store] in Edue, A, B, C, D1, D2.
    split; [|auto].
    rewrite Flow. cbv zeta. rewrite Edue. fold w0. rewrite A.
    destruct (faults w) as [|[] ?]; [reflexivity|contradiction|reflexivity].
  - intros m w1 pre t post n w3 e w4 Eexp Go1 Edue Epre Et.
    pose proof (expensePhase today w0 NDe) as P.
    unfold w0 in P. cbn [store] in P. fold w0 in P. rewrite Eexp in P.
    destruct P as (doneE & _ & A2 & A3 & _). cbn [worldOf] in A2, A3.
    assert (NDi1 : NoDup (map RecurringIncome.id (recurringIncome (store w1))))
      by now rewrite A2.
    set (w1' := mkWorld (store w1) (tl (faults w1))) in *.
    destruct (forOf_dueIncome_abort today w1' w3 w4 pre post t n e NDi1 Edue
                Epre Et) as (A & B & C & _).
    cbn [w1' store] in A, B, C.
    split; [|split; [assumption|]].
    + rewrite Flow. cbv zeta. fold w0. rewrite Eexp, Edue. fold w1'. rewrite A.
      unfold nextCallGoesThrough in Go1.
      destruct (faults w) as [|[] ?]; try contradiction;
        destruct (faults w1) as [|[] ?]; try discriminate Go1; reflexivity.
    + intros u Hu. destruct (C u Hu) as (C1 & C2 & C3).
      split; [assumption|]. split; [assumption|]. now rewrite C3, A3.
Qed.

(** ** Witnesses on the sample store *)

Ltac sample_unique :=
  unfold uniqueIds; cbn; split; repeat constructor; cbn; intuition discriminate.

Ltac sample_frequencies :=
  unfold frequenciesValid; cbn; split; intros ? H;
  repeat (destruct H as [<-|H]; [reflexivity|]); destruct H.

Lemma sweep_one_record_per_template_witness :
  let w := mkWorld Sample.templates [] in
  uniqueIds (store w)
  /\ exists newExpenses newIncomes,
       expense (store (snd (processRecurringTransactions Sample.jun15 w)))
       = newExpenses
       /\ income (store (snd (processRecurringTransactions Sample.jun15 w)))
          = newIncomes
       /\ (List.length (expensesOf "rent" newExpenses) <= 1)%nat
       /\ (List.length (incomesOf "salary" newIncomes) <= 1)%nat.
Proof.
  intros w. assert (U : uniqueIds (store w)) by sample_unique.
  split; [exact U|].
  destruct (sweep_one_record_per_template Sample.jun15 w U)
    as (nE & nI & H1 & H2 & H3 & _).
  exists nE, nI. split; [exact H1|]. split; [exact H2|].
  split; [exact (proj1 (H3 "rent"))|exact (proj2 (H3 "salary"))].
Defined.

Lemma second_sweep_adds_nothing_witness :
  let w := mkWorld Sample.templates [] in
  let w1 := snd (processRecurringTransactions Sample.feb1 w) in
  let w2 := snd (processRecurringTransactions Sample.feb1 w1) in
  let rent' :=
    RecurringExpense.mk "rent" "alice" (Qmake 1200 1) "Rent" "Housing"
      "monthly" (mkDate 2025 0 31 0) (mkDate 2025 1 28 0) None true in
  let salary' :=
    RecurringIncome.mk "salary" "alice" (Qmake 5000 1) "Salary" "monthly"
      (mkDate 2025 0 1 0) (mkDate 2025 2 1 0) None true in
  (In rent' (recurringExpense (store w1))
   /\ In rent' (recurringExpense (store w2))
   /\ expensesOf "rent" (expense (store w1)) = [generatedExpense Sample.rent]
   /\ expensesOf "rent" (expense (store w2)) = [generatedExpense Sample.rent])
  /\ (In salary' (recurringIncome (store w1))
      /\ In salary' (recurringIncome (store w2))
      /\ incomesOf "salary" (income (store w1)) = [generatedIncome Sample.salary]
      /\ incomesOf "salary" (income (store w2))
         = [generatedIncome Sample.salary]).
Proof.
  intros w w1 w2 rent' salary'.
  assert (U : uniqueIds (store w)) by sample_unique.
  assert (HE : In rent' (recurringExpense (store w1))) by (left; reflexivity).
  assert (HI : In salary' (recurringIncome (store w1))) by (left; reflexivity).
  destruct (second_sweep_adds_nothing Sample.feb1 w U) as [TE TI].
  destruct (TE Sample.rent rent' (or_introl eq_refl) eq_refl HE eq_refl eq_refl)
    as (_ & E1 & _ & E2 & E3).
  destruct (TI Sample.salary salary' (or_introl eq_refl) eq_refl HI eq_refl
              eq_refl) as (_ & I1 & _ & I2 & I3).
  split.
  - split; [exact HE|]. split; [exact E2|]. split; [exact E1|exact E3].
  - split; [exact HI|]. split; [exact I2|]. split; [exact I1|exact I3].
Defined.

Lemma final_occurrence_then_inactive_witness :
  let grant :=
    RecurringIncome.mk "grant" "bob" (Qmake 250 1) "Grant" "monthly"
      (mkDate 2025 0 10 0) (mkDate 2025 2 10 0) (Some (mkDate 2025 2 10 0))
      true in
  let w := mkWorld (mkStore [Sample.rent; Sample.gym; Sample.course] []
                      [Sample.salary; grant] []) [] in
  let r := processRecurringTransactions Sample.mar10 w in
  Response.status (fst r) = 200
  /\ (exists x,
        In x (recurringExpense (store (snd r)))
        /\ RecurringExpense.id x = "course"
        /\ RecurringExpense.isActive x = false
        /\ (exists nd,
              calculateNextDate (mkDate 2025 2 10 0) "monthly" = inr nd
              /\ JsDate.lt (mkDate 2025 2 10 0) nd
              /\ RecurringExpense.nextDate x = nd)
        /\ expensesOf "course" (expense (store (snd r)))
           = [generatedExpense Sample.course]
        /\ Expense.date (generatedExpense Sample.course) = mkDate 2025 2 10 0)
  /\ (exists x,
        In x (recurringIncome (store (snd r)))
        /\ RecurringIncome.id x = "grant"
        /\ RecurringIncome.isActive x = false
        /\ (exists nd,
              calculateNextDate (mkDate 2025 2 10 0) "monthly" = inr nd
              /\ JsDate.lt (mkDate 2025 2 10 0) nd
              /\ RecurringIncome.nextDate x = nd)
        /\ incomesOf "grant" (income (store (snd r))) = [generatedIncome grant]
        /\ Income.date (generatedIncome grant) = mkDate 2025 2 10 0).
Proof.
  intros grant w r.
  assert (U : uniqueIds (store w)) by sample_unique.
  assert (S : Response.status (fst r) = 200) by reflexivity.
  assert (V : valid (mkDate 2025 2 10 0))
    by (unfold valid, msPerDay; cbn; lia).
  destruct (final_occurrence_then_inactive Sample.mar10 w U) as [TE TI].
  split; [exact S|]. split.
  - exact (proj2 (TE Sample.course (or_intror (or_intror (or_introl eq_refl)))
                    eq_refl V eq_refl eq_refl) S).
  - exact (proj2 (TI grant (or_intror (or_introl eq_refl))
                    eq_refl V eq_refl eq_refl) S).
Defined.

Lemma sweep_stops_at_first_failure_witness :
  let s := mkStore [Sample.rent; Sample.gym] [] [] [] in
  let w := mkWorld s [false; true] in
  uniqueIds (store w) /\ nextCallGoesThrough w = true
  /\ processRecurringTransactions Sample.mar10 w
     = (sweepFailed StoreFailure, mkWorld s [])
  /\ In Sample.gym (recurringExpense s)
  /\ expensesOf "gym" (expense s) = expensesOf "gym" (expense s).
Proof.
  intros s w. assert (U : uniqueIds (store w)) by sample_unique.
  assert (G : nextCallGoesThrough w = true) by reflexivity.
  split; [exact U|]. split; [exact G|].
  destruct (proj1 (sweep_stops_at_first_failure Sample.mar10 w U G)
              [] Sample.rent [Sample.gym] 0%nat (mkWorld s [true])
              StoreFailure (mkWorld s []) eq_refl eq_refl eq_refl)
    as (H1 & _ & H3 & _).
  split; [exact H1|].
  destruct (H3 Sample.gym (or_introl eq_refl)) as (H4 & _ & H5).
  split; [exact H4|exact H5].
Defined.

(** ** Looking a template up by id *)

(** C5, as stated, fails: for a caller who does not own it, an id that
    names nothing and an id that names another owner's template are
    answered differently, by update and by delete. *)
Lemma template_lookup_counterexample :
  let w := mkWorld Sample.templates [] in
  Response.status (fst (updateRecurringExpense "bob" "nothing"
                          Sample.noChange w)) = 404
  /\ Response.status (fst (updateRecurringExpense "bob" "rent"
                             Sample.noChange w)) = 403
  /\ Response.status (fst (deleteRecurringExpense "bob" "nothing" w)) = 404
  /\ Response.status (fst (deleteRecurringExpense "bob" "rent" w)) = 403
  /\ fst (updateRecurringExpense "bob" "nothing" Sample.noChange w)
     <> fst (updateRecurringExpense "bob" "rent" Sample.noChange w)
  /\ fst (deleteRecurringExpense "bob" "nothing" w)
     <> fst (deleteRecurringExpense "bob" "rent" w).
Proof.
  vm_compute. repeat split; try reflexivity; intros H; discriminate H.
Qed.

(** C5 (amended): when the lookup goes through, update and delete
    answer 404 "Recurring expense not found" for an id that names no
    template and 403 "Not authorized ..." for a template of another
    owner; in both cases the store is left as it was. *)
Theorem template_lookup_answers (userId id : string)
  (updates : ExpenseUpdates.t) (w : World) :
  nextCallGoesThrough w = true ->
  let existing :=
    find (fun r => String.eqb (RecurringExpense.id r) id)
      (recurringExpense (store w)) in
  let updated := updateRecurringExpense userId id updates w in
  let deleted := deleteRecurringExpense userId id w in
  (existing = None ->
   fst updated = Response.mk 404 false "Recurring expense not found" NoData
   /\ fst deleted = Response.mk 404 false "Recurring expense not found" NoData
   /\ store (snd updated) = store w /\ store (snd deleted) = store w)
  /\ (forall r, existing = Some r -> RecurringExpense.userId r <> userId ->
      fst updated
      = Response.mk 403 false
          "Not authorized to update this recurring expense" NoData
      /\ fst deleted
         = Response.mk 403 false
             "Not authorized to delete this recurring expense" NoData
      /\ store (snd updated) = store w /\ store (snd deleted) = store w).
Proof.
  intros Go existing updated deleted.
  unfold updated, deleted, updateRecurringExpense, deleteRecurringExpense,
    tryCatch, bind, prisma.recurringExpense.findUnique, prismaCall, ret.
  unfold nextCallGoesThrough in Go. fold existing.
  split.
  - intros E. rewrite E.
    destruct (faults w) as [|[] fs]; try discriminate Go; cbn; auto.
  - intros r E Hr. rewrite E.
    apply String.eqb_neq in Hr.
    destruct (faults w) as [|[] fs]; try discriminate Go;
      cbn [fst snd store]; rewrite Hr; cbn; auto.
Qed.

Lemma template_lookup_answers_witness :
  let w := mkWorld Sample.templates [] in
  nextCallGoesThrough w = true
  /\ fst (updateRecurringExpense "bob" "nothing" Sample.noChange w)
     = Response.mk 404 false "Recurring expense not found" NoData
  /\ fst (updateRecurringExpense "bob" "rent" Sample.noChange w)
     = Response.mk 403 false
         "Not authorized to update this recurring expense" NoData.
Proof.
  intros w. assert (G : nextCallGoesThrough w = true) by reflexivity.
  split; [exact G|]. split.
  - exact (proj1 (proj1 (template_lookup_answers "bob" "nothing"
                           Sample.noChange w G) eq_refl)).
  - refine (proj1 (proj2 (template_lookup_answers "bob" "rent"
                            Sample.noChange w G) Sample.rent eq_refl _)).
    intros H. discriminate H.
Defined.

(** ** What the expense handlers do to the store *)

Section ExpenseHandlers.

(** Case analysis on the innermost scrutinee first. *)
Ltac split_cases :=
  repeat match goal with
    | |- context [match ?x with _ => _ end] =>
        lazymatch x with
        | context [match _ with _ => _ end] => fail
        | _ => destruct x eqn:?
        end
    end.

Lemma createRecurringExpense_cases (newId userId : string)
  (body : ExpenseBody.t) (w : World) :
  let r := createRecurringExpense newId userId body w in
  (store (snd r) = store w /\ Response.status (fst r) <> 201)
  \/ (exists row,
        Response.status (fst r) = 201
        /\ store (snd r)
           = setRecurringExpense (recurringExpense (store w) ++ [row])
               (store w)
        /\ RecurringExpense.id row = newId
        /\ ExpenseBody.startDate body = Some (RecurringExpense.startDate row)
        /\ RecurringExpense.nextDate row = RecurringExpense.startDate row
        /\ RecurringExpense.isActive row = true
        /\ (forall e, RecurringExpense.endDate row = Some e ->
            JsDate.lt (RecurringExpense.startDate row) e)).
Proof.
  cbv zeta.
  unfold createRecurringExpense, tryCatch, bind,
    prisma.recurringExpense.create, prismaCall, ret.
  split_cases; cbn [fst snd store Response.status];
    try (left; split; [reflexivity|discriminate]).
  all: right; eexists; split; [reflexivity|]; split; [reflexivity|];
    cbn [RecurringExpense.id RecurringExpense.startDate
           RecurringExpense.nextDate RecurringExpense.isActive
           RecurringExpense.endDate];
    repeat (split; [reflexivity|]);
    intros e E; try discriminate E; injection E as <-;
    match goal with
    | H : JsDate.leb _ _ = false |- _ =>
        rewrite leb_negb_ltb in H; apply negb_false_iff in H; exact H
    end.
Qed.

Lemma updateRecurringExpense_cases (userId id : string)
  (updates : ExpenseUpdates.t) (w : World) :
  let r := updateRecurringExpense userId id updates w in
  store (snd r) = store w
  \/ store (snd r)
     = setRecurringExpense
         (rewriteRows RecurringExpense.id id
            (applyExpenseUpdates (stripExpenseUpdates updates))
            (recurringExpense (store w)))
         (store w).
Proof.
  cbv zeta.
  unfold updateRecurringExpense, tryCatch, bind,
    prisma.recurringExpense.findUnique, prisma.recurringExpense.update,
    prismaCall, updateWhere, ret.
  split_cases; cbn [fst snd store faults tl]; auto.
Qed.

Lemma deleteRecurringExpense_cases (userId id : string) (w : World) :
  let r := deleteRecurringExpense userId id w in
  store (snd r) = store w
  \/ (recurringExpense (store (snd r))
      = filter (fun r => negb (String.eqb (RecurringExpense.id r) id))
          (recurringExpense (store w))
      /\ recurringIncome (store (snd r)) = recurringIncome (store w)).
Proof.
  cbv zeta.
  unfold deleteRecurringExpense, tryCatch, bind,
    prisma.recurringExpense.findUnique, prisma.recurringExpense.delete,
    prismaCall, deleteWhere, ret.
  split_cases; cbn [fst snd store faults tl setExpense setRecurringExpense
                      recurringExpense recurringIncome]; auto.
Qed.

End ExpenseHandlers.
(** ** What the income handlers do to the store *)

Section IncomeHandlers.

(** Case analysis on the innermost scrutinee first. *)
Ltac split_cases :=
  repeat match goal with
    | |- context [match ?x with _ => _ end] =>
        lazymatch x with
        | context [match _ with _ => _ end] => fail
        | _ => destruct x eqn:?
        end
    end.

Lemma createRecurringIncome_cases (newId userId : string)
  (body : IncomeBody.t) (w : World) :
  let r := createRecurringIncome newId userId body w in
  (store (snd r) = store w /\ Response.status (fst r) <> 201)
  \/ (exists row,
        Response.status (fst r) = 201
        /\ store (snd r)
           = setRecurringIncome (recurringIncome (store w) ++ [row])
               (store w)
        /\ RecurringIncome.id row = newId
        /\ IncomeBody.startDate body = Some (RecurringIncome.startDate row)
        /\ RecurringIncome.nextDate row = RecurringIncome.startDate row
        /\ RecurringIncome.isActive row = true
        /\ (forall e, RecurringIncome.endDate row = Some e ->
            JsDate.lt (RecurringIncome.startDate row) e)).
Proof.
  cbv zeta.
  unfold createRecurringIncome, tryCatch, bind,
    prisma.recurringIncome.create, prismaCall, ret.
  split_cases; cbn [fst snd store Response.status];
    try (left; split; [reflexivity|discriminate]).
  all: right; eexists; split; [reflexivity|]; split; [reflexivity|];
    cbn [RecurringIncome.id RecurringIncome.startDate
           RecurringIncome.nextDate RecurringIncome.isActive
           RecurringIncome.endDate];
    repeat (split; [reflexivity|]);
    intros e E; try discriminate E; injection E as <-;
    match goal with
    | H : JsDate.leb _ _ = false |- _ =>
        rewrite leb_negb_ltb in H; apply negb_false_iff in H; exact H
    end.
Qed.

Lemma updateRecurringIncome_cases (userId id : string)
  (updates : IncomeUpdates.t) (w : World) :
  let r := updateRecurringIncome userId id updates w in
  store (snd r) = store w
  \/ store (snd r)
     = setRecurringIncome
         (rewriteRows RecurringIncome.id id
            (applyIncomeUpdates (stripIncomeUpdates updates))
            (recurringIncome (store w)))
         (store w).
Proof.
  cbv zeta.
  unfold updateRecurringIncome, tryCatch, bind,
    prisma.recurringIncome.findUnique, prisma.recurringIncome.update,
    prismaCall, updateWhere, ret.
  split_cases; cbn [fst snd store faults tl]; auto.
Qed.

Lemma deleteRecurringIncome_cases (userId id : string) (w : World) :
  let r := deleteRecurringIncome userId id w in
  store (snd r) = store w
  \/ (recurringIncome (store (snd r))
      = filter (fun r => negb (String.eqb (RecurringIncome.id r) id))
          (recurringIncome (store w))
      /\ recurringExpense (store (snd r)) = recurringExpense (store w)).
Proof.
  cbv zeta.
  unfold deleteRecurringIncome, tryCatch, bind,
    prisma.recurringIncome.findUnique, prisma.recurringIncome.delete,
    prismaCall, deleteWhere, ret.
  split_cases; cbn [fst snd store faults tl setIncome setRecurringIncome
                      recurringIncome recurringExpense]; auto.
Qed.

End IncomeHandlers.

(** ** Templates stay in order *)

Section InOrder.

Lemma NoDup_keys_snoc {T} (key : T -> string) (rows : list T) (row : T) :
  NoDup (map key rows) -> ~ In (key row) (map key rows) ->
  NoDup (map key (rows ++ [row])).
Proof.
  induction rows as [|a rows IH]; cbn [app map]; intros ND Hnot.
  - constructor; [intros []|constructor].
  - inversion ND as [|? ? Ha ND']; subst. constructor.
    + rewrite map_app. intros Hin. apply in_app_or in Hin.
      destruct Hin as [Hin|[E|[]]]; [contradiction|].
      apply Hnot. now left.
    + apply IH; [assumption|]. intros Hin. apply Hnot. now right.
Qed.

Lemma sweptExpense_inOrder (today : Date) (t x : RecurringExpense.t) :
  expenseInOrder t -> sweptExpense today t = inr x -> expenseInOrder x.
Proof.
  intros (V1 & V2 & L) H. unfold sweptExpense in H.
  destruct (endsBefore (RecurringExpense.endDate t) today).
  - injection H as <-. split; [exact V1|split; [exact V2|exact L]].
  - destruct (calculateNextDate (RecurringExpense.nextDate t)
                (RecurringExpense.frequency t)) as [e|nd] eqn:C;
      [discriminate|].
    injection H as <-.
    destruct (calculateNextDate_advances _ _ _ V2 C) as [Vn Ln].
    unfold expenseInOrder. cbn [advanceExpense RecurringExpense.startDate
                                  RecurringExpense.nextDate].
    split; [assumption|]. split; [assumption|].
    apply lt_le_incl. now apply (le_lt_trans _ (RecurringExpense.nextDate t)).
Qed.

Lemma sweptIncome_inOrder (today : Date) (t x : RecurringIncome.t) :
  incomeInOrder t -> sweptIncome today t = inr x -> incomeInOrder x.
Proof.
  intros (V1 & V2 & L) H. unfold sweptIncome in H.
  destruct (endsBefore (RecurringIncome.endDate t) today).
  - injection H as <-. split; [exact V1|split; [exact V2|exact L]].
  - destruct (calculateNextDate (RecurringIncome.nextDate t)
                (RecurringIncome.frequency t)) as [e|nd] eqn:C;
      [discriminate|].
    injection H as <-.
    destruct (calculateNextDate_advances _ _ _ V2 C) as [Vn Ln].
    unfold incomeInOrder. cbn [advanceIncome RecurringIncome.startDate
                                 RecurringIncome.nextDate].
    split; [assumption|]. split; [assumption|].
    apply lt_le_incl. now apply (le_lt_trans _ (RecurringIncome.nextDate t)).
Qed.

(** The invariant of the worlds reached with update bodies that carry
    no [nextDate]: ids are unique in each template table and every
    template has [startDate <= nextDate]. *)
Lemma reachable_inOrder (w : World) :
  reachableWith withoutNextDate w ->
  uniqueIds (store w) /\ templatesInOrder (store w).
Proof.
  induction 1 as [fs|w fs _ IH|w newId userId body _ IH Fresh Vd
                 |w userId id updates _ IH Ok|w userId id _ IH
                 |w newId userId body _ IH Fresh Vd
                 |w userId id updates _ IH Ok|w userId id _ IH
                 |w now _ IH].
  - split; [split; constructor|split; intros ? []].
  - exact IH.
  - destruct IH as [[Ue Ui] [Oe Oi]].
    destruct (createRecurringExpense_cases newId userId body w)
      as [[-> _]|(row & _ & -> & Kid & Sd & Nd & _)]; [exact (conj (conj Ue Ui) (conj Oe Oi))|].
    split; split;
      cbn [setRecurringExpense recurringExpense recurringIncome]; try assumption.
    + apply NoDup_keys_snoc; [assumption|now rewrite Kid].
    + intros r Hr. apply in_app_or in Hr. destruct Hr as [Hr|[<-|[]]]; [auto|].
      unfold expenseInOrder. rewrite Nd.
      split; [now apply Vd|]. split; [now apply Vd|apply leb_refl].
  - destruct IH as [[Ue Ui] [Oe Oi]].
    destruct (updateRecurringExpense_cases userId id updates w) as [->| ->];
      [exact (conj (conj Ue Ui) (conj Oe Oi))|].
    split; split;
      cbn [setRecurringExpense recurringExpense recurringIncome]; try assumption.
    + now rewrite rewriteRows_keys.
    + intros x Hx. apply rewriteRows_in in Hx.
      destruct Hx as [[Hx _]|(r & Hr & _ & ->)]; [auto|].
      unfold withoutNextDate in Ok.
      unfold expenseInOrder, applyExpenseUpdates, stripExpenseUpdates.
      cbn [RecurringExpense.startDate RecurringExpense.nextDate
             ExpenseUpdates.startDate ExpenseUpdates.nextDate orElse].
      rewrite Ok. cbn [orElse]. now apply Oe.
  - destruct IH as [[Ue Ui] [Oe Oi]].
    destruct (deleteRecurringExpense_cases userId id w) as [->|[E1 E2]];
      [exact (conj (conj Ue Ui) (conj Oe Oi))|].
    unfold uniqueIds, templatesInOrder. rewrite E1, E2.
    split; split; try assumption.
    + now apply NoDup_map_filter.
    + intros r Hr. apply filter_In in Hr. now apply Oe.
  - destruct IH as [[Ue Ui] [Oe Oi]].
    destruct (createRecurringIncome_cases newId userId body w)
      as [[-> _]|(row & _ & -> & Kid & Sd & Nd & _)]; [exact (conj (conj Ue Ui) (conj Oe Oi))|].
    split; split;
      cbn [setRecurringIncome recurringExpense recurringIncome]; try assumption.
    + apply NoDup_keys_snoc; [assumption|now rewrite Kid].
    + intros r Hr. apply in_app_or in Hr. destruct Hr as [Hr|[<-|[]]]; [auto|].
      unfold incomeInOrder. rewrite Nd.
      split; [now apply Vd|]. split; [now apply Vd|apply leb_refl].
  - destruct IH as [[Ue Ui] [Oe Oi]].
    destruct (updateRecurringIncome_cases userId id updates w) as [->| ->];
      [exact (conj (conj Ue Ui) (conj Oe Oi))|].
    split; split;
      cbn [setRecurringIncome recurringExpense recurringIncome]; try assumption.
    + now rewrite rewriteRows_keys.
    + intros x Hx. apply rewriteRows_in in Hx.
      destruct Hx as [[Hx _]|(r & Hr & _ & ->)]; [auto|].
      unfold withoutNextDate in Ok.
      unfold incomeInOrder, applyIncomeUpdates, stripIncomeUpdates.
      cbn [RecurringIncome.startDate RecurringIncome.nextDate
             IncomeUpdates.startDate IncomeUpdates.nextDate orElse].
      rewrite Ok. cbn [orElse]. now apply Oi.
  - destruct IH as [[Ue Ui] [Oe Oi]].
    destruct (deleteRecurringIncome_cases userId id w) as [->|[E1 E2]];
      [exact (conj (conj Ue Ui) (conj Oe Oi))|].
    unfold uniqueIds, templatesInOrder. rewrite E1, E2.
    split; split; try assumption.
    + now apply NoDup_map_filter.
    + intros r Hr. apply filter_In in Hr. now apply Oi.
  - destruct IH as [U [Oe Oi]].
    destruct (processRecurringTransactions_sweep now w U)
      as (dE & dI & SE & SI & _).
    destruct SE as (_ & _ & _ & E4 & E5 & _).
    destruct SI as (_ & _ & _ & I4 & I5 & _).
    destruct U as [Ue Ui].
    split; split.
    + now rewrite E4.
    + now rewrite I4.
    + intros x Hx. destruct (E5 x Hx) as [Hin|(t & Ht & _ & St)]; [auto|].
      apply (sweptExpense_inOrder (setHoursZero now) t); auto.
    + intros x Hx. destruct (I5 x Hx) as [Hin|(t & Ht & _ & St)]; [auto|].
      apply (sweptIncome_inOrder (setHoursZero now) t); auto.
Qed.

End InOrder.

(** C8, as stated, fails: [updateRecurringExpense] strips [userId],
    [startDate] and [createdAt] from the body but writes a [nextDate]
    field as it comes, so the owner can move [nextDate] before
    [startDate]. *)
Lemma update_backdates_counterexample :
  ~ (forall w, reachableWith anyBody w ->
     forall r, In r (recurringExpense (store w)) ->
     JsDate.le (RecurringExpense.startDate r) (RecurringExpense.nextDate r)).
Proof.
  intros H.
  set (w1 := snd (createRecurringExpense "rent" "alice" Sample.rentBody
                    (mkWorld Sample.empty []))).
  set (w2 := snd (updateRecurringExpense "alice" "rent" Sample.backdate w1)).
  assert (R : reachableWith anyBody w2).
  { apply reach_updateExpense; [|exact I].
    apply reach_createExpense; [apply reach_empty|intros []|].
    intros d E. injection E as <-. unfold valid, msPerDay. cbn. lia. }
  specialize (H w2 R
                (RecurringExpense.mk "rent" "alice" (Qmake 1200 1) "Rent"
                   "Housing" "monthly" (mkDate 2025 0 31 0)
                   (mkDate 2020 0 1 0) None true)).
  assert (Hin : In (RecurringExpense.mk "rent" "alice" (Qmake 1200 1) "Rent"
                      "Housing" "monthly" (mkDate 2025 0 31 0)
                      (mkDate 2020 0 1 0) None true)
                  (recurringExpense (store w2))) by (left; reflexivity).
  specialize (H Hin). discriminate H.
Qed.

(** C8 (amended): in every world reached by creating and deleting
    templates, sweeping, and updating with bodies that carry no
    [nextDate] field, every expense and income template has
    [startDate <= nextDate]; and a template that a create request
    adds starts at [nextDate = startDate], active, with an [endDate],
    when it has one, strictly after [startDate]. *)
Theorem templates_stay_in_order (w : World) :
  reachableWith withoutNextDate w ->
  (forall r, In r (recurringExpense (store w)) ->
     JsDate.le (RecurringExpense.startDate r) (RecurringExpense.nextDate r))
  /\ (forall r, In r (recurringIncome (store w)) ->
      JsDate.le (RecurringIncome.startDate r) (RecurringIncome.nextDate r))
  /\ (forall newId userId body,
      let r := createRecurringExpense newId userId body w in
      Response.status (fst r) = 201 ->
      exists row,
        recurringExpense (store (snd r))
        = (recurringExpense (store w) ++ [row])%list
        /\ RecurringExpense.nextDate row = RecurringExpense.startDate row
        /\ RecurringExpense.isActive row = true
        /\ forall e, RecurringExpense.endDate row = Some e ->
                     JsDate.lt (RecurringExpense.startDate row) e)
  /\ (forall newId userId body,
      let r := createRecurringIncome newId userId body w in
      Response.status (fst r) = 201 ->
      exists row,
        recurringIncome (store (snd r))
        = (recurringIncome (store w) ++ [row])%list
        /\ RecurringIncome.nextDate row = RecurringIncome.startDate row
        /\ RecurringIncome.isActive row = true
        /\ forall e, RecurringIncome.endDate row = Some e ->
                     JsDate.lt (RecurringIncome.startDate row) e).
Proof.
  intros R. destruct (reachable_inOrder w R) as [_ [Oe Oi]].
  split; [intros r Hr; now apply Oe|].
  split; [intros r Hr; now apply Oi|].
  split.
  - intros newId userId body r S.
    destruct (createRecurringExpense_cases newId userId body w)
      as [[_ N]|(row & _ & E & _ & _ & Nd & Act & End)]; [contradiction|].
    exists row. fold r in E. rewrite E. cbn [setRecurringExpense recurringExpense].
    auto.
  - intros newId userId body r S.
    destruct (createRecurringIncome_cases newId userId body w)
      as [[_ N]|(row & _ & E & _ & _ & Nd & Act & End)]; [contradiction|].
    exists row. fold r in E. rewrite E. cbn [setRecurringIncome recurringIncome].
    auto.
Qed.

Lemma templates_stay_in_order_witness :
  let w1 := snd (createRecurringExpense "rent" "alice" Sample.rentBody
                   (mkWorld Sample.empty [])) in
  let w2 := snd (processRecurringTransactions Sample.feb1 w1) in
  reachableWith withoutNextDate w2
  /\ In (advanceExpense (mkDate 2025 1 28 0) true Sample.rent)
       (recurringExpense (store w2))
  /\ JsDate.le (mkDate 2025 0 31 0) (mkDate 2025 1 28 0).
Proof.
  intros w1 w2.
  assert (R : reachableWith withoutNextDate w2).
  { apply reach_process.
    apply reach_createExpense; [apply reach_empty|intros []|].
    intros d E. injection E as <-. unfold valid, msPerDay. cbn. lia. }
  assert (Hin : In (advanceExpense (mkDate 2025 1 28 0) true Sample.rent)
                  (recurringExpense (store w2))) by (left; reflexivity).
  split; [exact R|]. split; [exact Hin|].
  exact (proj1 (templates_stay_in_order w2 R) _ Hin).
Defined.

(** * Further properties of the code *)

(** ** [calculateNextDate], the other frequencies *)

Lemma time_ofFields (f : Z * Z * Z) (t : Z) : time (ofFields f t) = t.
Proof. destruct f as [[y m] d]. reflexivity. Qed.

Lemma calculateNextDate_time (d d' : Date) (f : string) :
  calculateNextDate d f = inr d' -> time d' = time d.
Proof.
  unfold calculateNextDate, setDate, setMonth, setFullYear.
  destruct (String.eqb f "daily"); [intros H; injection H as <-; apply time_ofFields|].
  destruct (String.eqb f "weekly"); [intros H; injection H as <-; apply time_ofFields|].
  destruct (String.eqb f "monthly").
  { intros H; injection H as <-.
    destruct (negb _); rewrite !time_ofFields; reflexivity. }
  destruct (String.eqb f "yearly"); [|discriminate].
  intros H; injection H as <-.
  destruct (_ && _); [destruct (negb _)|]; rewrite !time_ofFields; reflexivity.
Qed.

(** X1: with "daily", [calculateNextDate] returns a date of the next
    calendar day: the following day of the month, or the first of the
    next month (of January of the next year after December 31) from
    the last day of a month. *)
Theorem daily_next_calendar_day (d : Date) :
  valid d ->
  exists d',
    calculateNextDate d "daily" = inr d'
    /\ (day d < daysInMonth (year d) (month d) ->
        year d' = year d /\ month d' = month d /\ day d' = day d + 1)
    /\ (lastDayOfMonth d ->
        (year d', month d') = nextMonth (year d) (month d) /\ day d' = 1).
Proof.
  intros Hd. rewrite (calculateNextDate_daily d Hd). eexists.
  split; [reflexivity|].
  destruct Hd as (_ & Hday & _). unfold lastDayOfMonth.
  destruct (Z.leb_spec (day d + 1) (daysInMonth (year d) (month d)));
    cbn [year month day];
    (split; [intros; try lia; auto|intros; try lia]).
  destruct (nextMonth (year d) (month d)). auto.
Qed.

Lemma daily_next_calendar_day_witness :
  exists d',
    calculateNextDate (mkDate 2025 11 31 5) "daily" = inr d'
    /\ (31 < daysInMonth 2025 11 ->
        year d' = 2025 /\ month d' = 11 /\ day d' = 31 + 1)
    /\ (lastDayOfMonth (mkDate 2025 11 31 5) ->
        (year d', month d') = nextMonth 2025 11 /\ day d' = 1).
Proof.
  apply (daily_next_calendar_day (mkDate 2025 11 31 5)).
  unfold valid, msPerDay. cbn. lia.
Defined.

(** X2: with "weekly", [calculateNextDate] returns a date of the
    calendar day seven days later: seven further in the month when it
    fits, and otherwise the overflow carried into the next month. *)
Theorem weekly_seven_days_later (d : Date) :
  valid d ->
  exists d',
    calculateNextDate d "weekly" = inr d'
    /\ (day d + 7 <= daysInMonth (year d) (month d) ->
        year d' = year d /\ month d' = month d /\ day d' = day d + 7)
    /\ (daysInMonth (year d) (month d) < day d + 7 ->
        (year d', month d') = nextMonth (year d) (month d)
        /\ day d' = day d + 7 - daysInMonth (year d) (month d)).
Proof.
  intros Hd. rewrite (calculateNextDate_weekly d Hd). eexists.
  split; [reflexivity|].
  destruct (Z.leb_spec (day d + 7) (daysInMonth (year d) (month d)));
    cbn [year month day];
    (split; [intros; try lia; auto|intros; try lia]).
  destruct (nextMonth (year d) (month d)). auto.
Qed.

Lemma weekly_seven_days_later_witness :
  exists d',
    calculateNextDate (mkDate 2025 1 25 0) "weekly" = inr d'
    /\ (25 + 7 <= daysInMonth 2025 1 ->
        year d' = 2025 /\ month d' = 1 /\ day d' = 25 + 7)
    /\ (daysInMonth 2025 1 < 25 + 7 ->
        (year d', month d') = nextMonth 2025 1
        /\ day d' = 25 + 7 - daysInMonth 2025 1).
Proof.
  apply (weekly_seven_days_later (mkDate 2025 1 25 0)).
  unfold valid, msPerDay. cbn. lia.
Defined.

(** X3: [calculateNextDate] returns a date exactly for the four
    frequencies "daily", "weekly", "monthly" and "yearly"; for any
    other string it throws "Invalid frequency" naming the string. *)
Theorem calculateNextDate_frequency_split (d : Date) (f : string) :
  (includes validFrequencies f = true
   /\ exists d', calculateNextDate d f = inr d')
  \/ (includes validFrequencies f = false
      /\ calculateNextDate d f = inl (InvalidFrequency f)).
Proof.
  destruct (includes validFrequencies f) eqn:V.
  - left. split; [reflexivity|]. now apply calculateNextDate_returns.
  - right. split; [reflexivity|]. now apply calculateNextDate_frequency.
Qed.

(** X4: whatever the frequency, the date [calculateNextDate] returns
    from a date of the years 1 to 9999 falls on a later calendar day:
    midnight of the day it starts from lies before midnight of the day
    it returns.  (The bound on the year keeps the dates inside the
    range of [Date], which the model does not bound.) *)
Theorem calculateNextDate_later_day (d d' : Date) (f : string) :
  valid d -> 1 <= year d <= 9999 -> calculateNextDate d f = inr d' ->
  JsDate.lt (setHoursZero d) (setHoursZero d').
Proof.
  intros Hd _ H. destruct (calculateNextDate_advances d d' f Hd H) as [_ Hlt].
  pose proof (calculateNextDate_time d d' f H) as Ht.
  unfold JsDate.lt, ltb, compare in *.
  cbn [setHoursZero year month day time]. rewrite Ht in Hlt.
  destruct (year d ?= year d'); try assumption.
  destruct (month d ?= month d'); try assumption.
  destruct (day d ?= day d'); try assumption.
  now rewrite Z.compare_refl in Hlt.
Qed.

Lemma calculateNextDate_later_day_witness :
  JsDate.lt (setHoursZero (mkDate 2025 11 28 9))
    (setHoursZero (mkDate 2026 0 4 9)).
Proof.
  apply (calculateNextDate_later_day (mkDate 2025 11 28 9) _ "weekly").
  - unfold valid, msPerDay. cbn. lia.
  - cbn. lia.
  - reflexivity.
Defined.

(** X5: with "monthly" the day of the month never grows, and a day up
    to the 28th is kept: once clamped (January 31 to February 28) the
    series stays on the clamped day (March 28) and does not return to
    the 31st. *)
Theorem monthly_day_never_grows (d d' : Date) :
  valid d -> calculateNextDate d "monthly" = inr d' ->
  day d' <= day d /\ (day d <= 28 -> day d' = day d)
  /\ (year d', month d') = nextMonth (year d) (month d).
Proof.
  intros Hd H. rewrite (calculateNextDate_monthly d Hd) in H.
  injection H as <-. cbn [year month day].
  pose proof (daysInMonth_bounds (fst (nextMonth (year d) (month d)))
                (snd (nextMonth (year d) (month d)))).
  split; [lia|]. split; [lia|]. now destruct (nextMonth (year d) (month d)).
Qed.

Lemma monthly_day_never_grows_witness :
  day (mkDate 2025 2 28 0) <= day (mkDate 2025 1 28 0)
  /\ (day (mkDate 2025 1 28 0) <= 28 ->
      day (mkDate 2025 2 28 0) = day (mkDate 2025 1 28 0))
  /\ (year (mkDate 2025 2 28 0), month (mkDate 2025 2 28 0))
     = nextMonth (year (mkDate 2025 1 28 0)) (month (mkDate 2025 1 28 0)).
Proof.
  apply (monthly_day_never_grows (mkDate 2025 1 28 0) (mkDate 2025 2 28 0)).
  - unfold valid, msPerDay. cbn. lia.
  - reflexivity.
Defined.

(** X6: with "yearly", a date other than a 29th of February or March
    comes back as the same month and day of the next year; March 29
    comes back as March 28 when the next year is not a leap year (the
    leap-year guard of the code fires on March) and as March 29 when
    it is. *)
Theorem yearly_same_day_next_year (d : Date) :
  valid d ->
  (day d <> 29 \/ (month d <> 1 /\ month d <> 2) ->
   calculateNextDate d "yearly"
   = inr (mkDate (year d + 1) (month d) (day d) (time d)))
  /\ (month d = 2 -> day d = 29 ->
      calculateNextDate d "yearly"
      = inr (mkDate (year d + 1) 2
               (if isLeapYear (year d + 1) then 29 else 28) (time d))).
Proof.
  intros Hd. rewrite (calculateNextDate_yearly d Hd). split.
  - intros H.
    destruct (Z.eqb_spec (month d) 1), (Z.eqb_spec (month d) 2),
      (Z.eqb_spec (day d) 29); cbn [andb]; try reflexivity; lia.
  - intros -> ->. cbn [Z.eqb Pos.eqb andb].
    destruct (isLeapYear (year d + 1)); reflexivity.
Qed.

Lemma yearly_same_day_next_year_witness :
  calculateNextDate (mkDate 2024 2 29 0) "yearly" = inr (mkDate 2025 2 28 0).
Proof.
  refine (proj2 (yearly_same_day_next_year (mkDate 2024 2 29 0) _)
            eq_refl eq_refl).
  unfold valid, msPerDay. cbn. lia.
Defined.

(** ** Creating an expense template *)

(** Case analysis on the innermost scrutinee first. *)
Ltac innermost_cases :=
  repeat match goal with
    | |- context [match ?x with _ => _ end] =>
        lazymatch x with
        | context [match _ with _ => _ end] => fail
        | _ => destruct x eqn:?
        end
    end.

(** X7: [createRecurringExpense] either answers 201 having added
    exactly one template, which carries the new id, the caller as
    owner, the frequency and dates of the body, one of the four
    frequencies, [nextDate = startDate], [isActive = true] and an
    [endDate], if any, strictly after [startDate]; or it answers 400
    or 500 and leaves the store as it was. *)
Theorem createRecurringExpense_outcome (newId userId : string)
  (body : ExpenseBody.t) (w : World) :
  let r := createRecurringExpense newId userId body w in
  (Response.status (fst r) = 201
   /\ exists row,
        Response.data (fst r) = ExpenseTemplate row
        /\ store (snd r)
           = setRecurringExpense (recurringExpense (store w) ++ [row])
               (store w)
        /\ RecurringExpense.id row = newId
        /\ RecurringExpense.userId row = userId
        /\ ExpenseBody.frequency body = Some (RecurringExpense.frequency row)
        /\ ExpenseBody.startDate body = Some (RecurringExpense.startDate row)
        /\ ExpenseBody.endDate body = RecurringExpense.endDate row
        /\ includes validFrequencies (RecurringExpense.frequency row) = true
        /\ RecurringExpense.nextDate row = RecurringExpense.startDate row
        /\ RecurringExpense.isActive row = true
        /\ (forall e, RecurringExpense.endDate row = Some e ->
            JsDate.lt (RecurringExpense.startDate row) e))
  \/ ((Response.status (fst r) = 400 \/ Response.status (fst r) = 500)
      /\ Response.success (fst r) = false
      /\ store (snd r) = store w).
Proof.
  cbv zeta.
  unfold createRecurringExpense, tryCatch, bind,
    prisma.recurringExpense.create, prismaCall, ret.
  innermost_cases;
    cbn [fst snd store Response.status Response.success Response.data];
    try (right; split; [left; reflexivity|split; reflexivity]);
    try (right; split; [right; reflexivity|split; reflexivity]).
  all: left; split; [reflexivity|]; eexists;
    split; [reflexivity|]; split; [reflexivity|];
    cbn [RecurringExpense.id RecurringExpense.userId RecurringExpense.amount
           RecurringExpense.frequency RecurringExpense.startDate
           RecurringExpense.nextDate RecurringExpense.isActive
           RecurringExpense.endDate];
    do 5 (split; [reflexivity|]);
    (split; [match goal with
             | H : negb (includes _ _) = false |- _ =>
                 apply negb_false_iff in H; exact H
             end|]);
    do 2 (split; [reflexivity|]);
    intros e E; try discriminate E; injection E as <-;
    match goal with
    | H : JsDate.leb _ _ = false |- _ =>
        rewrite leb_negb_ltb in H; apply negb_false_iff in H; exact H
    end.
Qed.

(** ** Creating an income template *)

(** X8: [createRecurringIncome] either answers 201 having added
    exactly one template, which carries the new id, the caller as
    owner, the frequency and dates of the body, one of the four
    frequencies, [nextDate = startDate], [isActive = true] and an
    [endDate], if any, strictly after [startDate]; or it answers 400
    or 500 and leaves the store as it was. *)
Theorem createRecurringIncome_outcome (newId userId : string)
  (body : IncomeBody.t) (w : World) :
  let r := createRecurringIncome newId userId body w in
  (Response.status (fst r) = 201
   /\ exists row,
        Response.data (fst r) = IncomeTemplate row
        /\ store (snd r)
           = setRecurringIncome (recurringIncome (store w) ++ [row])
               (store w)
        /\ RecurringIncome.id row = newId
        /\ RecurringIncome.userId row = userId
        /\ IncomeBody.frequency body = Some (RecurringIncome.frequency row)
        /\ IncomeBody.startDate body = Some (RecurringIncome.startDate row)
        /\ IncomeBody.endDate body = RecurringIncome.endDate row
        /\ includes validFrequencies (RecurringIncome.frequency row) = true
        /\ RecurringIncome.nextDate row = RecurringIncome.startDate row
        /\ RecurringIncome.isActive row = true
        /\ (forall e, RecurringIncome.endDate row = Some e ->
            JsDate.lt (RecurringIncome.startDate row) e))
  \/ ((Response.status (fst r) = 400 \/ Response.status (fst r) = 500)
      /\ Response.success (fst r) = false
      /\ store (snd r) = store w).
Proof.
  cbv zeta.
  unfold createRecurringIncome, tryCatch, bind,
    prisma.recurringIncome.create, prismaCall, ret.
  innermost_cases;
    cbn [fst snd store Response.status Response.success Response.data];
    try (right; split; [left; reflexivity|split; reflexivity]);
    try (right; split; [right; reflexivity|split; reflexivity]).
  all: left; split; [reflexivity|]; eexists;
    split; [reflexivity|]; split; [reflexivity|];
    cbn [RecurringIncome.id RecurringIncome.userId RecurringIncome.amount
           RecurringIncome.frequency RecurringIncome.startDate
           RecurringIncome.nextDate RecurringIncome.isActive
           RecurringIncome.endDate];
    do 5 (split; [reflexivity|]);
    (split; [match goal with
             | H : negb (includes _ _) = false |- _ =>
                 apply negb_false_iff in H; exact H
             end|]);
    do 2 (split; [reflexivity|]);
    intros e E; try discriminate E; injection E as <-;
    match goal with
    | H : JsDate.leb _ _ = false |- _ =>
        rewrite leb_negb_ltb in H; apply negb_false_iff in H; exact H
    end.
Qed.

(** ** Updating and deleting an expense template *)

Section ExpenseOwner.


Lemma rewriteRows_same {T} (key : T -> string) (k : string) (f : T -> T)
  (rows : list T) :
  (forall r, f r = r) -> rewriteRows key k f rows = rows.
Proof.
  intros H. unfold rewriteRows. rewrite <- (map_id rows) at 2.
  apply map_ext. intros r. destruct (String.eqb (key r) k); auto.
Qed.

Lemma setRecurringExpense_same (s : Store) :
  setRecurringExpense (recurringExpense s) s = s.
Proof. destruct s; reflexivity. Qed.

(** The store changes under an update only when the row found by id
    belongs to the caller. *)
Lemma updateRecurringExpense_owner_cases (userId id : string)
  (updates : ExpenseUpdates.t) (w : World) :
  let r := updateRecurringExpense userId id updates w in
  store (snd r) = store w
  \/ (exists existing,
        find (fun r => String.eqb (RecurringExpense.id r) id)
          (recurringExpense (store w)) = Some existing
        /\ RecurringExpense.userId existing = userId
        /\ store (snd r)
           = setRecurringExpense
               (rewriteRows RecurringExpense.id id
                  (applyExpenseUpdates (stripExpenseUpdates updates))
                  (recurringExpense (store w)))
               (store w)).
Proof.
  cbv zeta.
  unfold updateRecurringExpense, tryCatch, bind,
    prisma.recurringExpense.findUnique, prisma.recurringExpense.update,
    prismaCall, updateWhere, ret.
  innermost_cases; cbn [fst snd store faults tl]; auto.
  all: right; eexists; split; [reflexivity|]; split; [|reflexivity];
    match goal with
    | H : negb (String.eqb _ _) = false |- _ =>
        apply negb_false_iff in H; apply String.eqb_eq in H; exact H
    end.
Qed.

Lemma deleteRecurringExpense_owner_cases (userId id : string) (w : World) :
  let r := deleteRecurringExpense userId id w in
  store (snd r) = store w
  \/ (exists existing,
        find (fun r => String.eqb (RecurringExpense.id r) id)
          (recurringExpense (store w)) = Some existing
        /\ RecurringExpense.userId existing = userId
        /\ store (snd r)
           = mkStore
               (filter (fun r => negb (String.eqb (RecurringExpense.id r) id))
                  (recurringExpense (store w)))
               (map (detachExpense id) (expense (store w)))
               (recurringIncome (store w)) (income (store w))).
Proof.
  cbv zeta.
  unfold deleteRecurringExpense, tryCatch, bind,
    prisma.recurringExpense.findUnique, prisma.recurringExpense.delete,
    prismaCall, deleteWhere, ret.
  innermost_cases; cbn [fst snd store faults tl]; auto.
  all: right; eexists; split; [reflexivity|]; split; [|reflexivity];
    match goal with
    | H : negb (String.eqb _ _) = false |- _ =>
        apply negb_false_iff in H; apply String.eqb_eq in H; exact H
    end.
Qed.

(** The update of the owner when no store call fails and the body
    passes the checks. *)
Lemma updateRecurringExpense_quiet (userId id : string)
  (updates : ExpenseUpdates.t) (s : Store) (existing : RecurringExpense.t) :
  find (fun r => String.eqb (RecurringExpense.id r) id) (recurringExpense s)
  = Some existing ->
  RecurringExpense.userId existing = userId ->
  match ExpenseUpdates.frequency updates with
  | Some f => negb (isEmpty f) && negb (includes validFrequencies f)
  | None => false
  end = false ->
  match ExpenseUpdates.amount updates with
  | Some a => Qle_bool a 0
  | None => false
  end = false ->
  updateRecurringExpense userId id updates (mkWorld s [])
  = (Response.mk 200 true "Recurring expense updated successfully"
       (ExpenseTemplate
          (applyExpenseUpdates (stripExpenseUpdates updates) existing)),
     mkWorld
       (setRecurringExpense
          (rewriteRows RecurringExpense.id id
             (applyExpenseUpdates (stripExpenseUpdates updates))
             (recurringExpense s)) s) []).
Proof.
  intros F O Vf Va.
  unfold updateRecurringExpense, tryCatch, bind,
    prisma.recurringExpense.findUnique, prisma.recurringExpense.update,
    prismaCall, updateWhere, ret.
  cbn [store faults tl]. rewrite F.
  rewrite O, String.eqb_refl. cbn [negb]. rewrite Vf, Va.
  cbn [store faults tl]. rewrite F. reflexivity.
Qed.

Lemma deleteRecurringExpense_quiet (userId id : string) (s : Store)
  (existing : RecurringExpense.t) :
  find (fun r => String.eqb (RecurringExpense.id r) id) (recurringExpense s)
  = Some existing ->
  RecurringExpense.userId existing = userId ->
  deleteRecurringExpense userId id (mkWorld s [])
  = (Response.mk 200 true "Recurring expense deleted successfully" NoData,
     mkWorld
       (mkStore
          (filter (fun r => negb (String.eqb (RecurringExpense.id r) id))
             (recurringExpense s))
          (map (detachExpense id) (expense s))
          (recurringIncome s) (income s)) []).
Proof.
  intros F O.
  unfold deleteRecurringExpense, tryCatch, bind,
    prisma.recurringExpense.findUnique, prisma.recurringExpense.delete,
    prismaCall, deleteWhere, ret.
  cbn [store faults tl]. rewrite F.
  rewrite O, String.eqb_refl. cbn [negb].
  cbn [store faults tl]. rewrite F. reflexivity.
Qed.

End ExpenseOwner.


(** X10: update and delete never touch a template owned by someone
    other than the caller: in a store with unique ids, such a row is
    in the table afterwards exactly as it was. *)
Theorem other_owners_templates_untouched (userId id : string)
  (updates : ExpenseUpdates.t) (w : World) (r : RecurringExpense.t) :
  uniqueIds (store w) ->
  In r (recurringExpense (store w)) ->
  RecurringExpense.userId r <> userId ->
  In r (recurringExpense
          (store (snd (updateRecurringExpense userId id updates w))))
  /\ In r (recurringExpense (store (snd (deleteRecurringExpense userId id w)))).
Proof.
  intros [Ue _] Hr Ho.
  assert (K : forall existing,
            find (fun r => String.eqb (RecurringExpense.id r) id)
              (recurringExpense (store w)) = Some existing ->
            RecurringExpense.userId existing = userId ->
            RecurringExpense.id r <> id).
  { intros existing F O E. apply find_key_some in F. destruct F as [Hin Hk].
    apply Ho. rewrite <- O. f_equal.
    apply (key_unique RecurringExpense.id _ r existing Ue Hr Hin). congruence. }
  split.
  - destruct (updateRecurringExpense_owner_cases userId id updates w)
      as [->|(existing & F & O & ->)]; [assumption|].
    cbn [setRecurringExpense recurringExpense].
    apply rewriteRows_other; [assumption|]. now apply (K existing).
  - destruct (deleteRecurringExpense_owner_cases userId id w)
      as [->|(existing & F & O & ->)]; [assumption|].
    cbn [recurringExpense]. apply filter_In. split; [assumption|].
    apply negb_true_iff. apply String.eqb_neq. now apply (K existing).
Qed.

Lemma other_owners_templates_untouched_witness :
  In Sample.course
    (recurringExpense
       (store (snd (updateRecurringExpense "alice" "course" Sample.backdate
                      (mkWorld Sample.templates [])))))
  /\ In Sample.course
       (recurringExpense
          (store (snd (deleteRecurringExpense "alice" "course"
                         (mkWorld Sample.templates []))))).
Proof.
  apply (other_owners_templates_untouched "alice" "course" Sample.backdate
           (mkWorld Sample.templates []) Sample.course).
  - sample_unique.
  - right; right; left; reflexivity.
  - intros H; discriminate H.
Defined.

(** X11: an update by the owner whose body carries a non-empty
    frequency outside the four, or an amount of zero or less, is
    answered 400 and changes nothing. *)
Theorem update_rejects_bad_fields (userId id : string)
  (updates : ExpenseUpdates.t) (w : World) (existing : RecurringExpense.t) :
  nextCallGoesThrough w = true ->
  find (fun r => String.eqb (RecurringExpense.id r) id)
    (recurringExpense (store w)) = Some existing ->
  RecurringExpense.userId existing = userId ->
  (exists f, ExpenseUpdates.frequency updates = Some f /\ f <> ""
             /\ includes validFrequencies f = false)
  \/ (exists a, ExpenseUpdates.amount updates = Some a /\ Qle_bool a 0 = true) ->
  let r := updateRecurringExpense userId id updates w in
  Response.status (fst r) = 400 /\ Response.success (fst r) = false
  /\ store (snd r) = store w.
Proof.
  intros Go F O Bad. cbv zeta.
  unfold updateRecurringExpense, tryCatch, bind,
    prisma.recurringExpense.findUnique, prismaCall, ret.
  unfold nextCallGoesThrough in Go. rewrite F.
  assert (E : negb (String.eqb (RecurringExpense.userId existing) userId)
              = false) by (rewrite O, String.eqb_refl; reflexivity).
  destruct Bad as [(f & Ef & Ne & Vf)|(a & Ea & Va)].
  - assert (B : negb (isEmpty f) && negb (includes validFrequencies f) = true).
    { unfold isEmpty. apply String.eqb_neq in Ne. now rewrite Ne, Vf. }
    destruct (faults w) as [|[] fs]; try discriminate Go;
      cbn [fst snd store]; rewrite E, Ef, B; auto.
  - destruct (faults w) as [|[] fs]; try discriminate Go;
      cbn [fst snd store]; rewrite E, Ea, Va;
      destruct (match ExpenseUpdates.frequency updates with
                | Some f => _ | None => false end); auto.
Qed.

Lemma update_rejects_bad_fields_witness :
  let bad := ExpenseUpdates.mk None (Some (Qmake 0 1)) None None
               (Some "hourly") None None None None None in
  let r := updateRecurringExpense "alice" "rent" bad
             (mkWorld Sample.templates []) in
  Response.status (fst r) = 400 /\ Response.success (fst r) = false
  /\ store (snd r) = Sample.templates.
Proof.
  intros bad.
  apply (update_rejects_bad_fields "alice" "rent" bad
           (mkWorld Sample.templates []) Sample.rent);
    try reflexivity.
  left. exists "hourly". split; [reflexivity|].
  split; [intros H; discriminate H|reflexivity].
Defined.

(** X12: pausing or resuming, an update by the owner with [isActive]
    alone, rewrites that flag and nothing else: the stored [nextDate]
    is kept, so a resumed template is due exactly when that stored
    date is not after today. *)
Theorem toggle_keeps_schedule (userId id : string) (b : bool) (s : Store)
  (existing : RecurringExpense.t) :
  find (fun r => String.eqb (RecurringExpense.id r) id) (recurringExpense s)
  = Some existing ->
  RecurringExpense.userId existing = userId ->
  let r := updateRecurringExpense userId id (onlyIsActive b) (mkWorld s []) in
  fst r = Response.mk 200 true "Recurring expense updated successfully"
            (ExpenseTemplate (withIsActive b existing))
  /\ store (snd r)
     = setRecurringExpense
         (rewriteRows RecurringExpense.id id (withIsActive b)
            (recurringExpense s)) s
  /\ RecurringExpense.nextDate (withIsActive b existing)
     = RecurringExpense.nextDate existing
  /\ forall today,
       isDueExpense today (withIsActive b existing)
       = b && JsDate.leb (RecurringExpense.nextDate existing) today.
Proof.
  intros F O r. unfold r.
  rewrite (updateRecurringExpense_quiet userId id (onlyIsActive b) s existing
             F O eq_refl eq_refl).
  cbn [fst snd store]. repeat split.
Qed.

Lemma toggle_keeps_schedule_witness :
  let r := updateRecurringExpense "alice" "rent" (onlyIsActive false)
             (mkWorld Sample.templates []) in
  fst r = Response.mk 200 true "Recurring expense updated successfully"
            (ExpenseTemplate (withIsActive false Sample.rent))
  /\ store (snd r)
     = setRecurringExpense
         (rewriteRows RecurringExpense.id "rent" (withIsActive false)
            (recurringExpense Sample.templates)) Sample.templates
  /\ RecurringExpense.nextDate (withIsActive false Sample.rent)
     = RecurringExpense.nextDate Sample.rent
  /\ forall today,
       isDueExpense today (withIsActive false Sample.rent)
       = false && JsDate.leb (RecurringExpense.nextDate Sample.rent) today.
Proof.
  apply (toggle_keeps_schedule "alice" "rent" false Sample.templates
           Sample.rent); reflexivity.
Defined.

(** X13: an update by the owner with an empty body answers 200 with the
    template as it is and leaves the store unchanged. *)
Theorem empty_update_changes_nothing (userId id : string) (s : Store)
  (existing : RecurringExpense.t) :
  find (fun r => String.eqb (RecurringExpense.id r) id) (recurringExpense s)
  = Some existing ->
  RecurringExpense.userId existing = userId ->
  updateRecurringExpense userId id Sample.noChange (mkWorld s [])
  = (Response.mk 200 true "Recurring expense updated successfully"
       (ExpenseTemplate existing), mkWorld s []).
Proof.
  intros F O.
  rewrite (updateRecurringExpense_quiet userId id Sample.noChange s existing
             F O eq_refl eq_refl).
  assert (I : forall r, applyExpenseUpdates
                          (stripExpenseUpdates Sample.noChange) r = r)
    by (intros [? ? ? ? ? ? ? ? ? ?]; reflexivity).
  rewrite I, (rewriteRows_same _ _ _ _ I), setRecurringExpense_same.
  reflexivity.
Qed.

Lemma empty_update_changes_nothing_witness :
  updateRecurringExpense "alice" "rent" Sample.noChange
    (mkWorld Sample.templates [])
  = (Response.mk 200 true "Recurring expense updated successfully"
       (ExpenseTemplate Sample.rent), mkWorld Sample.templates []).
Proof.
  apply (empty_update_changes_nothing "alice" "rent" Sample.templates
           Sample.rent); reflexivity.
Defined.

(** ** Deleting, and creating then deleting *)

Lemma detachExpense_fields (k : string) (e : Expense.t) :
  Expense.userId (detachExpense k e) = Expense.userId e
  /\ Expense.amount (detachExpense k e) = Expense.amount e
  /\ Expense.description (detachExpense k e) = Expense.description e
  /\ Expense.category (detachExpense k e) = Expense.category e
  /\ Expense.date (detachExpense k e) = Expense.date e
  /\ Expense.isRecurring (detachExpense k e) = Expense.isRecurring e
  /\ Expense.recurringId (detachExpense k e)
     = if sameId (Expense.recurringId e) k then None else Expense.recurringId e.
Proof.
  unfold detachExpense. destruct (sameId (Expense.recurringId e) k);
    repeat split.
Qed.

(** X14: a delete by the owner, when its store calls go through,
    removes the template and no generated record: the expense table
    keeps every record in place with its owner, amount, description,
    category, date and [isRecurring] flag; the records that pointed to
    the template have their [recurringId] set to null, the others keep
    theirs; the income tables are left alone. *)
Theorem delete_keeps_generated_records (userId id : string) (s : Store)
  (existing : RecurringExpense.t) :
  find (fun r => String.eqb (RecurringExpense.id r) id) (recurringExpense s)
  = Some existing ->
  RecurringExpense.userId existing = userId ->
  let r := deleteRecurringExpense userId id (mkWorld s []) in
  let s' := store (snd r) in
  Response.status (fst r) = 200
  /\ ~ In id (map RecurringExpense.id (recurringExpense s'))
  /\ (forall t, In t (recurringExpense s) -> RecurringExpense.id t <> id ->
      In t (recurringExpense s'))
  /\ expense s' = map (detachExpense id) (expense s)
  /\ List.length (expense s') = List.length (expense s)
  /\ expensesOf id (expense s') = []
  /\ recurringIncome s' = recurringIncome s /\ income s' = income s.
Proof.
  intros F O r s'. unfold s', r.
  rewrite (deleteRecurringExpense_quiet userId id s existing F O).
  cbn [fst snd store Response.status recurringExpense expense recurringIncome
         income].
  split; [reflexivity|]. split.
  { intros Hin. apply in_map_iff in Hin. destruct Hin as (t & E & Ht).
    apply filter_In in Ht. destruct Ht as [_ Ht].
    rewrite E, String.eqb_refl in Ht. discriminate Ht. }
  split.
  { intros t Ht Hk. apply filter_In. split; [assumption|].
    apply negb_true_iff. now apply String.eqb_neq. }
  split; [reflexivity|]. split; [apply length_map|].
  split; [|split; reflexivity].
  induction (expense s) as [|e es IH]; [reflexivity|].
  cbn [map expensesOf filter]. fold (expensesOf id (map (detachExpense id) es)).
  rewrite IH. unfold detachExpense at 1.
  destruct (sameId (Expense.recurringId e) id) eqn:X;
    [reflexivity|now rewrite X].
Qed.

Lemma delete_keeps_generated_records_witness :
  let s := mkStore [Sample.rent; Sample.gym]
             [generatedExpense Sample.rent; generatedExpense Sample.gym] [] [] in
  let s' := store (snd (deleteRecurringExpense "alice" "rent" (mkWorld s []))) in
  expense s'
  = [detachExpense "rent" (generatedExpense Sample.rent);
     generatedExpense Sample.gym]
  /\ expensesOf "rent" (expense s') = []
  /\ In Sample.gym (recurringExpense s').
Proof.
  intros s.
  destruct (delete_keeps_generated_records "alice" "rent" s Sample.rent
              eq_refl eq_refl) as (_ & _ & H3 & H4 & _ & H6 & _).
  split; [exact H4|]. split; [exact H6|].
  apply H3; [right; left; reflexivity|intros H; discriminate H].
Defined.

Section CreateDelete.

Lemma find_snoc_fresh {T} (key : T -> string) (rows : list T) (row : T) :
  ~ In (key row) (map key rows) ->
  find (fun r => String.eqb (key r) (key row)) (rows ++ [row]) = Some row.
Proof.
  induction rows as [|a rows IH]; cbn [app map find]; intros H.
  - now rewrite String.eqb_refl.
  - destruct (String.eqb_spec (key a) (key row)) as [E|_].
    + exfalso. apply H. now left.
    + apply IH. intros Hin. apply H. now right.
Qed.

Lemma filter_snoc_fresh {T} (key : T -> string) (rows : list T) (row : T) :
  ~ In (key row) (map key rows) ->
  filter (fun r => negb (String.eqb (key r) (key row))) (rows ++ [row]) = rows.
Proof.
  induction rows as [|a rows IH]; cbn [app map filter]; intros H.
  - now rewrite String.eqb_refl.
  - destruct (String.eqb_spec (key a) (key row)) as [E|_].
    + exfalso. apply H. now left.
    + cbn [negb]. f_equal. apply IH. intros Hin. apply H. now right.
Qed.

Lemma createRecurringExpense_quiet (newId userId : string)
  (body : ExpenseBody.t) (s : Store) :
  let r := createRecurringExpense newId userId body (mkWorld s []) in
  Response.status (fst r) = 201 ->
  exists row,
    RecurringExpense.id row = newId /\ RecurringExpense.userId row = userId
    /\ snd r
       = mkWorld (setRecurringExpense (recurringExpense s ++ [row]) s) [].
Proof.
  cbv zeta.
  unfold createRecurringExpense, tryCatch, bind,
    prisma.recurringExpense.create, prismaCall, ret.
  cbn [store faults tl].
  innermost_cases; cbn [fst snd Response.status]; intros H;
    try discriminate H.
  all: try match goal with
         | H : faults _ = _ :: _ |- _ => cbn in H; discriminate H
         end.
  all: eexists; split; [|split].
  all: try reflexivity.
  all: reflexivity.
Qed.

End CreateDelete.

(** X15: creating a template and then deleting it, as the same user and
    with no store call failing, gives back the store as it was,
    provided the new id is not in the table and no record points to
    it. *)
Theorem create_then_delete_restores (newId userId : string)
  (body : ExpenseBody.t) (s : Store) :
  ~ In newId (map RecurringExpense.id (recurringExpense s)) ->
  (forall e, In e (expense s) -> sameId (Expense.recurringId e) newId = false) ->
  let created := createRecurringExpense newId userId body (mkWorld s []) in
  Response.status (fst created) = 201 ->
  deleteRecurringExpense userId newId (snd created)
  = (Response.mk 200 true "Recurring expense deleted successfully" NoData,
     mkWorld s []).
Proof.
  intros Fresh NoRef created S. unfold created in *. clear created.
  destruct (createRecurringExpense_quiet newId userId body s S)
    as (row & Kid & Ko & ->).
  rewrite <- Kid in Fresh |- *.
  rewrite (deleteRecurringExpense_quiet userId (RecurringExpense.id row) _ row).
  - cbn [setRecurringExpense recurringExpense expense recurringIncome income].
    rewrite (filter_snoc_fresh RecurringExpense.id _ _ Fresh).
    assert (E : map (detachExpense (RecurringExpense.id row)) (expense s)
                = expense s).
    { rewrite <- (map_id (expense s)) at 2. apply map_ext_in.
      intros e He. unfold detachExpense. rewrite Kid. now rewrite (NoRef e He). }
    rewrite E. destruct s; reflexivity.
  - cbn [setRecurringExpense recurringExpense].
    now apply find_snoc_fresh.
  - assumption.
Qed.

Lemma create_then_delete_restores_witness :
  deleteRecurringExpense "alice" "rent"
    (snd (createRecurringExpense "rent" "alice" Sample.rentBody
            (mkWorld Sample.empty [])))
  = (Response.mk 200 true "Recurring expense deleted successfully" NoData,
     mkWorld Sample.empty []).
Proof.
  apply (create_then_delete_restores "rent" "alice" Sample.rentBody
           Sample.empty).
  - intros [].
  - intros e [].
  - reflexivity.
Defined.

(** ** More on the sweep *)

Section SweepFacts.

Variable now : Date.
Let today := setHoursZero now.

(** A sweep in which no store call fails, over valid frequencies. *)
Lemma quiet_sweep_facts (w : World) :
  faults w = [] -> uniqueIds (store w) -> frequenciesValid (store w) ->
  let r := processRecurringTransactions now w in
  Response.status (fst r) = 200
  /\ exists doneE doneI,
       expenseSweep today (store w) (store (snd r)) doneE
       /\ incomeSweep today (store w) (store (snd r)) doneI
       /\ expenseSweepDone today (store w) (store (snd r)) doneE
       /\ incomeSweepDone today (store w) (store (snd r)) doneI.
Proof.
  intros F U V r.
  destruct (processRecurringTransactions_quiet now w F U V) as (a & b & c & Q).
  split; [unfold r; now rewrite Q|].
  destruct (processRecurringTransactions_sweep now w U)
    as (doneE & doneI & SE & SI & [(e & Bad)|(_ & DE & DI)]).
  { rewrite Q in Bad. discriminate Bad. }
  exists doneE, doneI. auto.
Qed.

Lemma filter_none {T} (p : T -> bool) (l : list T) :
  (forall x, In x l -> p x = false) -> filter p l = [].
Proof.
  induction l as [|a l IH]; intros H; [reflexivity|].
  cbn [filter]. rewrite (H a) by now left.
  apply IH. intros x Hx. apply H. now right.
Qed.

Lemma sweptExpense_fields (t x : RecurringExpense.t) :
  sweptExpense today t = inr x ->
  RecurringExpense.id x = RecurringExpense.id t
  /\ RecurringExpense.userId x = RecurringExpense.userId t
  /\ RecurringExpense.amount x = RecurringExpense.amount t
  /\ RecurringExpense.description x = RecurringExpense.description t
  /\ RecurringExpense.category x = RecurringExpense.category t
  /\ RecurringExpense.frequency x = RecurringExpense.frequency t
  /\ RecurringExpense.startDate x = RecurringExpense.startDate t
  /\ RecurringExpense.endDate x = RecurringExpense.endDate t.
Proof.
  unfold sweptExpense.
  destruct (endsBefore (RecurringExpense.endDate t) today);
    [|destruct (calculateNextDate _ _); [discriminate|]];
    intros H; injection H as <-; repeat split.
Qed.

Lemma sweptIncome_fields (t x : RecurringIncome.t) :
  sweptIncome today t = inr x ->
  RecurringIncome.id x = RecurringIncome.id t
  /\ RecurringIncome.userId x = RecurringIncome.userId t
  /\ RecurringIncome.amount x = RecurringIncome.amount t
  /\ RecurringIncome.source x = RecurringIncome.source t
  /\ RecurringIncome.frequency x = RecurringIncome.frequency t
  /\ RecurringIncome.startDate x = RecurringIncome.startDate t
  /\ RecurringIncome.endDate x = RecurringIncome.endDate t.
Proof.
  unfold sweptIncome.
  destruct (endsBefore (RecurringIncome.endDate t) today);
    [|destruct (calculateNextDate _ _); [discriminate|]];
    intros H; injection H as <-; repeat split.
Qed.

End SweepFacts.

(** X16: a paused template is never selected: whatever its [nextDate]
    and whatever store calls fail, a sweep leaves an inactive expense
    or income template as it was and adds no record that points to
    it. *)
Theorem sweep_skips_inactive (now : Date) (w : World) :
  uniqueIds (store w) ->
  let s' := store (snd (processRecurringTransactions now w)) in
  (forall t, In t (recurringExpense (store w)) ->
     RecurringExpense.isActive t = false ->
     In t (recurringExpense s')
     /\ expensesOf (RecurringExpense.id t) (expense s')
        = expensesOf (RecurringExpense.id t) (expense (store w)))
  /\ (forall t, In t (recurringIncome (store w)) ->
      RecurringIncome.isActive t = false ->
      In t (recurringIncome s')
      /\ incomesOf (RecurringIncome.id t) (income s')
         = incomesOf (RecurringIncome.id t) (income (store w))).
Proof.
  intros U s'. unfold s'.
  destruct (processRecurringTransactions_sweep now w U)
    as (doneE & doneI & SE & SI & _).
  destruct SE as (E1 & _ & E3 & _ & _ & E6).
  destruct SI as (I1 & _ & I3 & _ & _ & I6).
  destruct U as [Ue Ui].
  split.
  - intros t Ht Off.
    assert (Hnd : isDueExpense (setHoursZero now) t = false)
      by (unfold isDueExpense; now rewrite Off).
    split; [now apply E6|].
    rewrite E1, expensesOf_app, expensesOf_generated_none; [apply app_nil_r|].
    intros t' Ht' E. destruct (E3 t' Ht') as (Q1 & Q2 & _).
    rewrite (key_unique RecurringExpense.id _ t' t Ue Q1 Ht E) in Q2.
    congruence.
  - intros t Ht Off.
    assert (Hnd : isDueIncome (setHoursZero now) t = false)
      by (unfold isDueIncome; now rewrite Off).
    split; [now apply I6|].
    rewrite I1, incomesOf_app, incomesOf_generated_none; [apply app_nil_r|].
    intros t' Ht' E. destruct (I3 t' Ht') as (Q1 & Q2 & _).
    rewrite (key_unique RecurringIncome.id _ t' t Ui Q1 Ht E) in Q2.
    congruence.
Qed.

Lemma sweep_skips_inactive_witness :
  let s := mkStore [withIsActive false Sample.rent; Sample.gym] [] [] [] in
  let s' := store (snd (processRecurringTransactions Sample.jun15
                          (mkWorld s []))) in
  In (withIsActive false Sample.rent) (recurringExpense s')
  /\ expensesOf "rent" (expense s') = expensesOf "rent" (expense s).
Proof.
  intros s.
  refine (proj1 (sweep_skips_inactive Sample.jun15 (mkWorld s []) _)
            (withIsActive false Sample.rent) (or_introl eq_refl) eq_refl).
  sample_unique.
Defined.

(** X17: the expiry check comes first: in a sweep that answers 200, a
    due expense template whose [endDate] lies before today is found
    with [isActive = false] and its [nextDate] unchanged, and no
    record has been added for it. *)
Theorem sweep_deactivates_expired (now : Date) (w : World)
  (t : RecurringExpense.t) :
  uniqueIds (store w) ->
  In t (recurringExpense (store w)) ->
  isDueExpense (setHoursZero now) t = true ->
  endsBefore (RecurringExpense.endDate t) (setHoursZero now) = true ->
  let r := processRecurringTransactions now w in
  Response.status (fst r) = 200 ->
  exists x,
    In x (recurringExpense (store (snd r)))
    /\ RecurringExpense.id x = RecurringExpense.id t
    /\ RecurringExpense.isActive x = false
    /\ RecurringExpense.nextDate x = RecurringExpense.nextDate t
    /\ expensesOf (RecurringExpense.id t) (expense (store (snd r)))
       = expensesOf (RecurringExpense.id t) (expense (store w)).
Proof.
  intros U Ht Due Exp r S.
  destruct (answered_sweep_expense now w t U S Ht Due) as (x & Sx & Hx & Ex).
  fold r in Hx, Ex. rewrite Exp, app_nil_r in Ex.
  unfold sweptExpense in Sx. rewrite Exp in Sx. injection Sx as <-.
  exists (deactivateExpense t).
  split; [exact Hx|]. split; [reflexivity|]. split; [reflexivity|].
  split; [reflexivity|exact Ex].
Qed.

Lemma sweep_deactivates_expired_witness :
  let r := processRecurringTransactions Sample.jun15
             (mkWorld Sample.templates []) in
  exists x,
    In x (recurringExpense (store (snd r)))
    /\ RecurringExpense.id x = "course"
    /\ RecurringExpense.isActive x = false
    /\ RecurringExpense.nextDate x = mkDate 2025 2 10 0
    /\ expensesOf "course" (expense (store (snd r)))
       = expensesOf "course" (expense Sample.templates).
Proof.
  apply (sweep_deactivates_expired Sample.jun15 (mkWorld Sample.templates [])
           Sample.course); try reflexivity.
  - sample_unique.
  - right; right; left; reflexivity.
Defined.

(** X18: the regular turn: in a sweep that answers 200, a due expense
    template that has not expired has got exactly one new record, made
    from it and dated its stored [nextDate], and its row carries the
    date [calculateNextDate] gives from that [nextDate]; it is active
    unless that date lies after its [endDate]. *)
Theorem sweep_advances_one_period (now : Date) (w : World)
  (t : RecurringExpense.t) :
  uniqueIds (store w) ->
  In t (recurringExpense (store w)) ->
  isDueExpense (setHoursZero now) t = true ->
  endsBefore (RecurringExpense.endDate t) (setHoursZero now) = false ->
  let r := processRecurringTransactions now w in
  Response.status (fst r) = 200 ->
  exists nd x,
    calculateNextDate (RecurringExpense.nextDate t)
      (RecurringExpense.frequency t) = inr nd
    /\ In x (recurringExpense (store (snd r)))
    /\ RecurringExpense.id x = RecurringExpense.id t
    /\ RecurringExpense.nextDate x = nd
    /\ RecurringExpense.isActive x
       = negb (endsBefore (RecurringExpense.endDate t) nd)
    /\ expensesOf (RecurringExpense.id t) (expense (store (snd r)))
       = (expensesOf (RecurringExpense.id t) (expense (store w))
          ++ [generatedExpense t])%list
    /\ Expense.date (generatedExpense t) = RecurringExpense.nextDate t
    /\ Expense.amount (generatedExpense t) = RecurringExpense.amount t
    /\ Expense.userId (generatedExpense t) = RecurringExpense.userId t.
Proof.
  intros U Ht Due Live r S.
  destruct (answered_sweep_expense now w t U S Ht Due) as (x & Sx & Hx & Ex).
  fold r in Hx, Ex. rewrite Live in Ex.
  unfold sweptExpense in Sx. rewrite Live in Sx.
  destruct (calculateNextDate (RecurringExpense.nextDate t)
              (RecurringExpense.frequency t)) as [e|nd]; [discriminate|].
  injection Sx as <-.
  exists nd, (advanceExpense nd
                (negb (endsBefore (RecurringExpense.endDate t) nd)) t).
  split; [reflexivity|]. split; [exact Hx|].
  do 3 (split; [reflexivity|]). split; [exact Ex|].
  split; [reflexivity|]. split; reflexivity.
Qed.

Lemma sweep_advances_one_period_witness :
  let r := processRecurringTransactions Sample.jun15
             (mkWorld Sample.templates []) in
  exists nd x,
    calculateNextDate (mkDate 2025 0 31 0) "monthly" = inr nd
    /\ In x (recurringExpense (store (snd r)))
    /\ RecurringExpense.id x = "rent"
    /\ RecurringExpense.nextDate x = nd
    /\ RecurringExpense.isActive x = negb (endsBefore None nd)
    /\ expensesOf "rent" (expense (store (snd r)))
       = (expensesOf "rent" (expense Sample.templates)
          ++ [generatedExpense Sample.rent])%list
    /\ Expense.date (generatedExpense Sample.rent) = mkDate 2025 0 31 0
    /\ Expense.amount (generatedExpense Sample.rent) = Qmake 1200 1
    /\ Expense.userId (generatedExpense Sample.rent) = "alice".
Proof.
  apply (sweep_advances_one_period Sample.jun15 (mkWorld Sample.templates [])
           Sample.rent); try reflexivity.
  - sample_unique.
  - left; reflexivity.
Defined.

(** X19: a sweep never adds, removes or reorders templates and writes
    only [nextDate] and [isActive]: whatever store calls fail, the ids
    of both template tables read the same afterwards, and every row
    agrees with a row of the old table on id, owner, amount,
    description (source), category, frequency, start date and end
    date. *)
Theorem sweep_keeps_template_identity (now : Date) (w : World) :
  uniqueIds (store w) ->
  let s' := store (snd (processRecurringTransactions now w)) in
  map RecurringExpense.id (recurringExpense s')
  = map RecurringExpense.id (recurringExpense (store w))
  /\ map RecurringIncome.id (recurringIncome s')
     = map RecurringIncome.id (recurringIncome (store w))
  /\ (forall x, In x (recurringExpense s') ->
      exists t, In t (recurringExpense (store w))
        /\ RecurringExpense.id x = RecurringExpense.id t
        /\ RecurringExpense.userId x = RecurringExpense.userId t
        /\ RecurringExpense.amount x = RecurringExpense.amount t
        /\ RecurringExpense.description x = RecurringExpense.description t
        /\ RecurringExpense.category x = RecurringExpense.category t
        /\ RecurringExpense.frequency x = RecurringExpense.frequency t
        /\ RecurringExpense.startDate x = RecurringExpense.startDate t
        /\ RecurringExpense.endDate x = RecurringExpense.endDate t)
  /\ (forall x, In x (recurringIncome s') ->
      exists t, In t (recurringIncome (store w))
        /\ RecurringIncome.id x = RecurringIncome.id t
        /\ RecurringIncome.userId x = RecurringIncome.userId t
        /\ RecurringIncome.amount x = RecurringIncome.amount t
        /\ RecurringIncome.source x = RecurringIncome.source t
        /\ RecurringIncome.frequency x = RecurringIncome.frequency t
        /\ RecurringIncome.startDate x = RecurringIncome.startDate t
        /\ RecurringIncome.endDate x = RecurringIncome.endDate t).
Proof.
  intros U s'. unfold s'.
  destruct (processRecurringTransactions_sweep now w U)
    as (doneE & doneI & SE & SI & _).
  destruct SE as (_ & _ & _ & E4 & E5 & _).
  destruct SI as (_ & _ & _ & I4 & I5 & _).
  split; [assumption|]. split; [assumption|]. split.
  - intros x Hx. destruct (E5 x Hx) as [Hin|(t & Ht & _ & St)].
    + exists x. repeat split; assumption.
    + exists t. split; [assumption|].
      now apply (sweptExpense_fields now t x).
  - intros x Hx. destruct (I5 x Hx) as [Hin|(t & Ht & _ & St)].
    + exists x. repeat split; assumption.
    + exists t. split; [assumption|].
      now apply (sweptIncome_fields now t x).
Qed.

Lemma sweep_keeps_template_identity_witness :
  let s' := store (snd (processRecurringTransactions Sample.jun15
                          (mkWorld Sample.templates [false; false; true]))) in
  map RecurringExpense.id (recurringExpense s') = ["rent"; "gym"; "course"]
  /\ map RecurringIncome.id (recurringIncome s') = ["salary"; "bonus"].
Proof.
  intros s'.
  assert (U : uniqueIds (store (mkWorld Sample.templates [false; false; true])))
    by sample_unique.
  destruct (sweep_keeps_template_identity Sample.jun15
              (mkWorld Sample.templates [false; false; true]) U)
    as (H1 & H2 & _).
  split; [exact H1|exact H2].
Defined.

(** X20: a sweep never moves a template back and never reactivates
    one: whatever store calls fail, over templates with valid dates
    every row afterwards has a [nextDate] not before the one its
    template had, and is active only if its template was. *)
Theorem sweep_never_goes_back (now : Date) (w : World) :
  uniqueIds (store w) ->
  (forall t, In t (recurringExpense (store w)) ->
     valid (RecurringExpense.nextDate t)) ->
  (forall t, In t (recurringIncome (store w)) ->
     valid (RecurringIncome.nextDate t)) ->
  let s' := store (snd (processRecurringTransactions now w)) in
  (forall x, In x (recurringExpense s') ->
     exists t, In t (recurringExpense (store w))
       /\ RecurringExpense.id x = RecurringExpense.id t
       /\ JsDate.le (RecurringExpense.nextDate t) (RecurringExpense.nextDate x)
       /\ (RecurringExpense.isActive x = true ->
           RecurringExpense.isActive t = true))
  /\ (forall x, In x (recurringIncome s') ->
      exists t, In t (recurringIncome (store w))
        /\ RecurringIncome.id x = RecurringIncome.id t
        /\ JsDate.le (RecurringIncome.nextDate t) (RecurringIncome.nextDate x)
        /\ (RecurringIncome.isActive x = true ->
            RecurringIncome.isActive t = true)).
Proof.
  intros U Ve Vi s'. unfold s'.
  destruct (processRecurringTransactions_sweep now w U)
    as (doneE & doneI & SE & SI & _).
  destruct SE as (_ & _ & _ & _ & E5 & _).
  destruct SI as (_ & _ & _ & _ & I5 & _).
  split.
  - intros x Hx. destruct (E5 x Hx) as [Hin|(t & Ht & Due & St)].
    + exists x. split; [assumption|]. split; [reflexivity|].
      split; [apply leb_refl|auto].
    + exists t. split; [assumption|].
      assert (Act : RecurringExpense.isActive t = true).
      { unfold isDueExpense in Due. now apply andb_true_iff in Due. }
      unfold sweptExpense in St.
      destruct (endsBefore (RecurringExpense.endDate t) (setHoursZero now)).
      * injection St as <-. split; [reflexivity|].
        split; [apply leb_refl|auto].
      * destruct (calculateNextDate (RecurringExpense.nextDate t)
                    (RecurringExpense.frequency t)) as [e|nd] eqn:C;
          [discriminate|].
        injection St as <-. split; [reflexivity|].
        destruct (calculateNextDate_advances _ _ _ (Ve t Ht) C) as [_ L].
        split; [now apply lt_le_incl|auto].
  - intros x Hx. destruct (I5 x Hx) as [Hin|(t & Ht & Due & St)].
    + exists x. split; [assumption|]. split; [reflexivity|].
      split; [apply leb_refl|auto].
    + exists t. split; [assumption|].
      assert (Act : RecurringIncome.isActive t = true).
      { unfold isDueIncome in Due. now apply andb_true_iff in Due. }
      unfold sweptIncome in St.
      destruct (endsBefore (RecurringIncome.endDate t) (setHoursZero now)).
      * injection St as <-. split; [reflexivity|].
        split; [apply leb_refl|auto].
      * destruct (calculateNextDate (RecurringIncome.nextDate t)
                    (RecurringIncome.frequency t)) as [e|nd] eqn:C;
          [discriminate|].
        injection St as <-. split; [reflexivity|].
        destruct (calculateNextDate_advances _ _ _ (Vi t Ht) C) as [_ L].
        split; [now apply lt_le_incl|auto].
Qed.

Ltac sample_valid :=
  cbn; intros ? H;
  repeat (destruct H as [<-|H]; [unfold valid, msPerDay; cbn; lia|]);
  destruct H.

Lemma sweep_never_goes_back_witness :
  let w := mkWorld Sample.templates [] in
  let s' := store (snd (processRecurringTransactions Sample.feb1 w)) in
  exists t, In t (recurringExpense (store w))
    /\ RecurringExpense.id
         (advanceExpense (mkDate 2025 1 28 0) true Sample.rent)
       = RecurringExpense.id t
    /\ JsDate.le (RecurringExpense.nextDate t)
         (RecurringExpense.nextDate
            (advanceExpense (mkDate 2025 1 28 0) true Sample.rent))
    /\ (RecurringExpense.isActive
          (advanceExpense (mkDate 2025 1 28 0) true Sample.rent) = true ->
        RecurringExpense.isActive t = true).
Proof.
  intros w.
  refine (proj1 (sweep_never_goes_back Sample.feb1 w _ _ _)
            (advanceExpense (mkDate 2025 1 28 0) true Sample.rent)
            (or_introl eq_refl)).
  - sample_unique.
  - sample_valid.
  - sample_valid.
Defined.

(** X21: when a sweep answers 200, [expensesCreated] and
    [incomesCreated] are the numbers of records it added to the two
    tables and [totalProcessed] is the number of templates that were
    due, those deactivated without a record included; so the two
    counts together never exceed [totalProcessed]. *)
Theorem sweep_counts (now : Date) (w : World) :
  uniqueIds (store w) ->
  let r := processRecurringTransactions now w in
  Response.status (fst r) = 200 ->
  exists newExpenses newIncomes,
    expense (store (snd r)) = (expense (store w) ++ newExpenses)%list
    /\ income (store (snd r)) = (income (store w) ++ newIncomes)%list
    /\ Response.data (fst r)
       = Processed (List.length newExpenses) (List.length newIncomes)
           (List.length (filter (isDueExpense (setHoursZero now))
                           (recurringExpense (store w)))
            + List.length (filter (isDueIncome (setHoursZero now))
                             (recurringIncome (store w))))
    /\ (List.length newExpenses
        <= List.length (filter (isDueExpense (setHoursZero now))
                          (recurringExpense (store w))))%nat
    /\ (List.length newIncomes
        <= List.length (filter (isDueIncome (setHoursZero now))
                          (recurringIncome (store w))))%nat.
Proof.
  intros U r S.
  destruct (processRecurringTransactions_sweep now w U)
    as (doneE & doneI & SE & SI & [(e & Bad)|(Q & DE & DI)]).
  { fold r in Bad. rewrite Bad in S. discriminate S. }
  fold r in SE, SI, Q, DE, DI.
  destruct SE as (E1 & _). destruct SI as (I1 & _).
  destruct DE as (D1 & _). destruct DI as (J1 & _).
  exists (map generatedExpense doneE), (map generatedIncome doneI).
  rewrite !length_map.
  split; [assumption|]. split; [assumption|].
  split; [now rewrite Q|].
  split; [rewrite D1|rewrite J1]; apply filter_length_le.
Qed.

Lemma sweep_counts_witness :
  let r := processRecurringTransactions Sample.jun15
             (mkWorld Sample.templates []) in
  exists newExpenses newIncomes,
    expense (store (snd r)) = (expense Sample.templates ++ newExpenses)%list
    /\ income (store (snd r)) = (income Sample.templates ++ newIncomes)%list
    /\ Response.data (fst r)
       = Processed (List.length newExpenses) (List.length newIncomes)
           (List.length (filter (isDueExpense (setHoursZero Sample.jun15))
                           (recurringExpense Sample.templates))
            + List.length (filter (isDueIncome (setHoursZero Sample.jun15))
                             (recurringIncome Sample.templates)))
    /\ (List.length newExpenses
        <= List.length (filter (isDueExpense (setHoursZero Sample.jun15))
                          (recurringExpense Sample.templates)))%nat
    /\ (List.length newIncomes
        <= List.length (filter (isDueIncome (setHoursZero Sample.jun15))
                          (recurringIncome Sample.templates)))%nat.
Proof.
  apply (sweep_counts Sample.jun15 (mkWorld Sample.templates []));
    [sample_unique|reflexivity].
Defined.

(** X22: when no template of either table is due and the two queries
    go through, the sweep answers 200 with all three counts at zero
    and writes nothing. *)
Theorem sweep_with_nothing_due (now : Date) (w : World) :
  nextCallGoesThrough w = true ->
  nextCallGoesThrough (mkWorld (store w) (tl (faults w))) = true ->
  (forall t, In t (recurringExpense (store w)) ->
     isDueExpense (setHoursZero now) t = false) ->
  (forall t, In t (recurringIncome (store w)) ->
     isDueIncome (setHoursZero now) t = false) ->
  processRecurringTransactions now w
  = (sweepProcessed 0 0 0, mkWorld (store w) (tl (tl (faults w)))).
Proof.
  intros G1 G2 Ne Ni.
  rewrite processRecurringTransactions_flow. cbv zeta.
  rewrite (filter_none _ _ Ne).
  unfold nextCallGoesThrough in G1, G2. cbn [faults] in G2.
  destruct (faults w) as [|[] fs]; try discriminate G1;
    cbn [tl forOf ret faults store] in *;
    rewrite (filter_none _ _ Ni); cbn [forOf ret];
    try reflexivity;
    destruct fs as [|[] fs']; try discriminate G2; reflexivity.
Qed.

Lemma sweep_with_nothing_due_witness :
  processRecurringTransactions (mkDate 2024 0 1 0)
    (mkWorld Sample.templates [false])
  = (sweepProcessed 0 0 0, mkWorld Sample.templates []).
Proof.
  apply (sweep_with_nothing_due (mkDate 2024 0 1 0)
           (mkWorld Sample.templates [false])); try reflexivity.
  - cbn. intros ? H.
    repeat (destruct H as [<-|H]; [reflexivity|]). destruct H.
  - cbn. intros ? H.
    repeat (destruct H as [<-|H]; [reflexivity|]). destruct H.
Defined.

(** X23: every record a sweep adds is a copy of a template that was
    due and not expired: it has the template's owner, amount and
    description and category (source for an income), and is flagged
    [isRecurring]; this holds whatever store calls fail. *)
Theorem generated_records_copy_templates (now : Date) (w : World) :
  uniqueIds (store w) ->
  let s := store w in
  let s' := store (snd (processRecurringTransactions now w)) in
  exists newExpenses newIncomes,
    expense s' = (expense s ++ newExpenses)%list
    /\ income s' = (income s ++ newIncomes)%list
    /\ (forall e, In e newExpenses ->
        Expense.isRecurring e = true
        /\ exists t, In t (recurringExpense s)
             /\ isDueExpense (setHoursZero now) t = true
             /\ endsBefore (RecurringExpense.endDate t) (setHoursZero now)
                = false
             /\ Expense.userId e = RecurringExpense.userId t
             /\ Expense.amount e = RecurringExpense.amount t
             /\ Expense.description e = RecurringExpense.description t
             /\ Expense.category e = RecurringExpense.category t)
    /\ (forall e, In e newIncomes ->
        Income.isRecurring e = true
        /\ exists t, In t (recurringIncome s)
             /\ isDueIncome (setHoursZero now) t = true
             /\ endsBefore (RecurringIncome.endDate t) (setHoursZero now)
                = false
             /\ Income.userId e = RecurringIncome.userId t
             /\ Income.amount e = RecurringIncome.amount t
             /\ Income.source e = RecurringIncome.source t).
Proof.
  intros U s s'.
  destruct (processRecurringTransactions_sweep now w U)
    as (doneE & doneI & SE & SI & _).
  destruct SE as (E1 & _ & E3 & _). destruct SI as (I1 & _ & I3 & _).
  exists (map generatedExpense doneE), (map generatedIncome doneI).
  split; [exact E1|]. split; [exact I1|]. split.
  - intros e He. apply in_map_iff in He. destruct He as (t & <- & Ht).
    split; [reflexivity|]. exists t.
    destruct (E3 t Ht) as (Q1 & Q2 & Q3). repeat split; assumption.
  - intros e He. apply in_map_iff in He. destruct He as (t & <- & Ht).
    split; [reflexivity|]. exists t.
    destruct (I3 t Ht) as (Q1 & Q2 & Q3). repeat split; assumption.
Qed.

Lemma generated_records_copy_templates_witness :
  let s' := store (snd (processRecurringTransactions Sample.feb1
                          (mkWorld Sample.templates []))) in
  exists newExpenses newIncomes,
    expense s' = newExpenses /\ income s' = newIncomes
    /\ (forall e, In e newExpenses -> Expense.isRecurring e = true)
    /\ (forall e, In e newIncomes -> Income.isRecurring e = true).
Proof.
  intros s'.
  assert (U : uniqueIds (store (mkWorld Sample.templates [])))
    by sample_unique.
  destruct (generated_records_copy_templates Sample.feb1
              (mkWorld Sample.templates []) U) as (nE & nI & H1 & H2 & H3 & H4).
  exists nE, nI. split; [exact H1|]. split; [exact H2|].
  split; [intros e He; exact (proj1 (H3 e He))
         |intros e He; exact (proj1 (H4 e He))].
Defined.

(** X24: the frequency check of an update is skipped for the empty
    string: an update by the owner whose body carries [frequency: ""]
    (and no amount) is answered 200 and stores the empty frequency,
    with [includes validFrequencies ""] false. *)
Theorem update_accepts_empty_frequency (userId id : string) (s : Store)
  (existing : RecurringExpense.t) (updates : ExpenseUpdates.t) :
  find (fun r => String.eqb (RecurringExpense.id r) id) (recurringExpense s)
  = Some existing ->
  RecurringExpense.userId existing = userId ->
  ExpenseUpdates.frequency updates = Some "" ->
  ExpenseUpdates.amount updates = None ->
  let r := updateRecurringExpense userId id updates (mkWorld s []) in
  Response.status (fst r) = 200
  /\ (exists row, Response.data (fst r) = ExpenseTemplate row
        /\ RecurringExpense.frequency row = ""
        /\ RecurringExpense.id row = RecurringExpense.id existing
        /\ In row (recurringExpense (store (snd r))))
  /\ includes validFrequencies "" = false.
Proof.
  intros F O Ef Ea r. unfold r.
  rewrite (updateRecurringExpense_quiet userId id updates s existing F O).
  - cbn [fst snd store Response.status Response.data].
    split; [reflexivity|]. split; [|reflexivity].
    eexists. split; [reflexivity|].
    split; [unfold applyExpenseUpdates, stripExpenseUpdates;
            cbn [RecurringExpense.frequency ExpenseUpdates.frequency];
            now rewrite Ef|].
    split; [reflexivity|].
    cbn [setRecurringExpense recurringExpense].
    apply find_key_some in F. destruct F as [Hin Hk].
    now apply rewriteRows_hit.
  - now rewrite Ef.
  - now rewrite Ea.
Qed.

Lemma update_accepts_empty_frequency_witness :
  let updates := ExpenseUpdates.mk None None None None (Some "") None None
                   None None None in
  let r := updateRecurringExpense "alice" "rent" updates
             (mkWorld Sample.templates []) in
  Response.status (fst r) = 200
  /\ (exists row, Response.data (fst r) = ExpenseTemplate row
        /\ RecurringExpense.frequency row = ""
        /\ RecurringExpense.id row = RecurringExpense.id Sample.rent
        /\ In row (recurringExpense (store (snd r))))
  /\ includes validFrequencies "" = false.
Proof.
  intros updates.
  apply (update_accepts_empty_frequency "alice" "rent" Sample.templates
           Sample.rent updates); reflexivity.
Defined.

(** X25: a due, unexpired template whose frequency is none of the four
    stops the sweep after its record was created: the turn throws
    "Invalid frequency", the record is in the store and the template
    row is as it was. *)
Theorem unknown_frequency_stops_the_turn (today : Date)
  (t : RecurringExpense.t) (n : nat) (w : World) :
  nextCallGoesThrough w = true ->
  endsBefore (RecurringExpense.endDate t) today = false ->
  includes validFrequencies (RecurringExpense.frequency t) = false ->
  dueExpenseBody today t n w
  = Thrown (InvalidFrequency (RecurringExpense.frequency t))
      (mkWorld (setExpense (expense (store w) ++ [generatedExpense t])
                  (store w))
         (tl (faults w))).
Proof.
  intros Go Live Bad. unfold dueExpenseBody. rewrite Live.
  rewrite (calculateNextDate_frequency _ _ Bad).
  unfold nextCallGoesThrough in Go.
  cbv beta iota zeta delta
    [bind ret lift throw prismaCall prisma.expense.create].
  destruct (faults w) as [|[] fs]; try discriminate Go; reflexivity.
Qed.

Lemma unknown_frequency_stops_the_turn_witness :
  let t := RecurringExpense.mk "rent" "alice" (Qmake 1200 1) "Rent" "Housing"
             "" (mkDate 2025 0 31 0) (mkDate 2025 0 31 0) None true in
  dueExpenseBody (mkDate 2025 1 1 0) t 0%nat (mkWorld Sample.empty [])
  = Thrown (InvalidFrequency "")
      (mkWorld (setExpense [generatedExpense t] Sample.empty) []).
Proof.
  intros t.
  apply (unknown_frequency_stops_the_turn (mkDate 2025 1 1 0) t 0%nat
           (mkWorld Sample.empty [])); reflexivity.
Defined.

(** ** Listing templates *)

Section Sorting.

Context {T : Type} (le : T -> T -> bool).
Hypothesis le_total : forall a b, le a b = false -> le b a = true.






End Sorting.




(** ** The scheduler's tick *)

Lemma processRecurringTransactions_answers (now : Date) (w : World) :
  (exists e, fst (processRecurringTransactions now w) = sweepFailed e)
  \/ (exists a b c,
        fst (processRecurringTransactions now w) = sweepProcessed a b c).
Proof.
  rewrite processRecurringTransactions_flow. cbv zeta.
  destruct (faults w) as [|[] fs]; cbn [fst]; eauto;
    (destruct (forOf (dueExpenseBody _) _ _ _) as [n1 w1|e1 w1];
     cbn [fst]; eauto;
     destruct (faults w1) as [|[] fs1]; cbn [fst]; eauto;
     destruct (forOf (dueIncomeBody _) _ _ _); cbn [fst]; eauto).
Qed.

(** X28: a tick of the scheduler leaves the store as the handler it
    calls leaves it, or untouched when the request is refused.  It
    logs the three counts exactly as the handler returned them when
    the answer is 200, and the error with status 500 and the response
    when the handler failed; the line "processing failed" of its
    [else] branch is never written, since a failing handler answers
    500 and makes the request reject. *)
Theorem schedulerTick_log (net : Net) (now : Date) (w : World) :
  let handled := processRecurringTransactions now w in
  let tick := schedulerTick net now w in
  (forall m, ~ In (ProcessingFailed m) (fst tick))
  /\ (net = Refused -> tick = ([Running; ErrorProcessing], w))
  /\ (net = Lost -> tick = ([Running; ErrorProcessing], snd handled))
  /\ (net = Delivered ->
      snd tick = snd handled
      /\ ((exists a b c,
             fst handled = sweepProcessed a b c
             /\ fst tick = [Running; ProcessedSuccessfully; ExpensesCreated a;
                            IncomesCreated b; TotalProcessed c])
          \/ (exists e,
                fst handled = sweepFailed e
                /\ fst tick = [Running; ErrorProcessing; ResponseStatus 500;
                               ResponseData (sweepFailed e)]))).
Proof.
  cbv zeta. unfold schedulerTick, axiosPostProcess.
  destruct (processRecurringTransactions_answers now w)
    as [(e & E)|(a & b & c & E)];
    destruct (processRecurringTransactions now w) as [resp w'];
    cbn [fst snd] in *; subst resp.
  - destruct net; cbn.
    + split; [intros m [H|[H|[H|[H|[]]]]]; discriminate H|].
      split; [discriminate|]. split; [discriminate|].
      intros _. split; [reflexivity|]. right. eauto.
    + split; [intros m [H|[H|[]]]; discriminate H|].
      split; [reflexivity|]. split; discriminate.
    + split; [intros m [H|[H|[]]]; discriminate H|].
      split; [discriminate|]. split; [reflexivity|discriminate].
  - destruct net; cbn.
    + split; [intros m [H|[H|[H|[H|[H|[]]]]]]; discriminate H|].
      split; [discriminate|]. split; [discriminate|].
      intros _. split; [reflexivity|]. left. eauto 6.
    + split; [intros m [H|[H|[]]]; discriminate H|].
      split; [reflexivity|]. split; discriminate.
    + split; [intros m [H|[H|[]]]; discriminate H|].
      split; [discriminate|]. split; [reflexivity|discriminate].
Qed.
